(** * Encrypted-Secret-VOIP: key wrapping, session crypto, signaling and the
    voice engine, embedded from the JavaScript sources

    - [client/src/services/cryptoService.js]  (class CryptoService)
    - SignalingManager                         (perfect-negotiation helper)
    - VoiceEngine                              (per-room coordinator)

    Browser capabilities (Web Crypto, node-forge, RTCPeerConnection, the
    socket.io relay, Web Audio) are external to the repository; they enter
    the development as interfaces whose operations are parameters. *)

From Stdlib Require Import ZArith List Lia Bool.
From Stdlib Require Import Strings.String Strings.Byte.
From stdpp Require Import base option list gmap sets strings.

Local Open Scope Z_scope.

(* ===================================================================== *)
(** * JavaScript values: exceptions, typed arrays, DataView *)
(* ===================================================================== *)

(** What a [throw] (or a rejected promise) carries. [Error msg] is
    [new Error(msg)]; the others are the DOM exceptions raised by the
    platform objects the code calls. *)
Inductive exn : Type :=
  | Error (message : string)
  | RangeError
  | TypeError
  | OperationError
  | DataError
  | InvalidStateError
  | NotSupportedError.

(** Result of running a function: it returns, it throws, or the bounded
    unrolling of one of its loops was too short. *)
Inductive outcome (A : Type) : Type :=
  | Ok (a : A)
  | Throw (e : exn)
  | OutOfFuel.
Arguments Ok {A} a.
Arguments Throw {A} e.
Arguments OutOfFuel {A}.

#[global] Instance outcome_ret : MRet outcome := fun A a => Ok a.
#[global] Instance outcome_bind : MBind outcome := fun A B k m =>
  match m with
  | Ok a => k a
  | Throw e => Throw e
  | OutOfFuel => OutOfFuel
  end.

(** A rejected platform call: the primitive gives no value. *)
Definition orThrow {A} (e : exn) (o : option A) : outcome A :=
  match o with Some a => Ok a | None => Throw e end.

(** [Uint8Array]. *)
Abbreviation bytes := (list byte).

#[global] Instance byte_eq_dec : EqDecision byte := Byte.byte_eq_dec.

Definition byteLength (a : bytes) : Z := Z.of_nat (length a).

Definition byte_of_Z (z : Z) : byte :=
  default "000"%byte (Byte.of_N (Z.to_N (Z.land z 255))).

Definition Z_of_byte (b : byte) : Z := Z.of_N (Byte.to_N b).

(** Relative index of [TypedArray.prototype.slice]: negative counts from
    the end, everything is clamped to [0, len]. *)
Definition relativeIndex (len z : Z) : Z :=
  if z <? 0 then Z.max (len + z) 0 else Z.min z len.

(** [a.slice(start, end)] *)
Definition slice (a : bytes) (start end_ : Z) : bytes :=
  let len := byteLength a in
  let k := relativeIndex len start in
  let final := relativeIndex len end_ in
  take (Z.to_nat (final - k)) (drop (Z.to_nat k) a).

(** [a.slice(start)] *)
Definition sliceFrom (a : bytes) (start : Z) : bytes :=
  slice a start (byteLength a).

(** [new DataView(new Uint8Array(4).buffer).setUint32(0, n, true)]:
    the value is taken modulo 2^32 and stored low byte first. *)
Definition setUint32_le (n : Z) : bytes :=
  let v := Z.land n (Z.ones 32) in
  [ byte_of_Z v;
    byte_of_Z (Z.shiftr v 8);
    byte_of_Z (Z.shiftr v 16);
    byte_of_Z (Z.shiftr v 24) ].

(** [new DataView(buffer, offset, 4).getUint32(0, true)]. The constructor
    throws a RangeError when [offset + 4] exceeds the buffer. *)
Definition getUint32_le (buffer : bytes) (offset : Z) : outcome Z :=
  if (offset <? 0) || (byteLength buffer <? offset + 4) then Throw RangeError
  else
    match drop (Z.to_nat offset) buffer with
    | b0 :: b1 :: b2 :: b3 :: _ =>
        Ok (Z_of_byte b0 + Z.shiftl (Z_of_byte b1) 8
            + Z.shiftl (Z_of_byte b2) 16 + Z.shiftl (Z_of_byte b3) 24)
    | _ => Throw RangeError
    end.

(* ===================================================================== *)
(** * cryptoService.js *)
(* ===================================================================== *)

(** The cryptographic capabilities the service calls. The first argument
    of the RSA operations is the back end in use ([true]: Web Crypto's
    [crypto.subtle], [false]: node-forge); a missing result is a rejected
    promise or a thrown error. RSA-OAEP encryption is randomised: [Seed]
    is the randomness one encryption consumes. *)
Class CryptoBackend : Type := {
  JsonWebKey : Type;
  PrivateKey : Type;
  CryptoKey : Type;
  Seed : Type;
  (** [subtle.importKey('jwk', ..) + subtle.encrypt({name:'RSA-OAEP'}, ..)]
      or [jwkToForgePublicKey + publicKey.encrypt(.., 'RSA-OAEP', ..)] *)
  rsa_oaep_encrypt : bool -> JsonWebKey -> Seed -> bytes -> option bytes;
  rsa_oaep_decrypt : bool -> PrivateKey -> bytes -> option bytes;
  (** [subtle.encrypt({name:'AES-GCM', iv}, key, data)]: ciphertext with
      the tag appended *)
  subtle_aes_gcm_encrypt : CryptoKey -> bytes -> bytes -> option bytes;
  subtle_aes_gcm_decrypt : CryptoKey -> bytes -> bytes -> option bytes;
  (** [forge.cipher.createCipher('AES-GCM', key)], [start], [update],
      [finish]: [cipher.output] and [cipher.mode.tag] *)
  forge_aes_gcm_encrypt : bytes -> bytes -> bytes -> option (bytes * bytes);
  (** [createDecipher], [start({iv, tagLength:128, tag})], [update],
      [finish]: [Some None] is [finish() === false] *)
  forge_aes_gcm_decrypt : bytes -> bytes -> bytes -> bytes -> option (option bytes);
  (** [subtle.generateKey({name:'AES-GCM', length:256}, ..)],
      [subtle.exportKey('raw', ..)], [subtle.importKey('raw', ..)] *)
  subtle_generateKey : Seed -> CryptoKey;
  subtle_exportKey : CryptoKey -> option bytes;
  subtle_importKey : bytes -> option CryptoKey;
  (** [forge.random.getBytesSync(32)] *)
  forge_getBytesSync32 : Seed -> bytes;
}.

(** The platform's random generator ([crypto.getRandomValues],
    [forge.random], and the randomness consumed inside the RSA and
    key-generation primitives): an infinite supply read at a cursor that
    only moves forward. *)
Record Csprng `{CryptoBackend} : Type := {
  rnd_byte : nat -> byte;
  rnd_seed : nat -> Seed;
  rnd_pos : nat;
}.

Section CryptoService.
Context `{CB : CryptoBackend}.

Definition advance (n : nat) (r : Csprng) : Csprng :=
  {| rnd_byte := rnd_byte r; rnd_seed := rnd_seed r; rnd_pos := (rnd_pos r + n)%nat |}.

(** [crypto.getRandomValues(new Uint8Array(n))] and
    [forge.random.getBytesSync(n)] *)
Definition getRandomValues (n : nat) (r : Csprng) : bytes * Csprng :=
  (map (rnd_byte r) (seq (rnd_pos r) n), advance n r).

Definition drawSeed (r : Csprng) : Seed * Csprng :=
  (rnd_seed r (rnd_pos r), advance 1 r).

Record KeyPair : Type := {
  publicKey : JsonWebKey;
  privateKey : PrivateKey;
}.

(** [class CryptoService]: the fields the modelled methods read. *)
Record CryptoService : Type := {
  keyPair : option KeyPair;
  useNative : bool;
}.

(** An AES session key is a [CryptoKey] under Web Crypto and the raw key
    bytes under node-forge. *)
Inductive SessionKey : Type :=
  | NativeKey (k : CryptoKey)
  | RawKey (raw : bytes).

(** ** RSA-OAEP chunked encryption (lines 338-433) *)

Definition MAX_CHUNK_SIZE : Z := 190.

(** [for (let i = 0; i < audioBytes.length; i += MAX_CHUNK_SIZE)
       chunks.push(audioBytes.slice(i, i + MAX_CHUNK_SIZE))] *)
Fixpoint splitChunks (fuel : nat) (audioBytes : bytes) (i : Z)
    (chunks : list bytes) : outcome (list bytes) :=
  if i <? byteLength audioBytes then
    match fuel with
    | O => OutOfFuel
    | S fuel' =>
        let chunk := slice audioBytes i (i + MAX_CHUNK_SIZE) in
        splitChunks fuel' audioBytes (i + MAX_CHUNK_SIZE) (chunks ++ [chunk])
    end
  else Ok chunks.

(** [chunks.map(chunk => subtle.encrypt(..))] under [Promise.all], and the
    forge [for (const chunk of chunks)] loop: every chunk is encrypted on
    its own; the first failure rejects the whole call (what the generator
    holds after a failure is not used by any caller). *)
Fixpoint encryptChunks (native : bool) (publicKey : JsonWebKey)
    (chunks : list bytes) (r : Csprng) : outcome (list bytes) * Csprng :=
  match chunks with
  | [] => (Ok [], r)
  | chunk :: rest =>
      let '(seed, r1) := drawSeed r in
      match rsa_oaep_encrypt native publicKey seed chunk with
      | None => (Throw OperationError, r1)
      | Some encrypted =>
          let '(res, r2) := encryptChunks native publicKey rest r1 in
          (encryptedChunks ← res; Ok (encrypted :: encryptedChunks), r2)
      end
  end.

(** [result.push(lengthBytes); result.push(encryptedChunk)] for every
    chunk, then the arrays are copied one after the other into
    [combined]. *)
Definition lengthPrefixed (encryptedChunks : list bytes) : list bytes :=
  flat_map (fun encryptedChunk =>
              [setUint32_le (byteLength encryptedChunk); encryptedChunk])
           encryptedChunks.

Definition flattenArrays (result : list bytes) : bytes := concat result.

Definition encryptAudio (this : CryptoService) (audioData : bytes)
    (recipientPublicKeyJwk : JsonWebKey) (r : Csprng) : outcome bytes * Csprng :=
  match splitChunks (length audioData) audioData 0 [] with
  | Ok chunks =>
      if useNative this then
        let '(res, r') := encryptChunks true recipientPublicKeyJwk chunks r in
        (encryptedChunks ← res; Ok (flattenArrays (lengthPrefixed encryptedChunks)), r')
      else
        let '(res, r') := encryptChunks false recipientPublicKeyJwk chunks r in
        (encryptedChunks ← res; Ok (flattenArrays (lengthPrefixed encryptedChunks)), r')
  | Throw e => (Throw e, r)
  | OutOfFuel => (OutOfFuel, r)
  end.

(** ** RSA-OAEP chunked decryption (lines 438-520) *)

(** The [while (offset < encryptedBytes.length)] loop. Next to the
    chunks, the loop keeps the byte ranges [(from, to)] it asks the buffer
    for (the 4-byte [DataView] and each [slice]), oldest first. *)
Fixpoint parseChunks (fuel : nat) (encryptedBytes : bytes) (offset : Z)
    (chunks : list bytes) (reads : list (Z * Z)) : outcome (list bytes) * list (Z * Z) :=
  if offset <? byteLength encryptedBytes then
    match fuel with
    | O => (OutOfFuel, reads)
    | S fuel' =>
        if byteLength encryptedBytes <? offset + 4
        then (Throw (Error "Invalid encrypted data format"), reads)
        else
          let reads := reads ++ [(offset, offset + 4)] in
          match getUint32_le encryptedBytes offset with
          | Ok chunkLength =>
              let offset := offset + 4 in
              if byteLength encryptedBytes <? offset + chunkLength
              then (Throw (Error "Invalid chunk length"), reads)
              else
                let chunk := slice encryptedBytes offset (offset + chunkLength) in
                parseChunks fuel' encryptedBytes (offset + chunkLength)
                  (chunks ++ [chunk]) (reads ++ [(offset, offset + chunkLength)])
          | Throw e => (Throw e, reads)
          | OutOfFuel => (OutOfFuel, reads)
          end
    end
  else (Ok chunks, reads).

(** [chunks.map(chunk => subtle.decrypt(..))] under [Promise.all], and the
    forge loop. [OperationError] is what [subtle.decrypt] rejects with;
    it stands here for the plain [Error] node-forge throws as well. *)
Fixpoint decryptChunks (native : bool) (privateKey : PrivateKey)
    (chunks : list bytes) : outcome (list bytes) :=
  match chunks with
  | [] => Ok []
  | chunk :: rest =>
      decrypted ← orThrow OperationError (rsa_oaep_decrypt native privateKey chunk);
      decryptedChunks ← decryptChunks native privateKey rest;
      Ok (decrypted :: decryptedChunks)
  end.

Definition decryptAudio (this : CryptoService) (encryptedData : bytes) : outcome bytes :=
  match keyPair this with
  | None => Throw (Error "Private key not available")
  | Some kp =>
      chunks ← fst (parseChunks (length encryptedData) encryptedData 0 [] []);
      if useNative this then
        decryptedChunks ← decryptChunks true (privateKey kp) chunks;
        Ok (flattenArrays decryptedChunks)
      else
        decryptedChunks ← decryptChunks false (privateKey kp) chunks;
        Ok (flattenArrays decryptedChunks)
  end.

(** ** Hybrid encryption: session keys (lines 567-633) *)

Definition generateSessionKey (this : CryptoService) (r : Csprng) : SessionKey * Csprng :=
  let '(seed, r') := drawSeed r in
  if useNative this then (NativeKey (subtle_generateKey seed), r')
  else (RawKey (forge_getBytesSync32 seed), r').

(** A key of the other back end never reaches a service: keys are made
    by [generateSessionKey] or [importSessionKey] of the same service.
    Web Crypto rejects a non-[CryptoKey] with a TypeError. *)
Definition exportSessionKey (this : CryptoService) (key : SessionKey) : outcome bytes :=
  if useNative this then
    match key with
    | NativeKey k => orThrow InvalidStateError (subtle_exportKey k)
    | RawKey _ => Throw TypeError
    end
  else
    match key with
    | RawKey raw => Ok raw
    | NativeKey _ => Throw TypeError
    end.

Definition importSessionKey (this : CryptoService) (rawKey : bytes) : outcome SessionKey :=
  if useNative this then
    k ← orThrow DataError (subtle_importKey rawKey); Ok (NativeKey k)
  else Ok (RawKey rawKey).

Definition encryptSessionKey (this : CryptoService) (sessionKey : SessionKey)
    (recipientPublicKeyJwk : JsonWebKey) (r : Csprng) : outcome bytes * Csprng :=
  match exportSessionKey this sessionKey with
  | Ok rawKey =>
      (* [rawKey instanceof ArrayBuffer ? rawKey : base64ToArrayBuffer(btoa(rawKey))]:
         the same bytes either way *)
      let keyData := rawKey in
      encryptAudio this keyData recipientPublicKeyJwk r
  | Throw e => (Throw e, r)
  | OutOfFuel => (OutOfFuel, r)
  end.

Definition decryptSessionKey (this : CryptoService) (encryptedSessionKey : bytes)
    : outcome SessionKey :=
  rawKeyBuffer ← decryptAudio this encryptedSessionKey;
  importSessionKey this rawKeyBuffer.

(** ** AES-256-GCM audio frames (lines 640-758) *)

Definition encryptAudioAES (this : CryptoService) (audioData : bytes)
    (sessionKey : SessionKey) (r : Csprng) : outcome bytes * Csprng :=
  if useNative this then
    let '(iv, r') := getRandomValues 12 r in
    match sessionKey with
    | NativeKey key =>
        (encrypted ← orThrow OperationError (subtle_aes_gcm_encrypt key iv audioData);
         Ok (iv ++ encrypted), r')
    | RawKey _ => (Throw TypeError, r')
    end
  else
    let '(iv, r') := getRandomValues 12 r in
    match sessionKey with
    | RawKey key =>
        ('(encrypted, tag) ← orThrow OperationError (forge_aes_gcm_encrypt key iv audioData);
         Ok (iv ++ encrypted ++ tag), r')
    | NativeKey _ => (Throw TypeError, r')
    end.

Definition decryptAudioAES (this : CryptoService) (data : bytes)
    (sessionKey : SessionKey) : outcome bytes :=
  let fullBuffer := data in
  if useNative this then
    let iv := slice fullBuffer 0 12 in
    let ciphertext := sliceFrom fullBuffer 12 in
    match sessionKey with
    | NativeKey key => orThrow OperationError (subtle_aes_gcm_decrypt key iv ciphertext)
    | RawKey _ => Throw TypeError
    end
  else
    let iv := slice fullBuffer 0 12 in
    let tagLength := 16 in
    let ciphertext := slice fullBuffer 12 (byteLength fullBuffer - tagLength) in
    let tag := sliceFrom fullBuffer (byteLength fullBuffer - tagLength) in
    match sessionKey with
    | RawKey key =>
        success ← orThrow OperationError (forge_aes_gcm_decrypt key iv ciphertext tag);
        match success with
        | None => Throw (Error "Auth tag mismatch")
        | Some decrypted => Ok decrypted
        end
    | NativeKey _ => Throw TypeError
    end.

End CryptoService.

(* ===================================================================== *)
(** * Handlers as state transformers *)
(* ===================================================================== *)

(** An event handler runs to completion on the state [S] it mutates and
    returns, throws, or runs out of fuel. [await] points are sequencing:
    a handler is not interleaved with another one. [console] output is
    not part of the state. *)
Definition JS (S A : Type) : Type := S -> outcome A * S.

#[global] Instance JS_ret {S} : MRet (JS S) := fun A a s => (Ok a, s).
#[global] Instance JS_bind {S} : MBind (JS S) := fun A B k m s =>
  match m s with
  | (Ok a, s') => k a s'
  | (Throw e, s') => (Throw e, s')
  | (OutOfFuel, s') => (OutOfFuel, s')
  end.

Definition throw {S A} (e : exn) : JS S A := fun s => (Throw e, s).
Definition gets {S A} (f : S -> A) : JS S A := fun s => (Ok (f s), s).
Definition modify {S} (f : S -> S) : JS S unit := fun s => (Ok tt, f s).
Definition skip {S} : JS S unit := mret tt.

(** [try { body } catch (err) { handler }] *)
Definition try_catch {S A} (body : JS S A) (handler : exn -> JS S A) : JS S A :=
  fun s =>
    match body s with
    | (Throw e, s') => handler e s'
    | r => r
    end.

(** [try { body } finally { cleanup }]: the cleanup runs whether the body
    returned or threw; the body's completion is kept unless the cleanup
    itself throws. *)
Definition try_finally {S A} (body : JS S A) (cleanup : JS S unit) : JS S A :=
  fun s =>
    match body s with
    | (OutOfFuel, s') => (OutOfFuel, s')
    | (r, s') =>
        match cleanup s' with
        | (Ok _, s'') => (r, s'')
        | (Throw e, s'') => (Throw e, s'')
        | (OutOfFuel, s'') => (OutOfFuel, s'')
        end
    end.

(** [try { body } catch (err) { handler } finally { cleanup }] *)
Definition try_catch_finally {S A} (body : JS S A) (handler : exn -> JS S A)
    (cleanup : JS S unit) : JS S A :=
  try_finally (try_catch body handler) cleanup.

(* ===================================================================== *)
(** * SignalingManager *)
(* ===================================================================== *)

(** [RTCPeerConnection.signalingState] *)
Inductive SignalingState : Type :=
  | stable
  | have_local_offer
  | have_remote_offer
  | have_local_pranswer
  | have_remote_pranswer
  | closed.

#[global] Instance SignalingState_eq_dec : EqDecision SignalingState.
Proof. solve_decision. Defined.

(** Argument of [setLocalDescription]: none (the browser creates the
    offer or answer that fits the state) or [{type: 'rollback'}]. *)
Inductive LocalDescriptionInit : Type :=
  | Implicit
  | Rollback.

(** The object literals sent through the relay:
    [{roomId, targetSocketId, offer|answer: description, from: {id, username}}]
    and [{roomId, targetSocketId, candidate}]. *)
Inductive SocketPayload (Description Candidate : Type) : Type :=
  | DescriptionPayload (roomId : option string) (targetSocketId : string)
      (description : Description) (fromId fromUsername : option string)
  | CandidatePayload (roomId : option string) (targetSocketId : string)
      (candidate : Candidate).
Arguments DescriptionPayload {Description Candidate}.
Arguments CandidatePayload {Description Candidate}.

(** The transport and relay capabilities: one [RTCPeerConnection] and
    the socket.io client. Every operation may reject or throw. *)
Class Transport : Type := {
  PeerConnection : Type;
  Socket : Type;
  Description : Type;
  Candidate : Type;
  signalingState : PeerConnection -> SignalingState;
  localDescription : PeerConnection -> Description;
  pc_setLocalDescription : LocalDescriptionInit -> PeerConnection -> exn + PeerConnection;
  pc_setRemoteDescription : Description -> PeerConnection -> exn + PeerConnection;
  pc_addIceCandidate : Candidate -> PeerConnection -> exn + PeerConnection;
  socket_emit :
    string -> SocketPayload Description Candidate -> Socket -> exn + Socket;
}.

(** The fields of a [SignalingManager]. [pc] names the connection object
    the manager was built for. *)
Record SignalingManager : Type := {
  pc : nat;
  peerId : string;
  roomId : option string;
  userId : option string;
  username : option string;
  polite : bool;
  makingOffer : bool;
  ignoreOffer : bool;
  isSettingRemoteAnswerPending : bool;
}.

(** [new SignalingManager(peerConnection, socket, peerId, roomId, userId,
    username, polite)] *)
Definition newSignalingManager (peerConnection : nat) (peerId : string)
    (roomId userId username : option string) (polite : bool) : SignalingManager :=
  {| pc := peerConnection; peerId := peerId; roomId := roomId; userId := userId;
     username := username; polite := polite;
     makingOffer := false; ignoreOffer := false; isSettingRemoteAnswerPending := false |}.

Module Signaling.
Section WithTransport.
Context `{T : Transport}.

(** Calls made on the peer connection and on the socket, oldest first. *)
Inductive Call : Type :=
  | SetLocalDescription (init : LocalDescriptionInit)
  | SetRemoteDescription (description : Description)
  | AddIceCandidate (candidate : Candidate)
  | Emit (event : string) (payload : SocketPayload Description Candidate).

(** The objects [this.pc] and [this.socket] point to, and the calls the
    manager has made on them. *)
Record World : Type := {
  pcState : PeerConnection;
  socketState : Socket;
  trace : list Call;
}.

Record State : Type := {
  this : SignalingManager;
  world : World;
}.

Definition set_makingOffer (b : bool) : JS State unit :=
  modify (fun s =>
    {| this := {| pc := pc (this s); peerId := peerId (this s); roomId := roomId (this s);
                  userId := userId (this s); username := username (this s);
                  polite := polite (this s);
                  makingOffer := b; ignoreOffer := ignoreOffer (this s);
                  isSettingRemoteAnswerPending := isSettingRemoteAnswerPending (this s) |};
       world := world s |}).

Definition set_ignoreOffer (b : bool) : JS State unit :=
  modify (fun s =>
    {| this := {| pc := pc (this s); peerId := peerId (this s); roomId := roomId (this s);
                  userId := userId (this s); username := username (this s);
                  polite := polite (this s);
                  makingOffer := makingOffer (this s); ignoreOffer := b;
                  isSettingRemoteAnswerPending := isSettingRemoteAnswerPending (this s) |};
       world := world s |}).

Definition set_isSettingRemoteAnswerPending (b : bool) : JS State unit :=
  modify (fun s =>
    {| this := {| pc := pc (this s); peerId := peerId (this s); roomId := roomId (this s);
                  userId := userId (this s); username := username (this s);
                  polite := polite (this s);
                  makingOffer := makingOffer (this s); ignoreOffer := ignoreOffer (this s);
                  isSettingRemoteAnswerPending := b |};
       world := world s |}).

(** A call on [this.pc]: recorded, then performed; a rejection leaves the
    connection as it was. *)
Definition callPc (c : Call) (op : PeerConnection -> exn + PeerConnection) : JS State unit :=
  fun s =>
    let w := world s in
    let tr := trace w ++ [c] in
    match op (pcState w) with
    | inr pc' =>
        (Ok tt, {| this := this s;
                   world := {| pcState := pc'; socketState := socketState w; trace := tr |} |})
    | inl e =>
        (Throw e, {| this := this s;
                     world := {| pcState := pcState w; socketState := socketState w; trace := tr |} |})
    end.

Definition setLocalDescription (init : LocalDescriptionInit) : JS State unit :=
  callPc (SetLocalDescription init) (pc_setLocalDescription init).

Definition setRemoteDescription (description : Description) : JS State unit :=
  callPc (SetRemoteDescription description) (pc_setRemoteDescription description).

Definition addIceCandidate (candidate : Candidate) : JS State unit :=
  callPc (AddIceCandidate candidate) (pc_addIceCandidate candidate).

(** [this.socket.emit(event, payload)] *)
Definition emit (event : string) (payload : SocketPayload Description Candidate)
    : JS State unit :=
  fun s =>
    let w := world s in
    let tr := trace w ++ [Emit event payload] in
    match socket_emit event payload (socketState w) with
    | inr sock' =>
        (Ok tt, {| this := this s;
                   world := {| pcState := pcState w; socketState := sock'; trace := tr |} |})
    | inl e =>
        (Throw e, {| this := this s;
                     world := {| pcState := pcState w; socketState := socketState w; trace := tr |} |})
    end.

(** [{roomId, targetSocketId, offer|answer: this.pc.localDescription,
      from: {id: this.userId, username: this.username}}] *)
Definition localDescriptionPayload (s : State) : SocketPayload Description Candidate :=
  DescriptionPayload (roomId (this s)) (peerId (this s))
    (localDescription (pcState (world s)))
    (userId (this s)) (username (this s)).

(** [this.pc.onnegotiationneeded] (constructor, lines 1047-1062) *)
Definition onnegotiationneeded : JS State unit :=
  try_catch_finally
    (set_makingOffer true;;
     setLocalDescription Implicit;;
     payload ← gets localDescriptionPayload;
     emit "offer" payload)
    (fun err => skip)
    (set_makingOffer false).

(** [this.pc.onicecandidate] *)
Definition onicecandidate (candidate : option Candidate) : JS State unit :=
  match candidate with
  | Some c =>
      s ← gets id;
      emit "ice-candidate" (CandidatePayload (roomId (this s)) (peerId (this s)) c)
  | None => skip
  end.

(** [handleOffer] (lines 1075-1105) *)
Definition handleOffer (offer : Description) : JS State unit :=
  try_catch
    (s ← gets id;
     let offerCollision :=
       makingOffer (this s)
       || bool_decide (signalingState (pcState (world s)) ≠ stable) in
     set_ignoreOffer (negb (polite (this s)) && offerCollision);;
     ignore ← gets (fun s => ignoreOffer (this s));
     if ignore : bool then skip
     else
       (if offerCollision then setLocalDescription Rollback else skip);;
       setRemoteDescription offer;;
       setLocalDescription Implicit;;
       payload ← gets localDescriptionPayload;
       emit "answer" payload)
    (fun err => skip).

(** [handleAnswer] (lines 1107-1127) *)
Definition handleAnswer (answer : Description) : JS State unit :=
  try_catch_finally
    (s ← gets id;
     if isSettingRemoteAnswerPending (this s) then skip
     else if bool_decide (signalingState (pcState (world s)) = stable) then skip
     else
       set_isSettingRemoteAnswerPending true;;
       setRemoteDescription answer)
    (fun err => skip)
    (set_isSettingRemoteAnswerPending false).

(** [handleIceCandidate] (lines 1129-1137) *)
Definition handleIceCandidate (candidate : Candidate) : JS State unit :=
  try_catch (addIceCandidate candidate) (fun err => skip).

End WithTransport.
End Signaling.

(* ===================================================================== *)
(** * VoiceEngine *)
(* ===================================================================== *)

Module Engine.
Section WithPlatform.
Context `{CB : CryptoBackend}.

(** The [cryptoService] singleton the engine imports. *)
Variable cryptoService : CryptoService.

(** [JSON.stringify(message).length], by which [send] raises
    [bufferedAmount]. *)
Variable jsonLength : bytes -> bytes -> bytes -> Z.

(** Whether the largest absolute sample of a decoded frame exceeds
    [SPEAKING_THRESHOLD = 0.01] (a comparison of floats). *)
Variable aboveSpeakingThreshold : bytes -> bool.

(** ** Platform objects *)

(** An [RTCPeerConnection] as the engine uses it: the [publicKey] the
    engine attaches, whether [close()] was called, whether the engine
    installed [ondatachannel]. *)
Record RTCPeerConnection : Type := {
  pc_publicKey : option JsonWebKey;
  pc_closeCalled : bool;
  pc_ondatachannel : bool;
}.

Inductive ReadyState : Type :=
  | dc_connecting
  | dc_open
  | dc_closing
  | dc_closed.

#[global] Instance ReadyState_eq_dec : EqDecision ReadyState.
Proof. solve_decision. Defined.

(** A message on the data channel after [JSON.parse]: the [type] tag and
    the byte arrays [new Uint8Array(msg.payload)], [new Uint8Array(msg.iv)],
    [new Uint8Array(msg.data)] (empty when the property is absent). *)
Record Message : Type := {
  type : string;
  payload : bytes;
  iv : bytes;
  data : bytes;
}.

(** An [RTCDataChannel]: [handlers] holds what the closures installed by
    [setupDataChannel] captured, [(peerId, isInitiator)]; [sent] is what
    [send] was given, oldest first. *)
Record RTCDataChannel : Type := {
  readyState : ReadyState;
  bufferedAmount : Z;
  sent : list Message;
  handlers : option (string * bool);
}.

(** [audioContext.state]. A suspended context carries what its
    [resume()] settles with: nothing when the promise resolves, the
    exception when it rejects. *)
Inductive AudioContextState : Type :=
  | suspended (rejection : option exn)
  | running.

(** Calls of the UI callbacks ([onParticipantJoined], [onParticipantLeft],
    [onPeerSpeakingChange], [onSecurityEvent]). *)
Inductive UiEvent : Type :=
  | ParticipantJoined (id : option string) (username : string) (socketId : string)
  | ParticipantLeft (id : option string) (username : string) (socketId : string)
  | PeerSpeakingChange (peerId : string) (isSpeaking : bool)
  | SecurityEvent (type message : string).

(** ** Engine state

    The [Map]s and the [Set] of the constructor, the objects they refer
    to ([connections], [channels], allocated at [nextRef]), the random
    generator, and what the engine has output so far. [dataChannels] is
    kept in insertion order because [broadcastEncryptedAudio] iterates
    over it. [audioNodes] keeps the peers that have a gain node;
    [engineUserId] and [engineUsername] are [this.userId] and
    [this.username]. *)
Record VoiceEngine : Type := {
  peerConnections : gmap string nat;
  dataChannels : list (string * nat);
  signalingManagers : gmap string SignalingManager;
  peerSessionKeys : gmap string SessionKey;
  secureChannels : gset string;
  audioNodes : gset string;
  peerSpeakingState : gmap string bool;
  peerMuteState : gmap string bool;
  currentRoom : option string;
  engineUserId : option string;
  engineUsername : option string;
  audioContext : option AudioContextState;
  connections : gmap nat RTCPeerConnection;
  channels : gmap nat RTCDataChannel;
  nextRef : nat;
  random : Csprng;
  uiEvents : list UiEvent;
  playback : list (string * bytes);
}.

Definition upd_peerConnections (f : gmap string nat -> gmap string nat)
    (e : VoiceEngine) : VoiceEngine :=
  {| peerConnections := f (peerConnections e); dataChannels := dataChannels e;
     signalingManagers := signalingManagers e; peerSessionKeys := peerSessionKeys e;
     secureChannels := secureChannels e; audioNodes := audioNodes e; peerSpeakingState :=
     peerSpeakingState e; peerMuteState := peerMuteState e; currentRoom := currentRoom e;
     engineUserId := engineUserId e; engineUsername := engineUsername e; audioContext :=
     audioContext e; connections := connections e; channels := channels e; nextRef :=
     nextRef e; random := random e; uiEvents := uiEvents e; playback := playback e |}.

Definition upd_dataChannels (f : list (string * nat) -> list (string * nat))
    (e : VoiceEngine) : VoiceEngine :=
  {| peerConnections := peerConnections e; dataChannels := f (dataChannels e);
     signalingManagers := signalingManagers e; peerSessionKeys := peerSessionKeys e;
     secureChannels := secureChannels e; audioNodes := audioNodes e; peerSpeakingState :=
     peerSpeakingState e; peerMuteState := peerMuteState e; currentRoom := currentRoom e;
     engineUserId := engineUserId e; engineUsername := engineUsername e; audioContext :=
     audioContext e; connections := connections e; channels := channels e; nextRef :=
     nextRef e; random := random e; uiEvents := uiEvents e; playback := playback e |}.

Definition upd_signalingManagers (f : gmap string SignalingManager -> gmap string SignalingManager)
    (e : VoiceEngine) : VoiceEngine :=
  {| peerConnections := peerConnections e; dataChannels := dataChannels e;
     signalingManagers := f (signalingManagers e); peerSessionKeys := peerSessionKeys e;
     secureChannels := secureChannels e; audioNodes := audioNodes e; peerSpeakingState :=
     peerSpeakingState e; peerMuteState := peerMuteState e; currentRoom := currentRoom e;
     engineUserId := engineUserId e; engineUsername := engineUsername e; audioContext :=
     audioContext e; connections := connections e; channels := channels e; nextRef :=
     nextRef e; random := random e; uiEvents := uiEvents e; playback := playback e |}.

Definition upd_peerSessionKeys (f : gmap string SessionKey -> gmap string SessionKey)
    (e : VoiceEngine) : VoiceEngine :=
  {| peerConnections := peerConnections e; dataChannels := dataChannels e;
     signalingManagers := signalingManagers e; peerSessionKeys := f (peerSessionKeys e);
     secureChannels := secureChannels e; audioNodes := audioNodes e; peerSpeakingState :=
     peerSpeakingState e; peerMuteState := peerMuteState e; currentRoom := currentRoom e;
     engineUserId := engineUserId e; engineUsername := engineUsername e; audioContext :=
     audioContext e; connections := connections e; channels := channels e; nextRef :=
     nextRef e; random := random e; uiEvents := uiEvents e; playback := playback e |}.

Definition upd_secureChannels (f : gset string -> gset string)
    (e : VoiceEngine) : VoiceEngine :=
  {| peerConnections := peerConnections e; dataChannels := dataChannels e;
     signalingManagers := signalingManagers e; peerSessionKeys := peerSessionKeys e;
     secureChannels := f (secureChannels e); audioNodes := audioNodes e;
     peerSpeakingState := peerSpeakingState e; peerMuteState := peerMuteState e;
     currentRoom := currentRoom e; engineUserId := engineUserId e; engineUsername :=
     engineUsername e; audioContext := audioContext e; connections := connections e;
     channels := channels e; nextRef := nextRef e; random := random e; uiEvents :=
     uiEvents e; playback := playback e |}.

Definition upd_audioNodes (f : gset string -> gset string)
    (e : VoiceEngine) : VoiceEngine :=
  {| peerConnections := peerConnections e; dataChannels := dataChannels e;
     signalingManagers := signalingManagers e; peerSessionKeys := peerSessionKeys e;
     secureChannels := secureChannels e; audioNodes := f (audioNodes e);
     peerSpeakingState := peerSpeakingState e; peerMuteState := peerMuteState e;
     currentRoom := currentRoom e; engineUserId := engineUserId e; engineUsername :=
     engineUsername e; audioContext := audioContext e; connections := connections e;
     channels := channels e; nextRef := nextRef e; random := random e; uiEvents :=
     uiEvents e; playback := playback e |}.

Definition upd_peerSpeakingState (f : gmap string bool -> gmap string bool)
    (e : VoiceEngine) : VoiceEngine :=
  {| peerConnections := peerConnections e; dataChannels := dataChannels e;
     signalingManagers := signalingManagers e; peerSessionKeys := peerSessionKeys e;
     secureChannels := secureChannels e; audioNodes := audioNodes e; peerSpeakingState :=
     f (peerSpeakingState e); peerMuteState := peerMuteState e; currentRoom :=
     currentRoom e; engineUserId := engineUserId e; engineUsername := engineUsername e;
     audioContext := audioContext e; connections := connections e; channels := channels
     e; nextRef := nextRef e; random := random e; uiEvents := uiEvents e; playback :=
     playback e |}.

Definition upd_peerMuteState (f : gmap string bool -> gmap string bool)
    (e : VoiceEngine) : VoiceEngine :=
  {| peerConnections := peerConnections e; dataChannels := dataChannels e;
     signalingManagers := signalingManagers e; peerSessionKeys := peerSessionKeys e;
     secureChannels := secureChannels e; audioNodes := audioNodes e; peerSpeakingState :=
     peerSpeakingState e; peerMuteState := f (peerMuteState e); currentRoom :=
     currentRoom e; engineUserId := engineUserId e; engineUsername := engineUsername e;
     audioContext := audioContext e; connections := connections e; channels := channels
     e; nextRef := nextRef e; random := random e; uiEvents := uiEvents e; playback :=
     playback e |}.

Definition upd_audioContext (f : option AudioContextState -> option AudioContextState)
    (e : VoiceEngine) : VoiceEngine :=
  {| peerConnections := peerConnections e; dataChannels := dataChannels e;
     signalingManagers := signalingManagers e; peerSessionKeys := peerSessionKeys e;
     secureChannels := secureChannels e; audioNodes := audioNodes e; peerSpeakingState :=
     peerSpeakingState e; peerMuteState := peerMuteState e; currentRoom := currentRoom e;
     engineUserId := engineUserId e; engineUsername := engineUsername e; audioContext :=
     f (audioContext e); connections := connections e; channels := channels e; nextRef :=
     nextRef e; random := random e; uiEvents := uiEvents e; playback := playback e |}.

Definition upd_connections (f : gmap nat RTCPeerConnection -> gmap nat RTCPeerConnection)
    (e : VoiceEngine) : VoiceEngine :=
  {| peerConnections := peerConnections e; dataChannels := dataChannels e;
     signalingManagers := signalingManagers e; peerSessionKeys := peerSessionKeys e;
     secureChannels := secureChannels e; audioNodes := audioNodes e; peerSpeakingState :=
     peerSpeakingState e; peerMuteState := peerMuteState e; currentRoom := currentRoom e;
     engineUserId := engineUserId e; engineUsername := engineUsername e; audioContext :=
     audioContext e; connections := f (connections e); channels := channels e; nextRef :=
     nextRef e; random := random e; uiEvents := uiEvents e; playback := playback e |}.

Definition upd_channels (f : gmap nat RTCDataChannel -> gmap nat RTCDataChannel)
    (e : VoiceEngine) : VoiceEngine :=
  {| peerConnections := peerConnections e; dataChannels := dataChannels e;
     signalingManagers := signalingManagers e; peerSessionKeys := peerSessionKeys e;
     secureChannels := secureChannels e; audioNodes := audioNodes e; peerSpeakingState :=
     peerSpeakingState e; peerMuteState := peerMuteState e; currentRoom := currentRoom e;
     engineUserId := engineUserId e; engineUsername := engineUsername e; audioContext :=
     audioContext e; connections := connections e; channels := f (channels e); nextRef :=
     nextRef e; random := random e; uiEvents := uiEvents e; playback := playback e |}.

Definition upd_nextRef (f : nat -> nat)
    (e : VoiceEngine) : VoiceEngine :=
  {| peerConnections := peerConnections e; dataChannels := dataChannels e;
     signalingManagers := signalingManagers e; peerSessionKeys := peerSessionKeys e;
     secureChannels := secureChannels e; audioNodes := audioNodes e; peerSpeakingState :=
     peerSpeakingState e; peerMuteState := peerMuteState e; currentRoom := currentRoom e;
     engineUserId := engineUserId e; engineUsername := engineUsername e; audioContext :=
     audioContext e; connections := connections e; channels := channels e; nextRef := f
     (nextRef e); random := random e; uiEvents := uiEvents e; playback := playback e |}.

Definition upd_random (f : Csprng -> Csprng)
    (e : VoiceEngine) : VoiceEngine :=
  {| peerConnections := peerConnections e; dataChannels := dataChannels e;
     signalingManagers := signalingManagers e; peerSessionKeys := peerSessionKeys e;
     secureChannels := secureChannels e; audioNodes := audioNodes e; peerSpeakingState :=
     peerSpeakingState e; peerMuteState := peerMuteState e; currentRoom := currentRoom e;
     engineUserId := engineUserId e; engineUsername := engineUsername e; audioContext :=
     audioContext e; connections := connections e; channels := channels e; nextRef :=
     nextRef e; random := f (random e); uiEvents := uiEvents e; playback := playback e |}.

Definition upd_uiEvents (f : list UiEvent -> list UiEvent)
    (e : VoiceEngine) : VoiceEngine :=
  {| peerConnections := peerConnections e; dataChannels := dataChannels e;
     signalingManagers := signalingManagers e; peerSessionKeys := peerSessionKeys e;
     secureChannels := secureChannels e; audioNodes := audioNodes e; peerSpeakingState :=
     peerSpeakingState e; peerMuteState := peerMuteState e; currentRoom := currentRoom e;
     engineUserId := engineUserId e; engineUsername := engineUsername e; audioContext :=
     audioContext e; connections := connections e; channels := channels e; nextRef :=
     nextRef e; random := random e; uiEvents := f (uiEvents e); playback := playback e |}.

Definition upd_playback (f : list (string * bytes) -> list (string * bytes))
    (e : VoiceEngine) : VoiceEngine :=
  {| peerConnections := peerConnections e; dataChannels := dataChannels e;
     signalingManagers := signalingManagers e; peerSessionKeys := peerSessionKeys e;
     secureChannels := secureChannels e; audioNodes := audioNodes e; peerSpeakingState :=
     peerSpeakingState e; peerMuteState := peerMuteState e; currentRoom := currentRoom e;
     engineUserId := engineUserId e; engineUsername := engineUsername e; audioContext :=
     audioContext e; connections := connections e; channels := channels e; nextRef :=
     nextRef e; random := random e; uiEvents := uiEvents e; playback := f (playback e) |}.

(** ** [Map] in insertion order *)

Fixpoint Map_get {V} (k : string) (m : list (string * V)) : option V :=
  match m with
  | [] => None
  | (k', v) :: rest => if String.eqb k k' then Some v else Map_get k rest
  end.

(** [m.set(k, v)]: an existing key keeps its place. *)
Fixpoint Map_set {V} (k : string) (v : V) (m : list (string * V)) : list (string * V) :=
  match m with
  | [] => [(k, v)]
  | (k', v') :: rest =>
      if String.eqb k k' then (k', v) :: rest else (k', v') :: Map_set k v rest
  end.

Fixpoint Map_delete {V} (k : string) (m : list (string * V)) : list (string * V) :=
  match m with
  | [] => []
  | (k', v') :: rest =>
      if String.eqb k k' then rest else (k', v') :: Map_delete k rest
  end.

(** ** Object allocation and platform methods *)

(** [new RTCPeerConnection({ iceServers })] *)
Definition newRTCPeerConnection : JS VoiceEngine nat :=
  fun e =>
    let r := nextRef e in
    let obj := {| pc_publicKey := None; pc_closeCalled := false; pc_ondatachannel := false |} in
    (Ok r, upd_nextRef S (upd_connections (insert r obj) e)).

(** [peerConnection.createDataChannel('audio', {ordered: false, maxRetransmits: 0})] *)
Definition createDataChannel : JS VoiceEngine nat :=
  fun e =>
    let r := nextRef e in
    let obj := {| readyState := dc_connecting; bufferedAmount := 0; sent := [];
                  handlers := None |} in
    (Ok r, upd_nextRef S (upd_channels (insert r obj) e)).

(** A method call on a missing object is a TypeError. *)
Definition withConnection (r : nat) (f : RTCPeerConnection -> RTCPeerConnection)
    : JS VoiceEngine unit :=
  fun e =>
    match connections e !! r with
    | Some obj => (Ok tt, upd_connections (insert r (f obj)) e)
    | None => (Throw TypeError, e)
    end.

Definition withChannel (r : nat) (f : RTCDataChannel -> RTCDataChannel)
    : JS VoiceEngine unit :=
  fun e =>
    match channels e !! r with
    | Some obj => (Ok tt, upd_channels (insert r (f obj)) e)
    | None => (Throw TypeError, e)
    end.

(** [peerConnection.close()] *)
Definition pc_close (r : nat) : JS VoiceEngine unit :=
  withConnection r (fun obj =>
    {| pc_publicKey := pc_publicKey obj; pc_closeCalled := true;
       pc_ondatachannel := pc_ondatachannel obj |}).

(** [dataChannel.close()]: an open or connecting channel starts closing. *)
Definition dc_close (r : nat) : JS VoiceEngine unit :=
  withChannel r (fun obj =>
    {| readyState := match readyState obj with
                     | dc_connecting | dc_open => dc_closing
                     | st => st
                     end;
       bufferedAmount := bufferedAmount obj; sent := sent obj;
       handlers := handlers obj |}).

(** [dataChannel.send(JSON.stringify(message))]: an InvalidStateError
    unless the channel is open. *)
Definition dc_send (r : nat) (message : Message) : JS VoiceEngine unit :=
  fun e =>
    match channels e !! r with
    | Some obj =>
        if bool_decide (readyState obj = dc_open) then
          (Ok tt,
           upd_channels (insert r
             {| readyState := readyState obj;
                bufferedAmount :=
                  bufferedAmount obj
                  + jsonLength (payload message) (iv message) (data message);
                sent := sent obj ++ [message];
                handlers := handlers obj |}) e)
        else (Throw InvalidStateError, e)
    | None => (Throw TypeError, e)
    end.

(** [this.onX?.(..)] and [emitSecurityEvent] *)
Definition notify (ev : UiEvent) : JS VoiceEngine unit :=
  modify (upd_uiEvents (fun l => l ++ [ev])).

Definition emitSecurityEvent (type message : string) : JS VoiceEngine unit :=
  notify (SecurityEvent type message).

(** Running a [cryptoService] method that draws randomness. *)
Definition withRandom {A} (f : Csprng -> outcome A * Csprng) : JS VoiceEngine A :=
  fun e => let '(res, r') := f (random e) in (res, upd_random (fun _ => r') e).

Definition lift {A} (res : outcome A) : JS VoiceEngine A := fun e => (res, e).

(** A value is truthy unless it is missing or the empty string. *)
Definition truthy (s : option string) : option string :=
  match s with
  | Some k => if String.eqb k "" then None else Some k
  | None => None
  end.

(** [x || 'Unknown'] *)
Definition orUnknown (s : option string) : string :=
  match truthy s with Some k => k | None => "Unknown" end.

(** ** Data channels (lines 770-852) *)

Definition keyMessage (payload : bytes) : Message :=
  {| type := "key"; payload := payload; iv := []; data := [] |}.
Definition keyAckMessage : Message :=
  {| type := "key-ack"; payload := []; iv := []; data := [] |}.
Definition audioMessage (iv data : bytes) : Message :=
  {| type := "audio"; payload := []; iv := iv; data := data |}.

(** [dataChannel.onopen] *)
Definition onopen (dataChannel : nat) (peerId : string) (isInitiator : bool)
    : JS VoiceEngine unit :=
  if isInitiator then
    e ← gets id;
    let peerConnection := peerConnections e !! peerId ≫= (fun r => connections e !! r) in
    match peerConnection ≫= pc_publicKey, peerSessionKeys e !! peerId with
    | Some publicKeyJwk, None =>
        try_catch
          (sessionKey ← withRandom (fun r =>
             let '(k, r') := generateSessionKey cryptoService r in (Ok k, r'));
           modify (upd_peerSessionKeys (insert peerId sessionKey));;
           encryptedSessionKey ←
             withRandom (encryptSessionKey cryptoService sessionKey publicKeyJwk);
           dc_send dataChannel (keyMessage encryptedSessionKey))
          (fun err => skip)
    | _, _ => skip
    end
  else skip.

(** [dataChannel.onclose] *)
Definition onclose (dataChannel : nat) (peerId : string) : JS VoiceEngine unit :=
  modify (upd_dataChannels (Map_delete peerId));;
  modify (upd_secureChannels (fun s => s ∖ {[peerId]})).

(** [playAudio] (lines 900-940). [audioData] holds the bytes of the
    [Float32Array], so [audioData.length] is a quarter of its byte
    length; [createBuffer] throws a NotSupportedError for a length of
    zero, before the gain node is looked up or made. *)
Definition playAudio (audioData : bytes) (peerId : string) : JS VoiceEngine unit :=
  e ← gets id;
  match audioContext e with
  | None => skip
  | Some st =>
      (match st with
       | suspended None => modify (upd_audioContext (fun _ => Some running))
       | suspended (Some rejection) => throw rejection
       | running => skip
       end);;
      (* [this.audioContext.createBuffer(1, audioData.length, this.inputSampleRate)] *)
      (if byteLength audioData / 4 =? 0 then throw NotSupportedError else skip);;
      modify (upd_audioNodes (fun s => s ∪ {[peerId]}));;
      modify (upd_playback (fun l => l ++ [(peerId, audioData)]))
  end.

(** [handleIncomingAudio] (lines 858-895) *)
Definition handleIncomingAudio (msg : Message) (peerId : string) : JS VoiceEngine unit :=
  try_catch
    (e ← gets id;
     match peerSessionKeys e !! peerId with
     | None => skip
     | Some sessionKey =>
         let combined := iv msg ++ data msg in
         decryptedBuffer ← lift (decryptAudioAES cryptoService combined sessionKey);
         (* [new Float32Array(decryptedBuffer)] *)
         audioData ← (if byteLength decryptedBuffer mod 4 =? 0
                      then mret decryptedBuffer else throw RangeError);
         let isPeerSpeaking := aboveSpeakingThreshold audioData in
         let wasSpeaking := default false (peerSpeakingState e !! peerId) in
         (if negb (eqb isPeerSpeaking wasSpeaking) then
            modify (upd_peerSpeakingState (insert peerId isPeerSpeaking));;
            notify (PeerSpeakingChange peerId isPeerSpeaking)
          else skip);;
         playAudio audioData peerId
     end)
    (fun error => skip).

(** [dataChannel.onmessage]; [event] is [JSON.parse(event.data)], absent
    when the text is not JSON. *)
Definition onmessage (dataChannel : nat) (peerId : string) (event : option Message)
    : JS VoiceEngine unit :=
  try_catch
    (msg ← lift (orThrow (Error "SyntaxError") event);
     if String.eqb (type msg) "key" then
       try_catch
         (let raw := payload msg in
          sessionKey ← lift (decryptSessionKey cryptoService raw);
          modify (upd_peerSessionKeys (insert peerId sessionKey));;
          dc_send dataChannel keyAckMessage;;
          modify (upd_secureChannels (fun s => s ∪ {[peerId]}));;
          emitSecurityEvent "key-exchange" "Secure AES session established")
         (fun e => skip)
     else if String.eqb (type msg) "key-ack" then
       modify (upd_secureChannels (fun s => s ∪ {[peerId]}));;
       emitSecurityEvent "handshake-complete" "Secure audio channel active"
     else if String.eqb (type msg) "audio" then
       handleIncomingAudio msg peerId
     else skip)
    (fun e => skip).

(** [setupDataChannel] *)
Definition setupDataChannel (dataChannel : nat) (peerId : string) (isInitiator : bool)
    : JS VoiceEngine unit :=
  modify (upd_dataChannels (Map_set peerId dataChannel));;
  withChannel dataChannel (fun obj =>
    {| readyState := readyState obj; bufferedAmount := bufferedAmount obj;
       sent := sent obj; handlers := Some (peerId, isInitiator) |}).

(** ** Peer connections (lines 693-765, 951-966) *)

(** [peerConnection.onconnectionstatechange] with the new
    [connectionState] *)
Definition onconnectionstatechange (peerId : string) (state : string)
    : JS VoiceEngine unit :=
  if String.eqb state "failed" || String.eqb state "disconnected" then
    emitSecurityEvent "peer-disconnected" ("Peer connection " ++ state);;
    modify (upd_peerSessionKeys (delete peerId));;
    modify (upd_secureChannels (fun s => s ∖ {[peerId]}));;
    modify (upd_signalingManagers (delete peerId))
  else if String.eqb state "connected" then
    emitSecurityEvent "handshake-complete" "Secure connection established with peer"
  else skip.

Definition createPeerConnection (peerId : string) (odileId username : option string)
    (publicKey : option JsonWebKey) (isInitiator : bool) : JS VoiceEngine nat :=
  peerConnection ← newRTCPeerConnection;
  withConnection peerConnection (fun obj =>
    {| pc_publicKey := publicKey; pc_closeCalled := pc_closeCalled obj;
       pc_ondatachannel := pc_ondatachannel obj |});;
  modify (upd_peerConnections (insert peerId peerConnection));;
  let polite := negb isInitiator in
  e ← gets id;
  let signalingManager :=
    newSignalingManager peerConnection peerId (currentRoom e) (engineUserId e)
      (engineUsername e) polite in
  modify (upd_signalingManagers (insert peerId signalingManager));;
  (if isInitiator then
     dataChannel ← createDataChannel;
     setupDataChannel dataChannel peerId true
   else
     withConnection peerConnection (fun obj =>
       {| pc_publicKey := pc_publicKey obj; pc_closeCalled := pc_closeCalled obj;
          pc_ondatachannel := true |}));;
  mret peerConnection.

(** [peerConnection.ondatachannel], installed for a non-initiator *)
Definition ondatachannel (peerId : string) (channel : nat) : JS VoiceEngine unit :=
  setupDataChannel channel peerId false.

Definition closePeerConnection (peerId : string) : JS VoiceEngine unit :=
  e ← gets id;
  (match peerConnections e !! peerId with
   | Some peerConnection =>
       pc_close peerConnection;;
       modify (upd_peerConnections (delete peerId))
   | None => skip
   end);;
  e ← gets id;
  (match Map_get peerId (dataChannels e) with
   | Some dataChannel =>
       dc_close dataChannel;;
       modify (upd_dataChannels (Map_delete peerId))
   | None => skip
   end);;
  modify (upd_audioNodes (fun s => s ∖ {[peerId]}));;
  modify (upd_peerSpeakingState (delete peerId)).

(** ** Relay events (lines 217-249) *)

(** The [data] of [user-joined] and [user-left]. *)
Record UserEvent : Type := {
  ev_userId : option string;
  ev_username : option string;
  ev_socketId : option string;
  ev_publicKey : option JsonWebKey;
}.

(** [socket.on('user-joined', ..)] *)
Definition on_user_joined (data : UserEvent) : JS VoiceEngine unit :=
  try_catch
    (match truthy (ev_socketId data) with
     | None => skip
     | Some socketId =>
         createPeerConnection socketId (ev_userId data) (ev_username data)
           (ev_publicKey data) false;;
         notify (ParticipantJoined (ev_userId data) (orUnknown (ev_username data)) socketId)
     end)
    (fun error => skip).

(** [socket.on('user-left', ..)] *)
Definition on_user_left (data : UserEvent) : JS VoiceEngine unit :=
  try_catch
    (match truthy (ev_socketId data) with
     | None => skip
     | Some socketId =>
         closePeerConnection socketId;;
         modify (upd_peerSpeakingState (delete socketId));;
         modify (upd_peerMuteState (delete socketId));;
         notify (ParticipantLeft (ev_userId data) (orUnknown (ev_username data)) socketId)
     end)
    (fun error => skip).

(** ** Outgoing audio (lines 582-634) *)

(** One turn of [for (const [peerId, dataChannel] of this.dataChannels)]. *)
Definition broadcastTo (audioData : bytes) (peerId : string) (dataChannel : nat)
    : JS VoiceEngine unit :=
  e ← gets id;
  if bool_decide (peerId ∈ secureChannels e) then
    match channels e !! dataChannel with
    | None => throw TypeError
    | Some obj =>
        if bool_decide (readyState obj = dc_open) && (bufferedAmount obj <? 16384) then
          match peerSessionKeys e !! peerId with
          | Some sessionKey =>
              try_catch
                (encryptedBuffer ←
                   withRandom (encryptAudioAES cryptoService audioData sessionKey);
                 let fullBuffer := encryptedBuffer in
                 let iv := slice fullBuffer 0 12 in
                 let ciphertext := sliceFrom fullBuffer 12 in
                 dc_send dataChannel (audioMessage iv ciphertext))
                (fun error => skip)
          | None => skip
          end
        else skip
    end
  else skip.

Fixpoint broadcastLoop (audioData : bytes) (entries : list (string * nat))
    : JS VoiceEngine unit :=
  match entries with
  | [] => skip
  | (peerId, dataChannel) :: rest =>
      broadcastTo audioData peerId dataChannel;;
      broadcastLoop audioData rest
  end.

Definition broadcastEncryptedAudio (audioData : bytes) : JS VoiceEngine unit :=
  e ← gets id;
  broadcastLoop audioData (dataChannels e).

(** [new VoiceEngine()], with the audio context and identity that
    [initialize] and [joinRoom] set before any relay event is handled. *)
Definition newVoiceEngine (room user name : option string)
    (ctx : option AudioContextState) (rng : Csprng) : VoiceEngine :=
  {| peerConnections := ∅; dataChannels := []; signalingManagers := ∅;
     peerSessionKeys := ∅; secureChannels := ∅; audioNodes := ∅;
     peerSpeakingState := ∅; peerMuteState := ∅;
     currentRoom := room; engineUserId := user; engineUsername := name;
     audioContext := ctx; connections := ∅; channels := ∅; nextRef := 0%nat;
     random := rng; uiEvents := []; playback := [] |}.

End WithPlatform.
End Engine.

(* ===================================================================== *)
(** * Properties of keys and payloads used in the statements *)
(* ===================================================================== *)

Section KeyProperties.
Context `{CB : CryptoBackend}.

(** A matching RSA-OAEP pair: what the public key encrypts (with the back
    end [encNative]) the private key decrypts (with the back end
    [decNative]), for every message up to the 190 bytes a 2048-bit modulus
    with SHA-256 takes and for every randomness; a ciphertext has a length
    a [Uint32] holds (it is as long as the modulus). *)
Definition MatchingKeyPair (encNative decNative : bool) (pub : JsonWebKey)
    (priv : PrivateKey) : Prop :=
  forall (seed : Seed) (m : bytes),
    byteLength m <= MAX_CHUNK_SIZE ->
    exists c, rsa_oaep_encrypt encNative pub seed m = Some c
              /\ byteLength c < 2 ^ 32
              /\ rsa_oaep_decrypt decNative priv c = Some m.

(** What the AEAD primitive of the service's back end returns for a frame:
    the ciphertext followed by the tag. *)
Definition aeadSeal (k : SessionKey) (nonce p : bytes) : option (bytes * bytes) :=
  match k with
  | NativeKey key =>
      c ← subtle_aes_gcm_encrypt key nonce p;
      Some (take (length c - 16) c, drop (length c - 16) c)
  | RawKey key => forge_aes_gcm_encrypt key nonce p
  end.

(** An AES-GCM session key of the service: a key of its back end under
    which the primitive opens what it sealed, with a 16-byte tag. *)
Definition AesGcmKey (this : CryptoService) (k : SessionKey) : Prop :=
  match k with
  | NativeKey key =>
      useNative this = true /\
      forall nonce p, length nonce = 12%nat ->
        exists c, subtle_aes_gcm_encrypt key nonce p = Some c
                  /\ (16 <= length c)%nat
                  /\ subtle_aes_gcm_decrypt key nonce c = Some p
  | RawKey key =>
      useNative this = false /\
      forall nonce p, length nonce = 12%nat ->
        exists c t, forge_aes_gcm_encrypt key nonce p = Some (c, t)
                    /\ length t = 16%nat
                    /\ forge_aes_gcm_decrypt key nonce c t = Some (Some p)
  end.

End KeyProperties.

(** The value of a 4-byte little-endian length prefix. *)
Definition le32 (b0 b1 b2 b3 : byte) : Z :=
  Z_of_byte b0 + 256 * Z_of_byte b1 + 65536 * Z_of_byte b2 + 16777216 * Z_of_byte b3.

(** A wrapped-key payload in which, walking the chunks from the start,
    fewer than 4 bytes remain for a length prefix, or a declared chunk
    length is more than what remains after its prefix. *)
Inductive Malformed : bytes -> Prop :=
  | Malformed_prefix (b : bytes) :
      (0 < length b < 4)%nat -> Malformed b
  | Malformed_length (b0 b1 b2 b3 : byte) (rest : bytes) :
      byteLength rest < le32 b0 b1 b2 b3 ->
      Malformed (b0 :: b1 :: b2 :: b3 :: rest)
  | Malformed_later (b0 b1 b2 b3 : byte) (chunk rest : bytes) :
      le32 b0 b1 b2 b3 = byteLength chunk ->
      Malformed rest ->
      Malformed (b0 :: b1 :: b2 :: b3 :: chunk ++ rest).

(** A requested byte range lies inside a buffer of [len] bytes. *)
Definition inBounds (len : Z) (range : Z * Z) : Prop :=
  0 <= fst range /\ fst range <= snd range /\ snd range <= len.



Section NegotiationProperties.
Context `{T : Transport}.
Import Signaling.

(** [offerCollision] as [handleOffer] computes it on entry. *)
Definition offerCollision (s : State) : bool :=
  makingOffer (this s) || bool_decide (signalingState (pcState (world s)) ≠ stable).

(** The payload of an offer or answer once the connection is in state [pc]. *)
Definition signalPayload (s : State) (pc : PeerConnection)
    : SocketPayload Description Candidate :=
  DescriptionPayload (roomId (this s)) (peerId (this s)) (localDescription pc)
    (userId (this s)) (username (this s)).

(** The calls [handleOffer] makes before it applies the remote offer. *)
Definition rollbackCalls (s : State) : list Call :=
  if offerCollision s then [SetLocalDescription Rollback] else [].

(** The connection after the rollback, where one is needed. *)
Definition rolledBack (s : State) (pc1 : PeerConnection) : Prop :=
  if offerCollision s
  then pc_setLocalDescription Rollback (pcState (world s)) = inr pc1
  else pc1 = pcState (world s).

(** The last clause of C2 as the specification words it: whenever the
    offer is not ignored, an answer is sent. *)
Definition answers_unless_ignored `{T : Transport} (offer : Description)
    (s : State) : Prop :=
  let s' := snd (handleOffer offer s) in
  ignoreOffer (this s') = false ->
  exists payload,
    In (Emit "answer" payload) (trace (world s')).

End NegotiationProperties.

Section EngineProperties.
Context `{CB : CryptoBackend}.
Import Engine.




(** C1 as the specification words it, on the receiving side: an [audio]
    message for a peer that is not in [secureChannels] is dropped, so
    nothing is played. *)
Definition drops_audio_before_secureAck (cryptoService : CryptoService)
    (jsonLength : bytes -> bytes -> bytes -> Z) (aboveSpeakingThreshold : bytes -> bool)
    (dataChannel : nat) (peerId : string) (msg : Message) (e : VoiceEngine) : Prop :=
  type msg = "audio" ->
  peerId ∉ secureChannels e ->
  playback (snd (onmessage cryptoService jsonLength aboveSpeakingThreshold
                   dataChannel peerId (Some msg) e))
  = playback e.

End EngineProperties.

(* ===================================================================== *)
(** * More of the voice engine: the participants list and relay routing *)
(* ===================================================================== *)

Module Room.
Section WithPlatform.
Context `{CB : CryptoBackend}.
Import Engine.

(** An entry of the [participants] array of [room-participants]. *)
Record Participant : Type := {
  part_id : option string;
  part_username : option string;
  part_socketId : option string;
  part_publicKey : option JsonWebKey;
}.

(** [participant?.socketId && participant.socketId !== this.socket?.id] *)
Definition isRemote (ownSocketId : option string) (participant : Participant)
    : option string :=
  match truthy (part_socketId participant) with
  | Some socketId =>
      if bool_decide (Some socketId = ownSocketId) then None else Some socketId
  | None => None
  end.

(** [for (const participant of participants)] (lines 321-331) *)
Fixpoint createLinks (ownSocketId : option string) (participants : list Participant)
    : JS VoiceEngine unit :=
  match participants with
  | [] => skip
  | participant :: rest =>
      (match isRemote ownSocketId participant with
       | Some socketId =>
           createPeerConnection socketId (part_id participant)
             (Some (orUnknown (part_username participant)))
             (part_publicKey participant) true;;
           skip
       | None => skip
       end);;
      createLinks ownSocketId rest
  end.

(** [socket.on('room-participants', ..)]; [participants] is absent when
    the property is missing or not an array, [ownSocketId] is
    [this.socket?.id]. *)
Definition on_room_participants (ownSocketId : option string)
    (participants : option (list Participant)) : JS VoiceEngine unit :=
  try_catch
    (match participants with
     | None => skip
     | Some ps => createLinks ownSocketId ps
     end)
    (fun error => skip).

End WithPlatform.
End Room.

Module Node.
Section WithCapabilities.
Context `{CB : CryptoBackend} `{T : Transport}.
Import Engine.

(** The state of a connection that has just been constructed. *)
Variable newConnectionState : PeerConnection.

(** The engine together with what its managers act on: the native state
    of every connection (by reference), the relay socket, and the calls
    the managers have made, each with the peer of the manager. *)
Record Node : Type := {
  engine : VoiceEngine;
  transports : gmap nat PeerConnection;
  relay : Socket;
  calls : list (string * Signaling.Call);
}.

(** An engine method running inside the node. *)
Definition onEngine {A} (h : JS VoiceEngine A) : JS Node A :=
  fun n =>
    let '(res, e') := h (engine n) in
    (res, {| engine := e'; transports := transports n; relay := relay n;
             calls := calls n |}).

(** [createPeerConnection]: the engine's part, and the native connection
    that [new RTCPeerConnection] brings with it. *)
Definition createPeerConnection (peerId : string) (odileId username : option string)
    (publicKey : option JsonWebKey) (isInitiator : bool) : JS Node nat :=
  peerConnection ← onEngine
    (Engine.createPeerConnection peerId odileId username publicKey isInitiator);
  modify (fun n =>
    {| engine := engine n;
       transports := <[peerConnection := newConnectionState]> (transports n);
       relay := relay n; calls := calls n |});;
  mret peerConnection.

(** A method of the manager stored for [peer], run on the connection the
    manager was built for and on the relay socket; the manager object is
    updated in place. *)
Definition callManager (peer : string) (manager : SignalingManager)
    (method : JS Signaling.State unit) : JS Node unit :=
  fun n =>
    match transports n !! pc manager with
    | None => (Throw TypeError, n)
    | Some pcState =>
        let '(res, s') :=
          method {| Signaling.this := manager;
                    Signaling.world :=
                      {| Signaling.pcState := pcState;
                         Signaling.socketState := relay n;
                         Signaling.trace := [] |} |} in
        (res,
         {| engine := upd_signalingManagers (insert peer (Signaling.this s')) (engine n);
            transports :=
              <[pc manager := Signaling.pcState (Signaling.world s')]> (transports n);
            relay := Signaling.socketState (Signaling.world s');
            calls := calls n
                     ++ map (pair peer) (Signaling.trace (Signaling.world s')) |})
    end.

(** [fromUser] of an offer. *)
Record FromUser : Type := {
  from_id : option string;
  from_username : option string;
  from_publicKey : option JsonWebKey;
}.

(** [socket.on('offer', ..)] (lines 252-277) *)
Definition on_offer (offer : option Description) (from : option string)
    (fromUser : option FromUser) : JS Node unit :=
  try_catch
    (match offer, truthy from with
     | Some offer, Some from =>
         n ← gets id;
         manager ←
           (match signalingManagers (engine n) !! from with
            | Some manager => mret (Some manager)
            | None =>
                createPeerConnection from (fromUser ≫= from_id)
                  (fromUser ≫= from_username) (fromUser ≫= from_publicKey) false;;
                n ← gets id;
                mret (signalingManagers (engine n) !! from)
            end);
         match manager with
         | Some manager => callManager from manager (Signaling.handleOffer offer)
         | None => skip
         end
     | _, _ => skip
     end)
    (fun error => skip).

(** [socket.on('answer', ..)] (lines 280-290) *)
Definition on_answer (answer : Description) (from : option string) : JS Node unit :=
  try_catch
    (n ← gets id;
     match from ≫= (fun from => signalingManagers (engine n) !! from), from with
     | Some manager, Some from =>
         callManager from manager (Signaling.handleAnswer answer)
     | _, _ => skip
     end)
    (fun error => skip).

(** [socket.on('ice-candidate', ..)] (lines 293-303) *)
Definition on_ice_candidate (candidate : Candidate) (from : option string)
    : JS Node unit :=
  try_catch
    (n ← gets id;
     match from ≫= (fun from => signalingManagers (engine n) !! from), from with
     | Some manager, Some from =>
         callManager from manager (Signaling.handleIceCandidate candidate)
     | _, _ => skip
     end)
    (fun error => skip).

End WithCapabilities.
End Node.

(* ===================================================================== *)
(** * Local speaking detection (VoiceEngine, lines 506-537, 639-662) *)
(* ===================================================================== *)

Module Speaking.

Definition SPEAKING_HISTORY_SIZE : Z := 5.

(** The fields of the engine the detection loop uses. [analyser] tells
    whether [this.analyser] is set; [notified] lists the calls of
    [onSpeakingChange], oldest first. *)
Record Detector : Type := {
  analyser : bool;
  isConnected : bool;
  speakingHistory : list bool;
  isSpeaking : bool;
  notified : list bool;
}.

(** [Array.prototype.shift] *)
Definition shift {A} (l : list A) : list A := tail l.

(** One run of [detectSpeaking]. [loud] is
    [normalizedVolume > SPEAKING_THRESHOLD] for the frequency data read
    in this run; the result tells whether the run asked for another one
    ([requestAnimationFrame]). [SPEAKING_HISTORY_SIZE / 2] is 2.5, so
    [speakingCount >= SPEAKING_HISTORY_SIZE / 2] is
    [2 * speakingCount >= SPEAKING_HISTORY_SIZE]. *)
Definition detectSpeaking (loud : bool) (d : Detector) : Detector * bool :=
  if negb (analyser d) || negb (isConnected d) then (d, false)
  else
    let history := speakingHistory d ++ [loud] in
    let history :=
      if SPEAKING_HISTORY_SIZE <? Z.of_nat (length history) then shift history
      else history in
    let speakingCount := Z.of_nat (length (filter (fun b => b = true) history)) in
    let newSpeakingState := SPEAKING_HISTORY_SIZE <=? 2 * speakingCount in
    if negb (eqb newSpeakingState (isSpeaking d)) then
      ({| analyser := analyser d; isConnected := isConnected d;
          speakingHistory := history; isSpeaking := newSpeakingState;
          notified := notified d ++ [newSpeakingState] |}, true)
    else
      ({| analyser := analyser d; isConnected := isConnected d;
          speakingHistory := history; isSpeaking := isSpeaking d;
          notified := notified d |}, true).

(** The runs for the successive readings [louds], while each run asks
    for the next. *)
Fixpoint detectLoop (louds : list bool) (d : Detector) : Detector :=
  match louds with
  | [] => d
  | loud :: rest =>
      let '(d', again) := detectSpeaking loud d in
      if again then detectLoop rest d' else d'
  end.

(** The part of [stopAudioCapture] that concerns the detection. *)
Definition stopAudioCapture (d : Detector) : Detector :=
  {| analyser := false; isConnected := isConnected d; speakingHistory := [];
     isSpeaking := false; notified := notified d |}.

End Speaking.

(* ===================================================================== *)
(** * The capture worklet (client/public/audio-processor.js) *)
(* ===================================================================== *)

Module Worklet.
Section Samples.

(** A [Float32] sample; samples are only moved, never computed with. *)
Variable Sample : Type.
Variable zero : Sample.

(** [posted] lists the messages given to [this.port.postMessage], oldest
    first. *)
Record AudioProcessor : Type := {
  bufferSize : Z;
  buffer : list Sample;
  bytesWritten : Z;
  frameCount : Z;
  posted : list (list Sample);
}.

Definition constructor : AudioProcessor :=
  {| bufferSize := 2048; buffer := replicate 2048 zero; bytesWritten := 0;
     frameCount := 0; posted := [] |}.

(** [target.set(source, offset)]: a RangeError when the source does not
    fit. *)
Definition typedArraySet (target source : list Sample) (offset : Z)
    : outcome (list Sample) :=
  if (offset <? 0) || (Z.of_nat (length target) <? offset + Z.of_nat (length source))
  then Throw RangeError
  else Ok (take (Z.to_nat offset) target ++ source
           ++ drop (Z.to_nat offset + length source) target).

(** [process(inputs, outputs, parameters)]; an input is a list of
    channels. *)
Definition process (inputs : list (list (list Sample))) (this : AudioProcessor)
    : outcome bool * AudioProcessor :=
  let this :=
    {| bufferSize := bufferSize this; buffer := buffer this;
       bytesWritten := bytesWritten this; frameCount := frameCount this + 1;
       posted := posted this |} in
  match inputs with
  | (channel0 :: _) :: _ =>
      if 0 <? Z.of_nat (length channel0) then
        let this :=
          if bufferSize this <=? bytesWritten this + Z.of_nat (length channel0) then
            {| bufferSize := bufferSize this; buffer := buffer this;
               bytesWritten := 0; frameCount := frameCount this;
               posted := posted this
                         ++ [take (Z.to_nat (bytesWritten this)) (buffer this)] |}
          else this in
        match typedArraySet (buffer this) channel0 (bytesWritten this) with
        | Ok buffer' =>
            (Ok true,
             {| bufferSize := bufferSize this; buffer := buffer';
                bytesWritten := bytesWritten this + Z.of_nat (length channel0);
                frameCount := frameCount this; posted := posted this |})
        | Throw e => (Throw e, this)
        | OutOfFuel => (OutOfFuel, this)
        end
      else (Ok true, this)
  | _ => (Ok true, this)
  end.

(** The render quanta [quanta] (one mono input each), processed in
    order until one call throws. *)
Fixpoint processAll (quanta : list (list Sample)) (this : AudioProcessor)
    : outcome bool * AudioProcessor :=
  match quanta with
  | [] => (Ok true, this)
  | quantum :: rest =>
      match process [[quantum]] this with
      | (Ok _, this') => processAll rest this'
      | r => r
      end
  end.

End Samples.
End Worklet.

(* ===================================================================== *)
(** * Further properties used in the statements *)
(* ===================================================================== *)

Section MoreEngineProperties.
Context `{CB : CryptoBackend}.
Import Engine.

(** The public key attached to the connection stored for a peer. *)
Definition publicKeyOf (e : VoiceEngine) (peerId : string) : option JsonWebKey :=
  (peerConnections e !! peerId ≫= (fun r => connections e !! r)) ≫= pc_publicKey.

(** What a channel object may become while audio is broadcast: same
    state, the messages sent so far followed by [audio] messages only,
    and nothing at all when it was not open or was congested. *)
Definition onlyAudioAdded (obj obj' : RTCDataChannel) : Prop :=
  readyState obj' = readyState obj
  /\ handlers obj' = handlers obj
  /\ (exists msgs, sent obj' = sent obj ++ msgs
                   /\ Forall (fun m => type m = "audio") msgs)
  /\ (readyState obj <> dc_open \/ 16384 <= bufferedAmount obj -> obj' = obj).

(** The part of the engine that broadcasting audio leaves alone. *)
Definition sameLinks (e e' : VoiceEngine) : Prop :=
  peerConnections e' = peerConnections e
  /\ dataChannels e' = dataChannels e
  /\ signalingManagers e' = signalingManagers e
  /\ peerSessionKeys e' = peerSessionKeys e
  /\ secureChannels e' = secureChannels e
  /\ connections e' = connections e
  /\ uiEvents e' = uiEvents e
  /\ playback e' = playback e.

(** The socket ids of the entries of a participants list that get a
    link, in order. *)
Definition remoteSocketIds (ownSocketId : option string)
    (participants : list Room.Participant) : list string :=
  omap (Room.isRemote ownSocketId) participants.

(** The engine holds, for [socketId], a link it initiates: a connection
    that is not closed, a manager on it in the impolite role and in its
    initial state, and a data channel of its own making, still
    connecting, with the initiator's handlers. *)
Definition initiatorLink (e : VoiceEngine) (socketId : string) : Prop :=
  exists (r d : nat) (conn : RTCPeerConnection) (chan : RTCDataChannel),
    peerConnections e !! socketId = Some r
    /\ signalingManagers e !! socketId =
         Some (newSignalingManager r socketId (currentRoom e) (engineUserId e)
                 (engineUsername e) false)
    /\ connections e !! r = Some conn
    /\ pc_closeCalled conn = false
    /\ pc_ondatachannel conn = false
    /\ Map_get socketId (dataChannels e) = Some d
    /\ channels e !! d = Some chan
    /\ readyState chan = dc_connecting
    /\ sent chan = []
    /\ handlers chan = Some (socketId, true)
    /\ (r < nextRef e)%nat /\ (d < nextRef e)%nat.

End MoreEngineProperties.

Section NodeProperties.
Context `{CB : CryptoBackend} `{T : Transport}.
Import Engine.

(** A handler of a manager that always completes and keeps the
    manager's connection, peer and role. *)
Definition keepsRole (method : JS Signaling.State unit) : Prop :=
  forall s, exists s',
    method s = (Ok tt, s')
    /\ pc (Signaling.this s') = pc (Signaling.this s)
    /\ polite (Signaling.this s') = polite (Signaling.this s)
    /\ peerId (Signaling.this s') = peerId (Signaling.this s).

(** Between two states of a node, nothing of the engine changed except,
    at most, the fields of the manager stored for [from], which is still
    a manager for the same connection and peer, in the same role. *)
Definition managerUpdated (from : string) (m : SignalingManager)
    (n n' : Node.Node) : Prop :=
  exists m',
    Node.engine n' = upd_signalingManagers (insert from m') (Node.engine n)
    /\ pc m' = pc m /\ polite m' = polite m /\ peerId m' = peerId m.

End NodeProperties.

(** Each element is the negation of the one before it, the first of
    [prev]: a list of changes of a boolean that started as [prev]. *)
Fixpoint flips (prev : bool) (l : list bool) : Prop :=
  match l with
  | [] => True
  | x :: rest => x = negb prev /\ flips x rest
  end.

(** The number of loud readings in a history. *)
Definition loudCount (history : list bool) : nat :=
  length (filter (fun b => b = true) history).

Section WorkletProperties.
Variable Sample : Type.

(** The samples written to the buffer and not posted yet. *)
Definition pending (this : Worklet.AudioProcessor Sample) : list Sample :=
  take (Z.to_nat (Worklet.bytesWritten Sample this)) (Worklet.buffer Sample this).

(** A processor as the constructor makes it and [process] keeps it. *)
Definition wellFormed (this : Worklet.AudioProcessor Sample) : Prop :=
  Worklet.bufferSize Sample this = 2048
  /\ length (Worklet.buffer Sample this) = 2048%nat
  /\ 0 <= Worklet.bytesWritten Sample this <= 2048.

End WorkletProperties.

(* ===================================================================== *)
(** * A small platform on which the model runs *)
(* ===================================================================== *)

(** Stand-ins for the browser capabilities, simple enough to evaluate:
    they have the interface and the inverse laws of the real primitives
    and no secrecy. Keys are single bytes; an RSA ciphertext is the key
    byte, the seed byte and the reversed message; an AES-GCM ciphertext is
    the reversed frame and the tag is sixteen copies of the key byte. *)
Module Demo.

Definition tag_of (key : byte) : bytes := replicate 16 key.

Definition rsa_encrypt (native : bool) (pub seed : byte) (m : bytes) : option bytes :=
  if byteLength m <=? 190 then Some (pub :: seed :: rev m) else None.

Definition rsa_decrypt (native : bool) (priv : byte) (c : bytes) : option bytes :=
  match c with
  | k :: _ :: body => if Byte.eqb k priv then Some (rev body) else None
  | _ => None
  end.

Definition aes_open (key : byte) (c t : bytes) : option bytes :=
  if bool_decide (t = tag_of key) then Some (rev c) else None.

#[local] Instance backend : CryptoBackend := {|
  JsonWebKey := byte;
  PrivateKey := byte;
  CryptoKey := byte;
  Seed := byte;
  rsa_oaep_encrypt := rsa_encrypt;
  rsa_oaep_decrypt := rsa_decrypt;
  subtle_aes_gcm_encrypt := fun key nonce p => Some (rev p ++ tag_of key);
  subtle_aes_gcm_decrypt := fun key nonce c =>
    if (length c <? 16)%nat then None
    else aes_open key (take (length c - 16) c) (drop (length c - 16) c);
  forge_aes_gcm_encrypt := fun key nonce p =>
    match key with
    | [k] => Some (rev p, tag_of k)
    | _ => None
    end;
  forge_aes_gcm_decrypt := fun key nonce c t =>
    match key with
    | [k] => Some (aes_open k c t)
    | _ => None
    end;
  subtle_generateKey := fun seed => seed;
  subtle_exportKey := fun k => Some [k];
  subtle_importKey := fun raw => match raw with [k] => Some k | _ => None end;
  forge_getBytesSync32 := fun seed => [seed];
|}.

(** The session keys used below. *)
Definition nativeKey (k : byte) : SessionKey := @NativeKey backend k.

Definition rng : Csprng :=
  {| rnd_byte := fun n => byte_of_Z (Z.of_nat n);
     rnd_seed := fun n => byte_of_Z (Z.of_nat n + 100);
     rnd_pos := 0 |}.

(** A service on Web Crypto whose key pair has private key [0x2a]. *)
Definition service : CryptoService :=
  {| keyPair := Some {| publicKey := "*"%byte; privateKey := "*"%byte |};
     useNative := true |}.

(** The same on node-forge. *)
Definition forgeService : CryptoService :=
  {| keyPair := Some {| publicKey := "*"%byte; privateKey := "*"%byte |};
     useNative := false |}.

(** A peer connection that follows the offer/answer state machine and
    rejects a description whose SDP does not parse ([false]) and a
    rollback when there is nothing to roll back. *)
Inductive SdpType : Type := sdp_offer | sdp_answer | sdp_none.

Record Pc : Type := {
  pc_signalingState : SignalingState;
  pc_localDescription : SdpType * bool;
}.

#[local] Instance transport : Transport := {|
  PeerConnection := Pc;
  Socket := list string;
  Description := (SdpType * bool)%type;
  Candidate := string;
  signalingState := pc_signalingState;
  localDescription := pc_localDescription;
  pc_setLocalDescription := fun init pc =>
    match init, pc_signalingState pc with
    | Implicit, stable =>
        inr {| pc_signalingState := have_local_offer; pc_localDescription := (sdp_offer, true) |}
    | Implicit, have_remote_offer =>
        inr {| pc_signalingState := stable; pc_localDescription := (sdp_answer, true) |}
    | Rollback, have_local_offer =>
        inr {| pc_signalingState := stable; pc_localDescription := (sdp_none, true) |}
    | _, _ => inl InvalidStateError
    end;
  pc_setRemoteDescription := fun d pc =>
    match d, pc_signalingState pc with
    | (sdp_offer, true), stable =>
        inr {| pc_signalingState := have_remote_offer;
               pc_localDescription := pc_localDescription pc |}
    | (sdp_answer, true), have_local_offer =>
        inr {| pc_signalingState := stable; pc_localDescription := pc_localDescription pc |}
    | (_, false), _ => inl (Error "Failed to parse SessionDescription")
    | _, _ => inl InvalidStateError
    end;
  pc_addIceCandidate := fun c pc => inr pc;
  socket_emit := fun event payload sock => inr (sock ++ [event]);
|}.

Definition manager (polite : bool) (makingOffer : bool) : SignalingManager :=
  {| pc := 0%nat; peerId := "p2"; roomId := Some "r1"; userId := Some "u1";
     username := Some "alice"; polite := polite; makingOffer := makingOffer;
     ignoreOffer := false; isSettingRemoteAnswerPending := false |}.

Definition signalingIn (st : SignalingState) (polite makingOffer : bool) : Signaling.State :=
  {| Signaling.this := manager polite makingOffer;
     Signaling.world :=
       {| Signaling.pcState := {| pc_signalingState := st;
                                  pc_localDescription := (sdp_none, true) |};
          Signaling.socketState := [];
          Signaling.trace := [] |} |}.

(** The engine of user [u1] in room [r1], before any peer is known. *)
Definition engine0 : Engine.VoiceEngine :=
  Engine.newVoiceEngine (Some "r1") (Some "u1") (Some "alice")
    (Some Engine.running) rng.

Definition jsonLength (payload iv data : bytes) : Z :=
  40 + 4 * (byteLength payload + byteLength iv + byteLength data).

Definition aboveSpeakingThreshold (frame : bytes) : bool :=
  bool_decide (Exists (fun b => b <> "000"%byte) frame).

(** Running a handler on an engine state and keeping the state. *)
Definition exec {A} (h : JS Engine.VoiceEngine A) (e : Engine.VoiceEngine)
    : Engine.VoiceEngine := snd (h e).

Definition userEvent (socketId : string) (key : option byte) : Engine.UserEvent :=
  {| Engine.ev_userId := Some "u2"; Engine.ev_username := Some "bob";
     Engine.ev_socketId := Some socketId; Engine.ev_publicKey := key |}.

(** The platform turns a channel [open] before it fires [onopen]. *)
Definition channelOpens (dataChannel : nat) : JS Engine.VoiceEngine unit :=
  Engine.withChannel dataChannel (fun obj =>
    {| Engine.readyState := Engine.dc_open;
       Engine.bufferedAmount := Engine.bufferedAmount obj;
       Engine.sent := Engine.sent obj; Engine.handlers := Engine.handlers obj |}).

(** The engine once it has created, as initiator, the link to peer [p2]
    (connection 0, channel 1). *)
Definition engineLinked : Engine.VoiceEngine :=
  exec (Engine.createPeerConnection "p2" (Some "u2") (Some "bob") (Some "*"%byte) true)
    engine0.

(** Then the channel opened and [onopen] ran: the engine generated a
    session key, stored it and sent it; no [key-ack] has arrived. *)
Definition engineAwaitingAck : Engine.VoiceEngine :=
  exec (Engine.onopen service jsonLength 1 "p2" true)
    (exec (channelOpens 1) engineLinked).

(** A frame of one sample, and the [audio] message a peer holding the
    session key [key] makes of it. *)
Definition frame : bytes := ["001"; "002"; "003"; "004"]%byte.

Definition audioFrom (key : SessionKey) : Engine.Message :=
  match fst (encryptAudioAES service frame key rng) with
  | Ok fullBuffer => Engine.audioMessage (slice fullBuffer 0 12) (sliceFrom fullBuffer 12)
  | _ => Engine.audioMessage [] []
  end.

(** The [key] message of a peer that wraps the key [0x07] for the
    service's key pair. *)
Definition keyFromPeer : Engine.Message :=
  match fst (encryptSessionKey service (nativeKey "007"%byte) "*"%byte rng) with
  | Ok wrapped => Engine.keyMessage wrapped
  | _ => Engine.keyMessage []
  end.

End Demo.

(** More of the small platform: a back end whose RSA ciphertexts all
    have the length of the modulus, and engines and a node in the
    states the statements below start from. *)
Module DemoMore.
Import Demo.

(** As [Demo.rsa_encrypt], padded to 256 bytes. *)
Definition rsa_encrypt_padded (native : bool) (pub seed : byte) (m : bytes)
    : option bytes :=
  if byteLength m <=? 190
  then Some (pub :: seed :: rev m ++ replicate (254 - length m) "000"%byte)
  else None.

Definition paddedBackend : CryptoBackend := {|
  JsonWebKey := byte;
  PrivateKey := byte;
  CryptoKey := byte;
  Seed := byte;
  rsa_oaep_encrypt := rsa_encrypt_padded;
  rsa_oaep_decrypt := fun native priv c => None;
  subtle_aes_gcm_encrypt := fun key nonce p => None;
  subtle_aes_gcm_decrypt := fun key nonce c => None;
  forge_aes_gcm_encrypt := fun key nonce p => None;
  forge_aes_gcm_decrypt := fun key nonce c t => None;
  subtle_generateKey := fun seed => seed;
  subtle_exportKey := fun k => Some [k];
  subtle_importKey := fun raw => match raw with [k] => Some k | _ => None end;
  forge_getBytesSync32 := fun seed => [seed];
|}.

Definition paddedRng : @Csprng paddedBackend :=
  @Build_Csprng paddedBackend (fun n => byte_of_Z (Z.of_nat n))
    (fun n => byte_of_Z (Z.of_nat n + 100)) 0.

Definition paddedService : @CryptoService paddedBackend :=
  @Build_CryptoService paddedBackend None true.

(** 200 bytes: two chunks. *)
Definition twoChunks : bytes := map (fun n => byte_of_Z (Z.of_nat n)) (seq 0 200).

(** The initiator of the link to [p2] with its channel (object 1) open,
    before [onopen] runs. *)
Definition engineOpen : Engine.VoiceEngine := exec (channelOpens 1) engineLinked.

(** The other end: the engine has handled [user-joined] for [p1]
    (connection 0), the peer's data channel has arrived (object 1) and
    opened. *)
Definition engineAnswering : Engine.VoiceEngine :=
  exec (channelOpens 1)
    (exec (channel ← Engine.createDataChannel; Engine.ondatachannel "p1" channel)
       (exec (Engine.on_user_joined (userEvent "p1" (Some "*"%byte))) engine0)).

(** The initiator after the whole handshake: key sent and
    acknowledged. *)
Definition engineSecure : Engine.VoiceEngine :=
  exec (Engine.onmessage service jsonLength aboveSpeakingThreshold 1 "p2"
          (Some Engine.keyAckMessage)) engineAwaitingAck.

(** The answering end holding the initiator's session key. *)
Definition engineKeyed : Engine.VoiceEngine :=
  Engine.upd_peerSessionKeys (insert "p1" (nativeKey "d"%byte)) engineAnswering.

(** What [encryptAudioAES] makes of the frame on the secure initiator. *)
Definition sealedFrame : bytes :=
  match fst (encryptAudioAES service frame (nativeKey "d"%byte)
               (Engine.random engineSecure)) with
  | Ok sealed => sealed
  | _ => []
  end.

(** An [audio] message with a 12-byte nonce and too few bytes for a
    tag. *)
Definition forgedAudio : Engine.Message :=
  Engine.audioMessage (replicate 12 "000"%byte) ["001"; "002"]%byte.

(** The [audio] message a peer holding the key [0x64] makes of a frame
    of no samples. *)
Definition emptyAudio : Engine.Message :=
  match fst (encryptAudioAES service [] (nativeKey "d"%byte) rng) with
  | Ok sealed =>
      {| Engine.type := "audio"; Engine.payload := [];
         Engine.iv := slice sealed 0 12; Engine.data := sliceFrom sealed 12 |}
  | _ => Engine.audioMessage [] []
  end.

(** A new connection, and a node that knows no peer. *)
Definition newPc : Pc :=
  {| pc_signalingState := stable; pc_localDescription := (sdp_none, true) |}.

Definition node0 : @Node.Node backend transport :=
  @Node.Build_Node backend transport engine0 ∅ [] [].

(** A detector that has just been started, and seven readings. *)
Definition detector0 : Speaking.Detector :=
  {| Speaking.analyser := true; Speaking.isConnected := true;
     Speaking.speakingHistory := []; Speaking.isSpeaking := false;
     Speaking.notified := [] |}.

Definition readings : list bool := [true; false; true; true; false; false; false].

End DemoMore.

(* ===================================================================== *)
(** * Facts about bytes, slices and length prefixes *)
(* ===================================================================== *)


Lemma Z_of_byte_range (b : byte) : 0 <= Z_of_byte b < 256.
Proof.
  unfold Z_of_byte. pose proof (Byte.to_N_bounded b). lia.
Qed.

Lemma Z_of_byte_of_Z (z : Z) : Z_of_byte (byte_of_Z z) = z mod 256.
Proof.
  unfold Z_of_byte, byte_of_Z.
  change 255 with (Z.ones 8). rewrite Z.land_ones by lia.
  change (2 ^ 8) with 256.
  assert (Hr : 0 <= z mod 256 < 256) by (apply Z.mod_pos_bound; lia).
  destruct (Byte.of_N (Z.to_N (z mod 256))) as [b|] eqn:E; simpl.
  - apply Byte.to_of_N in E. rewrite E. lia.
  - apply Byte.of_N_None_iff in E. lia.
Qed.

Lemma le32_setUint32_le (n : Z) :
  0 <= n < 2 ^ 32 ->
  exists b0 b1 b2 b3, setUint32_le n = [b0; b1; b2; b3] /\ le32 b0 b1 b2 b3 = n.
Proof.
  intros Hn. unfold setUint32_le. do 4 eexists. split; [reflexivity|].
  unfold le32. rewrite !Z_of_byte_of_Z.
  rewrite Z.land_ones by lia. rewrite !Z.shiftr_div_pow2 by lia.
  rewrite (Z.mod_small n) by lia.
  change (2 ^ 8) with 256. change (2 ^ 16) with 65536. change (2 ^ 24) with 16777216.
  change (2 ^ 32) with 4294967296 in Hn.
  Z.div_mod_to_equations. lia.
Qed.

Lemma getUint32_le_at (pre : bytes) (b0 b1 b2 b3 : byte) (rest : bytes) :
  getUint32_le (pre ++ b0 :: b1 :: b2 :: b3 :: rest) (byteLength pre)
  = Ok (le32 b0 b1 b2 b3).
Proof.
  unfold getUint32_le, byteLength.
  rewrite length_app. simpl length.
  destruct (Z.ltb_spec (Z.of_nat (length pre)) 0); [lia|].
  destruct (Z.ltb_spec (Z.of_nat (length pre + S (S (S (S (length rest))))))
              (Z.of_nat (length pre) + 4)); [lia|].
  simpl orb. cbv iota.
  rewrite Nat2Z.id, drop_app_length.
  unfold le32. rewrite !Z.shiftl_mul_pow2 by lia. f_equal. lia.
Qed.


Lemma relativeIndex_in (len z : Z) : 0 <= z <= len -> relativeIndex len z = z.
Proof. intros H. unfold relativeIndex. destruct (Z.ltb_spec z 0); lia. Qed.

Lemma slice_in_range (a : bytes) (i j : Z) :
  0 <= i <= j -> j <= byteLength a ->
  slice a i j = take (Z.to_nat (j - i)) (drop (Z.to_nat i) a).
Proof.
  intros Hi Hj. unfold slice. rewrite !relativeIndex_in by lia. reflexivity.
Qed.

Lemma slice_app_middle (pre c rest : bytes) :
  slice (pre ++ c ++ rest) (byteLength pre) (byteLength pre + byteLength c) = c.
Proof.
  rewrite slice_in_range.
  - unfold byteLength. rewrite Nat2Z.id, drop_app_length.
    replace (Z.to_nat (_ + _ - _)) with (length c) by lia.
    apply take_app_length.
  - unfold byteLength. lia.
  - unfold byteLength. rewrite !length_app. lia.
Qed.

Lemma slice_chunk (a : bytes) (i : Z) :
  0 <= i < byteLength a ->
  slice a i (i + MAX_CHUNK_SIZE) ++ drop (Z.to_nat (i + MAX_CHUNK_SIZE)) a
    = drop (Z.to_nat i) a
  /\ 0 < byteLength (slice a i (i + MAX_CHUNK_SIZE)) <= MAX_CHUNK_SIZE.
Proof.
  intros Hi. unfold slice, MAX_CHUNK_SIZE, byteLength in *.
  rewrite (relativeIndex_in _ i) by lia.
  unfold relativeIndex. destruct (Z.ltb_spec (i + 190) 0); [lia|].
  replace (Z.to_nat (i + 190)) with (Z.to_nat i + 190)%nat by lia.
  rewrite <- drop_drop. rewrite length_take, length_drop.
  destruct (Z.min_spec (i + 190) (Z.of_nat (length a))) as [[? ->]|[? ->]].
  - replace (Z.to_nat (i + 190 - i)) with 190%nat by lia.
    rewrite take_drop. split; [reflexivity | lia].
  - rewrite (drop_ge (drop _ _)) by (rewrite length_drop; lia).
    rewrite app_nil_r. split; [| lia].
    apply take_ge. rewrite length_drop. lia.
Qed.

Lemma splitChunks_spec (fuel : nat) (a : bytes) (i : Z) (acc : list bytes) :
  0 <= i -> byteLength a - i <= Z.of_nat fuel ->
  exists cs, splitChunks fuel a i acc = Ok (acc ++ cs)
             /\ concat cs = drop (Z.to_nat i) a
             /\ Forall (fun c => 0 < byteLength c <= MAX_CHUNK_SIZE) cs.
Proof.
  revert i acc. induction fuel as [|fuel IH]; intros i acc Hi Hfuel.
  - exists []. simpl. destruct (Z.ltb_spec i (byteLength a)); [lia|].
    rewrite app_nil_r. split; [reflexivity|]. split; [|constructor].
    symmetry. apply drop_ge. unfold byteLength in *. lia.
  - simpl. destruct (Z.ltb_spec i (byteLength a)) as [Hlt|Hge].
    + destruct (slice_chunk a i) as [Hcat Hlen]; [lia|].
      destruct (IH (i + MAX_CHUNK_SIZE) (acc ++ [slice a i (i + MAX_CHUNK_SIZE)]))
        as (cs & Hrun & Hcs & Hall); [unfold MAX_CHUNK_SIZE; lia | unfold MAX_CHUNK_SIZE; lia|].
      exists (slice a i (i + MAX_CHUNK_SIZE) :: cs).
      rewrite Hrun, <- app_assoc. split; [reflexivity|]. split.
      * simpl. rewrite Hcs. exact Hcat.
      * constructor; assumption.
    + exists []. rewrite app_nil_r. split; [reflexivity|]. split; [|constructor].
      symmetry. apply drop_ge. unfold byteLength in *. lia.
Qed.

Lemma frame_cons (c : bytes) (cs : list bytes) :
  flattenArrays (lengthPrefixed (c :: cs))
  = setUint32_le (byteLength c) ++ c ++ flattenArrays (lengthPrefixed cs).
Proof. unfold flattenArrays, lengthPrefixed. simpl. reflexivity. Qed.

Lemma frame_concat_map (cs : list bytes) :
  flattenArrays (lengthPrefixed cs)
  = concat (map (fun c => setUint32_le (byteLength c) ++ c) cs).
Proof.
  induction cs as [|c cs IH]; [reflexivity|].
  rewrite frame_cons, IH. cbn [map concat]. rewrite <- app_assoc. reflexivity.
Qed.

(* ===================================================================== *)
(** * The chunk stream: parsing *)
(* ===================================================================== *)

(** Parsing the frames of [cs] that follow a prefix [pre] returns [cs]. *)
Lemma parseChunks_frames (cs : list bytes) :
  forall (pre : bytes) (fuel : nat) (acc : list bytes) (reads : list (Z * Z)),
    Forall (fun c => byteLength c < 2 ^ 32) cs ->
    (length cs <= fuel)%nat ->
    fst (parseChunks fuel (pre ++ flattenArrays (lengthPrefixed cs))
           (byteLength pre) acc reads)
    = Ok (acc ++ cs).
Proof.
  induction cs as [|c cs IH]; intros pre fuel acc reads Hall Hfuel.
  - cbn [lengthPrefixed flat_map flattenArrays concat]. rewrite !app_nil_r.
    destruct fuel; simpl; rewrite Z.ltb_irrefl; reflexivity.
  - inversion Hall as [|? ? Hc Hcs]; subst.
    destruct fuel as [|fuel]; [simpl in Hfuel; lia|].
    rewrite frame_cons.
    destruct (le32_setUint32_le (byteLength c)) as (b0 & b1 & b2 & b3 & Hhdr & Hle).
    { unfold byteLength in *. lia. }
    rewrite Hhdr.
    set (rest := flattenArrays (lengthPrefixed cs)).
    assert (Hlen : byteLength (pre ++ [b0; b1; b2; b3] ++ c ++ rest)
                   = byteLength pre + 4 + byteLength c + byteLength rest).
    { unfold byteLength. rewrite !length_app. simpl length. lia. }
    cbn [parseChunks]. rewrite Hlen.
    destruct (Z.ltb_spec (byteLength pre)
                (byteLength pre + 4 + byteLength c + byteLength rest)) as [_|Hbad];
      [|unfold byteLength in Hbad; lia].
    destruct (Z.ltb_spec (byteLength pre + 4 + byteLength c + byteLength rest)
                (byteLength pre + 4)) as [Hbad|_];
      [unfold byteLength in Hbad; lia|].
    change ([b0; b1; b2; b3] ++ c ++ rest) with (b0 :: b1 :: b2 :: b3 :: c ++ rest).
    rewrite getUint32_le_at, Hle.
    destruct (Z.ltb_spec (byteLength pre + 4 + byteLength c + byteLength rest)
                (byteLength pre + 4 + byteLength c)) as [Hbad|_];
      [unfold byteLength in Hbad; lia|].
    assert (Hpre : byteLength pre + 4 = byteLength (pre ++ [b0; b1; b2; b3])).
    { unfold byteLength. rewrite length_app. simpl. lia. }
    assert (Hbuf : pre ++ b0 :: b1 :: b2 :: b3 :: c ++ rest
                   = (pre ++ [b0; b1; b2; b3]) ++ c ++ rest).
    { rewrite <- app_assoc. reflexivity. }
    rewrite Hbuf, Hpre, slice_app_middle.
    assert (Hpre' : byteLength (pre ++ [b0; b1; b2; b3]) + byteLength c
                    = byteLength ((pre ++ [b0; b1; b2; b3]) ++ c)).
    { unfold byteLength. rewrite !length_app. lia. }
    rewrite Hpre'. rewrite (app_assoc _ c rest).
    rewrite IH; [|assumption|simpl in Hfuel; lia].
    rewrite <- app_assoc. reflexivity.
Qed.

(* ===================================================================== *)
(** * Key wrapping: [encryptAudio] and [decryptAudio] *)
(* ===================================================================== *)

Section KeyWrapping.
Context `{CB : CryptoBackend}.

Lemma frame_length (cs : list bytes) :
  (length cs <= length (flattenArrays (lengthPrefixed cs)))%nat.
Proof.
  induction cs as [|c cs IH]; [simpl; lia|].
  rewrite frame_cons. rewrite !length_app. simpl length. lia.
Qed.

(** Under a matching key pair every chunk is encrypted, on its own, to a
    ciphertext the private key opens. *)
Lemma encryptChunks_matching (encNative decNative : bool) (pub : JsonWebKey)
    (priv : PrivateKey) (chunks : list bytes) :
  MatchingKeyPair encNative decNative pub priv ->
  Forall (fun c => 0 < byteLength c <= MAX_CHUNK_SIZE) chunks ->
  forall r, exists es r',
    encryptChunks encNative pub chunks r = (Ok es, r')
    /\ Forall2 (fun m e =>
         (exists seed, rsa_oaep_encrypt encNative pub seed m = Some e)
         /\ byteLength e < 2 ^ 32
         /\ rsa_oaep_decrypt decNative priv e = Some m) chunks es.
Proof.
  intros Hpair Hall. induction Hall as [|m chunks Hm _ IH]; intros r.
  - exists [], r. split; [reflexivity | constructor].
  - destruct (Hpair (rnd_seed r (rnd_pos r)) m) as (c & Henc & Hlen & Hdec); [lia|].
    destruct (IH (advance 1 r)) as (es & r' & Hrun & Hes).
    exists (c :: es), r'. cbn [encryptChunks drawSeed].
    rewrite Henc, Hrun. split; [reflexivity|].
    constructor; [|assumption]. split; [eauto|]. split; assumption.
Qed.

Lemma decryptChunks_inverse (native : bool) (priv : PrivateKey)
    (chunks es : list bytes) :
  Forall2 (fun m e => rsa_oaep_decrypt native priv e = Some m) chunks es ->
  decryptChunks native priv es = Ok chunks.
Proof.
  induction 1 as [|m e chunks es Hdec _ IH]; [reflexivity|].
  cbn [decryptChunks]. rewrite Hdec, IH. reflexivity.
Qed.

(** The loops of both directions end within the fuel they are given. *)
Lemma encryptChunks_terminates (native : bool) (pub : JsonWebKey)
    (chunks : list bytes) (r : Csprng) :
  fst (encryptChunks native pub chunks r) <> OutOfFuel.
Proof.
  revert r. induction chunks as [|chunk rest IH]; intros r; cbn [encryptChunks].
  - discriminate.
  - cbn [drawSeed]. destruct (rsa_oaep_encrypt _ _ _ _); [|discriminate].
    specialize (IH (advance 1 r)).
    destruct (encryptChunks native pub rest (advance 1 r)) as [[es|e|] r'];
      cbn in *; congruence.
Qed.

Lemma encryptAudio_terminates (this : CryptoService) (audioData : bytes)
    (pub : JsonWebKey) (r : Csprng) :
  fst (encryptAudio this audioData pub r) <> OutOfFuel.
Proof.
  unfold encryptAudio.
  destruct (splitChunks_spec (length audioData) audioData 0 [])
    as (chunks & -> & _); [lia | unfold byteLength; lia |].
  cbn [app].
  destruct (useNative this).
  - pose proof (encryptChunks_terminates true pub chunks r) as H.
    destruct (encryptChunks true pub chunks r) as [[es|e|] r']; cbn in *; congruence.
  - pose proof (encryptChunks_terminates false pub chunks r) as H.
    destruct (encryptChunks false pub chunks r) as [[es|e|] r']; cbn in *; congruence.
Qed.

Lemma decryptChunks_terminates (native : bool) (priv : PrivateKey)
    (chunks : list bytes) :
  decryptChunks native priv chunks <> OutOfFuel.
Proof.
  induction chunks as [|chunk rest IH]; cbn [decryptChunks]; [discriminate|].
  destruct (rsa_oaep_decrypt native priv chunk); cbn; [|discriminate].
  destruct (decryptChunks native priv rest); cbn in *; congruence.
Qed.

(** C3. For every key [k], every matching RSA-OAEP pair ([pub] at the
    sender [tx], [priv] in the key pair of the receiver [rx]) and every
    state of the random generator: [encryptAudio] returns a payload
    [wrapped], and [decryptAudio] of [wrapped] returns [k], byte for
    byte. The payload is built from the chunks of [k] (at most 190 bytes
    each, none empty, in order), each encrypted on its own, each
    ciphertext behind its own length as 4 little-endian bytes. *)
Theorem unwrapKey_wrapKey_roundtrip (tx rx : CryptoService) (kp : KeyPair)
    (pub : JsonWebKey) (k : bytes) (r : Csprng) :
  keyPair rx = Some kp ->
  MatchingKeyPair (useNative tx) (useNative rx) pub (privateKey kp) ->
  exists (wrapped : bytes) (r' : Csprng) (chunks encryptedChunks : list bytes),
    encryptAudio tx k pub r = (Ok wrapped, r')
    /\ decryptAudio rx wrapped = Ok k
    /\ concat chunks = k
    /\ Forall (fun c => 0 < byteLength c <= 190) chunks
    /\ Forall2 (fun m e => exists seed,
                  rsa_oaep_encrypt (useNative tx) pub seed m = Some e)
         chunks encryptedChunks
    /\ wrapped = concat (map (fun e => setUint32_le (byteLength e) ++ e)
                           encryptedChunks).
Proof.
  intros Hkp Hpair.
  destruct (splitChunks_spec (length k) k 0 []) as (chunks & Hsplit & Hcat & Hsz);
    [lia | unfold byteLength; lia |].
  simpl in Hsplit, Hcat.
  destruct (encryptChunks_matching _ _ _ _ chunks Hpair Hsz r)
    as (es & r' & Henc & Hes).
  exists (flattenArrays (lengthPrefixed es)), r', chunks, es.
  assert (Hwrap : encryptAudio tx k pub r = (Ok (flattenArrays (lengthPrefixed es)), r')).
  { unfold encryptAudio. rewrite Hsplit.
    destruct (useNative tx); rewrite Henc; reflexivity. }
  assert (Hparse : fst (parseChunks (length (flattenArrays (lengthPrefixed es)))
                          (flattenArrays (lengthPrefixed es)) 0 [] []) = Ok es).
  { apply (parseChunks_frames es [] _ [] []).
    - eapply Forall2_Forall_r; [exact Hes|].
      apply Forall_forall. intros m _ e (_ & Hlen & _). exact Hlen.
    - apply frame_length. }
  assert (Hdec : decryptChunks (useNative rx) (privateKey kp) es = Ok chunks).
  { apply decryptChunks_inverse.
    eapply Forall2_impl; [exact Hes|]. intros m e (_ & _ & Hd). exact Hd. }
  split; [exact Hwrap|]. split.
  { unfold decryptAudio. rewrite Hkp, Hparse. cbn [mbind outcome_bind].
    destruct (useNative rx); rewrite Hdec; cbn; unfold flattenArrays;
      rewrite Hcat; reflexivity. }
  split; [exact Hcat|]. split; [exact Hsz|]. split.
  - eapply Forall2_impl; [exact Hes|]. intros m e (Hs & _). exact Hs.
  - apply frame_concat_map.
Qed.

End KeyWrapping.

(* ===================================================================== *)
(** * Malformed payloads *)
(* ===================================================================== *)

Lemma le32_range (b0 b1 b2 b3 : byte) : 0 <= le32 b0 b1 b2 b3 < 2 ^ 32.
Proof.
  unfold le32.
  pose proof (Z_of_byte_range b0). pose proof (Z_of_byte_range b1).
  pose proof (Z_of_byte_range b2). pose proof (Z_of_byte_range b3).
  change (2 ^ 32) with 4294967296. lia.
Qed.

(** Inside the buffer the [DataView] read succeeds. *)
Lemma getUint32_le_inside (buffer : bytes) (offset : Z) :
  0 <= offset -> offset + 4 <= byteLength buffer ->
  exists n, getUint32_le buffer offset = Ok n /\ 0 <= n < 2 ^ 32.
Proof.
  intros Ho Hlen.
  assert (Hsplit : buffer = take (Z.to_nat offset) buffer ++ drop (Z.to_nat offset) buffer)
    by (symmetry; apply take_drop).
  assert (Hpre : byteLength (take (Z.to_nat offset) buffer) = offset).
  { unfold byteLength in *. rewrite length_take. lia. }
  assert (Hrest : (4 <= length (drop (Z.to_nat offset) buffer))%nat).
  { rewrite length_drop. unfold byteLength in *. lia. }
  destruct (drop (Z.to_nat offset) buffer) as [|b0 [|b1 [|b2 [|b3 rest]]]];
    simpl in Hrest; try lia.
  exists (le32 b0 b1 b2 b3). split; [|apply le32_range].
  rewrite Hsplit, <- Hpre at 1. rewrite Hpre. rewrite <- Hpre at 2.
  apply getUint32_le_at.
Qed.

(** Every range the loop asks for lies inside the buffer. *)
Lemma parseChunks_reads_inBounds (fuel : nat) (encryptedBytes : bytes) :
  forall (offset : Z) (chunks : list bytes) (reads : list (Z * Z)),
    0 <= offset ->
    Forall (inBounds (byteLength encryptedBytes)) reads ->
    Forall (inBounds (byteLength encryptedBytes))
      (snd (parseChunks fuel encryptedBytes offset chunks reads)).
Proof.
  induction fuel as [|fuel IH]; intros offset chunks reads Ho Hreads; simpl.
  - destruct (offset <? byteLength encryptedBytes); assumption.
  - destruct (offset <? byteLength encryptedBytes); [|assumption].
    destruct (Z.ltb_spec (byteLength encryptedBytes) (offset + 4)) as [|Hfour];
      [assumption|].
    assert (Hreads' : Forall (inBounds (byteLength encryptedBytes))
                        (reads ++ [(offset, offset + 4)])).
    { apply Forall_app. split; [assumption|].
      constructor; [|constructor]. unfold inBounds; simpl. lia. }
    destruct (getUint32_le_inside encryptedBytes offset) as (n & -> & Hn); [lia..|].
    destruct (Z.ltb_spec (byteLength encryptedBytes) (offset + 4 + n)) as [|Hchunk];
      [assumption|].
    apply IH; [lia|].
    apply Forall_app. split; [assumption|].
    constructor; [|constructor]. unfold inBounds; simpl. lia.
Qed.

(** The loop ends within [length encryptedBytes] turns. *)
Lemma parseChunks_terminates (fuel : nat) (encryptedBytes : bytes) :
  forall (offset : Z) (chunks : list bytes) (reads : list (Z * Z)),
    0 <= offset ->
    byteLength encryptedBytes - offset <= Z.of_nat fuel ->
    fst (parseChunks fuel encryptedBytes offset chunks reads) <> OutOfFuel
    /\ fst (parseChunks fuel encryptedBytes offset chunks reads) <> Throw RangeError.
Proof.
  induction fuel as [|fuel IH]; intros offset chunks reads Ho Hfuel; simpl.
  - destruct (Z.ltb_spec offset (byteLength encryptedBytes)); [lia|].
    split; discriminate.
  - destruct (Z.ltb_spec offset (byteLength encryptedBytes)); [|split; discriminate].
    destruct (Z.ltb_spec (byteLength encryptedBytes) (offset + 4)) as [|Hfour];
      [split; discriminate|].
    destruct (getUint32_le_inside encryptedBytes offset) as (n & -> & Hn); [lia..|].
    destruct (Z.ltb_spec (byteLength encryptedBytes) (offset + 4 + n)) as [|Hchunk];
      [split; discriminate|].
    apply IH; lia.
Qed.

(** On a malformed stream that follows a prefix [pre] the loop throws one
    of its two errors. *)
Lemma parseChunks_malformed (b : bytes) :
  Malformed b ->
  forall (pre : bytes) (fuel : nat) (acc : list bytes) (reads : list (Z * Z)),
    (length b <= fuel)%nat ->
    fst (parseChunks fuel (pre ++ b) (byteLength pre) acc reads)
      = Throw (Error "Invalid encrypted data format")
    \/ fst (parseChunks fuel (pre ++ b) (byteLength pre) acc reads)
      = Throw (Error "Invalid chunk length").
Proof.
  induction 1 as [b Hb | b0 b1 b2 b3 rest Hlong | b0 b1 b2 b3 chunk rest Hle _ IH];
    intros pre fuel acc reads Hfuel.
  - destruct fuel as [|fuel]; [lia|]. left. simpl.
    assert (Hlen : byteLength (pre ++ b) = byteLength pre + byteLength b)
      by (unfold byteLength; rewrite length_app; lia).
    rewrite Hlen.
    destruct (Z.ltb_spec (byteLength pre) (byteLength pre + byteLength b));
      [|unfold byteLength in *; lia].
    destruct (Z.ltb_spec (byteLength pre + byteLength b) (byteLength pre + 4));
      [reflexivity | unfold byteLength in *; lia].
  - destruct fuel as [|fuel]; [simpl in Hfuel; lia|]. right.
    cbn [parseChunks].
    assert (Hlen : byteLength (pre ++ b0 :: b1 :: b2 :: b3 :: rest)
                   = byteLength pre + 4 + byteLength rest).
    { unfold byteLength. rewrite length_app. simpl length. lia. }
    rewrite Hlen, getUint32_le_at.
    destruct (Z.ltb_spec (byteLength pre) (byteLength pre + 4 + byteLength rest));
      [|unfold byteLength in *; lia].
    destruct (Z.ltb_spec (byteLength pre + 4 + byteLength rest) (byteLength pre + 4));
      [unfold byteLength in *; lia|].
    destruct (Z.ltb_spec (byteLength pre + 4 + byteLength rest)
                (byteLength pre + 4 + le32 b0 b1 b2 b3));
      [reflexivity | lia].
  - destruct fuel as [|fuel]; [simpl in Hfuel; lia|].
    cbn [parseChunks].
    assert (Hlen : byteLength (pre ++ b0 :: b1 :: b2 :: b3 :: chunk ++ rest)
                   = byteLength pre + 4 + byteLength chunk + byteLength rest).
    { unfold byteLength. rewrite length_app. simpl length. rewrite length_app. lia. }
    rewrite Hlen, getUint32_le_at, Hle.
    destruct (Z.ltb_spec (byteLength pre)
                (byteLength pre + 4 + byteLength chunk + byteLength rest));
      [|unfold byteLength in *; lia].
    destruct (Z.ltb_spec (byteLength pre + 4 + byteLength chunk + byteLength rest)
                (byteLength pre + 4));
      [unfold byteLength in *; lia|].
    destruct (Z.ltb_spec (byteLength pre + 4 + byteLength chunk + byteLength rest)
                (byteLength pre + 4 + byteLength chunk));
      [unfold byteLength in *; lia|].
    assert (Hbuf : pre ++ b0 :: b1 :: b2 :: b3 :: chunk ++ rest
                   = ((pre ++ [b0; b1; b2; b3]) ++ chunk) ++ rest).
    { rewrite <- !app_assoc. reflexivity. }
    assert (Hoff : byteLength pre + 4 + byteLength chunk
                   = byteLength ((pre ++ [b0; b1; b2; b3]) ++ chunk)).
    { unfold byteLength. rewrite !length_app. simpl length. lia. }
    rewrite Hbuf, Hoff. apply IH.
    simpl in Hfuel. rewrite length_app in Hfuel. lia.
Qed.

Section MalformedPayload.
Context `{CB : CryptoBackend}.

(** [decryptAudio] returns or throws on every input, and what it throws
    is never the RangeError of an out-of-bounds [DataView]. *)
Lemma decryptAudio_terminates (this : CryptoService) (encryptedData : bytes) :
  decryptAudio this encryptedData <> OutOfFuel
  /\ decryptAudio this encryptedData <> Throw RangeError.
Proof.
  unfold decryptAudio. destruct (keyPair this) as [kp|]; [|split; discriminate].
  destruct (parseChunks_terminates (length encryptedData) encryptedData 0 [] [])
    as [Hfuel Hrange]; [lia | unfold byteLength; lia |].
  destruct (fst (parseChunks (length encryptedData) encryptedData 0 [] []))
    as [chunks|e|]; cbn; [| split; congruence | congruence].
  destruct (useNative this).
  - pose proof (decryptChunks_terminates true (privateKey kp) chunks) as H.
    assert (Hr : decryptChunks true (privateKey kp) chunks <> Throw RangeError).
    { clear. induction chunks as [|c cs IH]; cbn [decryptChunks]; [discriminate|].
      destruct (rsa_oaep_decrypt true (privateKey kp) c); cbn; [|discriminate].
      destruct (decryptChunks true (privateKey kp) cs); cbn in *; congruence. }
    destruct (decryptChunks true (privateKey kp) chunks); cbn in *; split; congruence.
  - pose proof (decryptChunks_terminates false (privateKey kp) chunks) as H.
    assert (Hr : decryptChunks false (privateKey kp) chunks <> Throw RangeError).
    { clear. induction chunks as [|c cs IH]; cbn [decryptChunks]; [discriminate|].
      destruct (rsa_oaep_decrypt false (privateKey kp) c); cbn; [|discriminate].
      destruct (decryptChunks false (privateKey kp) cs); cbn in *; congruence. }
    destruct (decryptChunks false (privateKey kp) chunks); cbn in *; split; congruence.
Qed.

(** C4. On every payload in which some declared chunk length passes the
    end of the buffer, or fewer than 4 bytes remain for a length prefix,
    [decryptAudio] (with a private key at hand) throws one of its two
    format errors; and every byte range its loop asks the buffer for,
    the 4-byte views and the chunk slices, lies inside the buffer. *)
Theorem unwrapKey_rejects_malformed (this : CryptoService) (kp : KeyPair)
    (payload : bytes) :
  keyPair this = Some kp ->
  Malformed payload ->
  (decryptAudio this payload = Throw (Error "Invalid encrypted data format")
   \/ decryptAudio this payload = Throw (Error "Invalid chunk length"))
  /\ Forall (inBounds (byteLength payload))
       (snd (parseChunks (length payload) payload 0 [] [])).
Proof.
  intros Hkp Hbad. split.
  - unfold decryptAudio. rewrite Hkp.
    pose proof (parseChunks_malformed payload Hbad [] (length payload) [] []
                  (Nat.le_refl _)) as H.
    change ([] ++ payload) with payload in H. change (byteLength []) with 0 in H.
    destruct H as [H|H]; rewrite H; [left | right]; reflexivity.
  - apply parseChunks_reads_inBounds; [lia | constructor].
Qed.

End MalformedPayload.

(* ===================================================================== *)
(** * Audio frames: [encryptAudioAES] and [decryptAudioAES] *)
(* ===================================================================== *)

Lemma slice_prefix (nonce body : bytes) :
  slice (nonce ++ body) 0 (byteLength nonce) = nonce.
Proof.
  change 0 with (byteLength []) at 1.
  change (nonce ++ body) with ([] ++ nonce ++ body).
  change (byteLength nonce) with (byteLength [] + byteLength nonce).
  apply slice_app_middle.
Qed.

Lemma sliceFrom_suffix (nonce body : bytes) :
  sliceFrom (nonce ++ body) (byteLength nonce) = body.
Proof.
  unfold sliceFrom.
  replace (byteLength (nonce ++ body)) with (byteLength nonce + byteLength body)
    by (unfold byteLength; rewrite length_app; lia).
  rewrite <- (app_nil_r body) at 1. rewrite slice_app_middle. reflexivity.
Qed.

Lemma getRandomValues_length `{CB : CryptoBackend} (n : nat) (r : Csprng) :
  length (fst (getRandomValues n r)) = n.
Proof. unfold getRandomValues. simpl. rewrite length_map, length_seq. reflexivity. Qed.

Section AudioFrames.
Context `{CB : CryptoBackend}.

(** C5. For every AES-GCM session key [k] of the service, every frame
    [p] and every state of the random generator: [encryptAudioAES]
    returns [nonce ++ ciphertext ++ tag], where [nonce] is the next 12
    bytes of the generator (which moves past them), [(ciphertext, tag)]
    is what the AEAD primitive returns for [p] under that nonce and
    [tag] has 16 bytes; [decryptAudioAES] takes the first 12 bytes as the
    nonce and the rest as ciphertext with tag, and returns [p]. *)
Theorem decrypt_encrypt_roundtrip (this : CryptoService) (k : SessionKey)
    (p : bytes) (r : Csprng) :
  AesGcmKey this k ->
  exists (nonce ciphertext tag : bytes) (r' : Csprng),
    encryptAudioAES this p k r = (Ok (nonce ++ ciphertext ++ tag), r')
    /\ nonce = map (rnd_byte r) (seq (rnd_pos r) 12)
    /\ length nonce = 12%nat
    /\ rnd_pos r' = (rnd_pos r + 12)%nat
    /\ aeadSeal k nonce p = Some (ciphertext, tag)
    /\ length tag = 16%nat
    /\ slice (nonce ++ ciphertext ++ tag) 0 12 = nonce
    /\ sliceFrom (nonce ++ ciphertext ++ tag) 12 = ciphertext ++ tag
    /\ decryptAudioAES this (nonce ++ ciphertext ++ tag) k = Ok p.
Proof.
  intros Hk.
  set (nonce := map (rnd_byte r) (seq (rnd_pos r) 12)).
  assert (Hn : length nonce = 12%nat)
    by (unfold nonce; rewrite length_map, length_seq; reflexivity).
  assert (Hn' : byteLength nonce = 12) by (unfold byteLength; lia).
  destruct k as [key | key]; destruct Hk as [Hnat Hseal].
  - destruct (Hseal nonce p Hn) as (c & Henc & Hlen & Hdec).
    exists nonce, (take (length c - 16) c), (drop (length c - 16) c), (advance 12 r).
    rewrite take_drop.
    assert (H0 : slice (nonce ++ c) 0 12 = nonce)
      by (rewrite <- Hn'; apply slice_prefix).
    assert (H1 : sliceFrom (nonce ++ c) 12 = c)
      by (rewrite <- Hn'; apply sliceFrom_suffix).
    repeat split; try assumption; try reflexivity.
    + unfold encryptAudioAES. rewrite Hnat. cbn [getRandomValues].
      fold nonce. rewrite Henc. reflexivity.
    + unfold aeadSeal. rewrite Henc. reflexivity.
    + rewrite length_drop. lia.
    + unfold decryptAudioAES. rewrite Hnat, H0, H1, Hdec. reflexivity.
  - destruct (Hseal nonce p Hn) as (c & t & Henc & Hlen & Hdec).
    exists nonce, c, t, (advance 12 r).
    assert (H0 : slice (nonce ++ c ++ t) 0 12 = nonce)
      by (rewrite <- Hn'; apply slice_prefix).
    assert (H1 : sliceFrom (nonce ++ c ++ t) 12 = c ++ t)
      by (rewrite <- Hn'; apply sliceFrom_suffix).
    assert (Hlen' : byteLength (nonce ++ c ++ t) - 16 = byteLength nonce + byteLength c).
    { unfold byteLength. rewrite !length_app. lia. }
    assert (H2 : slice (nonce ++ c ++ t) 12 (byteLength (nonce ++ c ++ t) - 16) = c).
    { rewrite Hlen', <- Hn'. apply slice_app_middle. }
    assert (H3 : sliceFrom (nonce ++ c ++ t) (byteLength (nonce ++ c ++ t) - 16) = t).
    { rewrite Hlen'.
      replace (byteLength nonce + byteLength c) with (byteLength (nonce ++ c))
        by (unfold byteLength; rewrite length_app; lia).
      rewrite app_assoc. apply sliceFrom_suffix. }
    repeat split; try assumption; try reflexivity.
    + unfold encryptAudioAES. rewrite Hnat. cbn [getRandomValues].
      fold nonce. rewrite Henc. reflexivity.
    + unfold decryptAudioAES. rewrite Hnat. cbv zeta.
      rewrite H0, H2, H3, Hdec. reflexivity.
Qed.

End AudioFrames.

(* ===================================================================== *)
(** * Negotiation: [onnegotiationneeded] and [handleOffer] *)
(* ===================================================================== *)

Section Negotiation.
Context `{T : Transport}.
Import Signaling.

Ltac run_handler :=
  repeat first
    [ progress cbn beta iota zeta delta
        [fst snd this world pcState socketState trace makingOffer ignoreOffer polite
         peerId roomId userId username isSettingRemoteAnswerPending pc negb andb orb] in *
    | progress unfold mbind, mret, JS_bind, JS_ret, try_catch_finally, try_finally,
        try_catch, gets, modify, skip,
        set_makingOffer, set_ignoreOffer, set_isSettingRemoteAnswerPending,
        setLocalDescription, setRemoteDescription, addIceCandidate, callPc, emit,
        localDescriptionPayload, id in * ].

(** Two results of the same call are the same result. *)
Ltac same_call :=
  repeat match goal with
    | H : inr ?a = inr ?b |- _ => injection H as H; first [subst b | subst a]
    | H : inl _ = inr _ |- _ => discriminate H
    | H : inr _ = inl _ |- _ => discriminate H
    | H1 : ?x = inr ?a, H2 : ?x = inr ?b |- _ =>
        rewrite H1 in H2; injection H2 as H2; try subst b
    | H1 : ?x = inl _, H2 : ?x = inr _ |- _ => rewrite H1 in H2; discriminate H2
    | H1 : ?x = inr _, H2 : ?x = inl _ |- _ => rewrite H1 in H2; discriminate H2
    | H : ?a = pcState _ |- _ => subst a
    end.

(** One path through a handler: the run is computed, then every clause
    of the statement is read off the final state. *)
Ltac close_case :=
  eexists; split; [reflexivity|]; run_handler;
  repeat match goal with |- _ /\ _ => split end;
  intros; same_call; try discriminate; try congruence;
  rewrite <- ?app_assoc;
  solve [ reflexivity | eexists; reflexivity | split; reflexivity ].

(** C9. Every run of the negotiation-needed handler completes, and
    leaves [makingOffer] false: when the offer is made and sent, when
    [setLocalDescription] rejects, and when [emit] throws. The other
    fields of the manager are left as they were. *)
Theorem onnegotiationneeded_releases_makingOffer (s : State) :
  exists s',
    onnegotiationneeded s = (Ok tt, s')
    /\ makingOffer (this s') = false
    /\ (forall e, pc_setLocalDescription Implicit (pcState (world s)) = inl e ->
          trace (world s') = trace (world s) ++ [SetLocalDescription Implicit])
    /\ (forall pc1 e,
          pc_setLocalDescription Implicit (pcState (world s)) = inr pc1 ->
          socket_emit "offer" (signalPayload s pc1) (socketState (world s)) = inl e ->
          trace (world s') = trace (world s)
            ++ [SetLocalDescription Implicit; Emit "offer" (signalPayload s pc1)])
    /\ polite (this s') = polite (this s)
    /\ ignoreOffer (this s') = ignoreOffer (this s).
Proof.
  destruct s as [m w]. unfold onnegotiationneeded, signalPayload. run_handler.
  destruct (pc_setLocalDescription Implicit (pcState w)) as [e|pc1] eqn:Hlocal;
    run_handler.
  - eexists. split; [reflexivity|]. run_handler.
    repeat split; try reflexivity; intros; congruence.
  - destruct (socket_emit "offer" _ (socketState w)) as [e|sock'] eqn:Hemit;
      run_handler; (eexists; split; [reflexivity|]); run_handler;
      repeat split; try reflexivity; intros; try congruence.
    match goal with H : inr _ = inr _ |- _ => injection H as <- end.
    rewrite <- app_assoc. reflexivity.
Qed.

(** C2, as the code has it. On every offer [handleOffer] completes and
    sets [ignoreOffer] to (not polite) and collision, where collision is
    [makingOffer] or a signaling state other than stable.
    - Impolite and collision: nothing is called on the connection or the
      socket (no descriptor applied, no answer sent).
    - Polite and collision: the first call is the rollback, so it comes
      before the remote offer is applied.
    - Not ignored, and the rollback (where one is made),
      [setRemoteDescription(offer)] and [setLocalDescription()] all
      resolve and [emit] returns: the calls are exactly these, in this
      order, and the answer carrying the new local description is sent.
    - Not ignored, and one of the three rejects: the error is caught,
      the later calls are not made and the socket is not used. *)
Theorem handleOffer_glare (offer : Description) (s : State) :
  exists s',
    handleOffer offer s = (Ok tt, s')
    /\ ignoreOffer (this s') = negb (polite (this s)) && offerCollision s
    /\ (polite (this s) = false -> offerCollision s = true -> world s' = world s)
    /\ (polite (this s) = true -> offerCollision s = true ->
        exists rest,
          trace (world s') = trace (world s) ++ SetLocalDescription Rollback :: rest)
    /\ (ignoreOffer (this s') = false ->
        forall pc1 pc2 pc3 sock',
          rolledBack s pc1 ->
          pc_setRemoteDescription offer pc1 = inr pc2 ->
          pc_setLocalDescription Implicit pc2 = inr pc3 ->
          socket_emit "answer" (signalPayload s pc3) (socketState (world s)) = inr sock' ->
          world s' =
            {| pcState := pc3; socketState := sock';
               trace := trace (world s) ++ rollbackCalls s
                        ++ [SetRemoteDescription offer; SetLocalDescription Implicit;
                            Emit "answer" (signalPayload s pc3)] |})
    /\ (ignoreOffer (this s') = false ->
        forall e, offerCollision s = true ->
          pc_setLocalDescription Rollback (pcState (world s)) = inl e ->
          trace (world s') = trace (world s) ++ [SetLocalDescription Rollback]
          /\ socketState (world s') = socketState (world s))
    /\ (ignoreOffer (this s') = false ->
        forall pc1 e,
          rolledBack s pc1 ->
          pc_setRemoteDescription offer pc1 = inl e ->
          trace (world s') =
            trace (world s) ++ rollbackCalls s ++ [SetRemoteDescription offer]
          /\ socketState (world s') = socketState (world s))
    /\ (ignoreOffer (this s') = false ->
        forall pc1 pc2 e,
          rolledBack s pc1 ->
          pc_setRemoteDescription offer pc1 = inr pc2 ->
          pc_setLocalDescription Implicit pc2 = inl e ->
          trace (world s') =
            trace (world s) ++ rollbackCalls s
            ++ [SetRemoteDescription offer; SetLocalDescription Implicit]
          /\ socketState (world s') = socketState (world s)).
Proof.
  destruct s as [m w].
  unfold handleOffer, rolledBack, rollbackCalls, signalPayload.
  unfold offerCollision.
  run_handler.
  destruct (polite m) eqn:Hpolite;
    destruct (makingOffer m || bool_decide (signalingState (pcState w) ≠ stable))
      eqn:Hcoll; run_handler.
  - (* polite, collision *)
    destruct (pc_setLocalDescription Rollback (pcState w)) as [e|pc1] eqn:Hrb;
      run_handler; [close_case|].
    destruct (pc_setRemoteDescription offer pc1) as [e|pc2] eqn:Hrem;
      run_handler; [close_case|].
    destruct (pc_setLocalDescription Implicit pc2) as [e|pc3] eqn:Hloc;
      run_handler; [close_case|].
    destruct (socket_emit "answer" _ (socketState w)) as [e|sock'] eqn:Hemit;
      run_handler; close_case.
  - (* polite, no collision *)
    destruct (pc_setRemoteDescription offer (pcState w)) as [e|pc2] eqn:Hrem;
      run_handler; [close_case|].
    destruct (pc_setLocalDescription Implicit pc2) as [e|pc3] eqn:Hloc;
      run_handler; [close_case|].
    destruct (socket_emit "answer" _ (socketState w)) as [e|sock'] eqn:Hemit;
      run_handler; close_case.
  - (* impolite, collision: the offer is ignored *)
    eexists. split; [reflexivity|]. run_handler.
    repeat split; try reflexivity; intros; congruence.
  - (* impolite, no collision *)
    destruct (pc_setRemoteDescription offer (pcState w)) as [e|pc2] eqn:Hrem;
      run_handler; [close_case|].
    destruct (pc_setLocalDescription Implicit pc2) as [e|pc3] eqn:Hloc;
      run_handler; [close_case|].
    destruct (socket_emit "answer" _ (socketState w)) as [e|sock'] eqn:Hemit;
      run_handler; close_case.
Qed.

End Negotiation.

(** A polite manager at rest receives an offer whose SDP the connection
    rejects: the offer is not ignored, [setRemoteDescription] throws, the
    handler catches the error, and no answer is sent. *)
Lemma handleOffer_rejected_offer_unanswered :
  ~ answers_unless_ignored (T := Demo.transport) (Demo.sdp_offer, false)
      (Demo.signalingIn stable true false).
Proof.
  unfold answers_unless_ignored. vm_compute. intros H.
  destruct (H eq_refl) as (payload & [Hin | []]). discriminate Hin.
Qed.

(* ===================================================================== *)
(** * The voice engine *)
(* ===================================================================== *)

Section EngineFacts.
Context `{CB : CryptoBackend}.
Variable cryptoService : CryptoService.
Variable jsonLength : bytes -> bytes -> bytes -> Z.
Variable aboveSpeakingThreshold : bytes -> bool.
Import Engine.

#[local] Abbreviation onmessage :=
  (Engine.onmessage cryptoService jsonLength aboveSpeakingThreshold).
#[local] Abbreviation broadcastEncryptedAudio :=
  (Engine.broadcastEncryptedAudio cryptoService jsonLength).
#[local] Abbreviation broadcastLoop := (Engine.broadcastLoop cryptoService jsonLength).
#[local] Abbreviation broadcastTo := (Engine.broadcastTo cryptoService jsonLength).

Ltac run_engine :=
  repeat first
    [ progress cbn beta iota zeta delta
        [fst snd peerConnections dataChannels signalingManagers peerSessionKeys
         secureChannels audioNodes peerSpeakingState peerMuteState currentRoom
         engineUserId engineUsername audioContext connections channels nextRef
         random uiEvents playback
         upd_peerConnections upd_dataChannels upd_signalingManagers
         upd_peerSessionKeys upd_secureChannels upd_audioNodes
         upd_peerSpeakingState upd_peerMuteState upd_audioContext
         upd_connections upd_channels upd_nextRef upd_random upd_uiEvents
         upd_playback
         pc_publicKey pc_closeCalled pc_ondatachannel
         readyState bufferedAmount sent handlers] in *
    | progress unfold mbind, mret, JS_bind, JS_ret, try_catch_finally, try_finally,
        try_catch, gets, modify, skip, throw, lift, notify, emitSecurityEvent,
        withConnection, withChannel, id in *
    | rewrite lookup_insert_eq in * ].

(** What [createPeerConnection] does to the engine: it always allocates
    a connection and stores it, with a new manager, under [peerId]. *)
Lemma createPeerConnection_spec (peerId : string) (odileId username : option string)
    (publicKey : option JsonWebKey) (isInitiator : bool) (e : VoiceEngine) :
  exists e',
    createPeerConnection peerId odileId username publicKey isInitiator e
      = (Ok (nextRef e), e')
    /\ peerConnections e' = <[peerId := nextRef e]> (peerConnections e)
    /\ signalingManagers e' =
         <[peerId := newSignalingManager (nextRef e) peerId (currentRoom e)
                       (engineUserId e) (engineUsername e) (negb isInitiator)]>
           (signalingManagers e)
    /\ connections e' =
         <[nextRef e := {| pc_publicKey := publicKey; pc_closeCalled := false;
                           pc_ondatachannel := negb isInitiator |}]> (connections e)
    /\ dataChannels e' =
         (if isInitiator then Map_set peerId (S (nextRef e)) (dataChannels e)
          else dataChannels e)
    /\ channels e' =
         (if isInitiator
          then <[S (nextRef e) := {| readyState := dc_connecting; bufferedAmount := 0;
                                     sent := []; handlers := Some (peerId, true) |}]>
                 (channels e)
          else channels e)
    /\ nextRef e' = (if isInitiator then S (S (nextRef e)) else S (nextRef e))
    /\ peerSessionKeys e' = peerSessionKeys e
    /\ secureChannels e' = secureChannels e.
Proof.
  unfold createPeerConnection, newRTCPeerConnection, setupDataChannel,
    createDataChannel.
  destruct isInitiator; run_engine;
    (eexists; split; [reflexivity|]); run_engine;
    rewrite ?insert_insert_eq; repeat split; reflexivity.
Qed.


Lemma Map_get_set {V} (k k' : string) (v : V) (m : list (string * V)) :
  Map_get k' (Map_set k v m) = if String.eqb k' k then Some v else Map_get k' m.
Proof.
  induction m as [|[k0 v0] m IH]; simpl.
  - reflexivity.
  - destruct (String.eqb_spec k k0) as [->|Hne]; simpl.
    + destruct (String.eqb_spec k' k0); reflexivity.
    + destruct (String.eqb_spec k' k0) as [->|Hne'].
      * destruct (String.eqb_spec k0 k); [congruence | reflexivity].
      * exact IH.
Qed.




(** Case analysis on whatever a handler branches on next. *)
Ltac branch :=
  match goal with
  | |- context [match ?x with _ => _ end] =>
      match x with
      | context [match _ with _ => _ end] => fail 1
      | _ => destruct x eqn:?
      end
  | |- context [if ?b then _ else _] =>
      match b with
      | context [if _ then _ else _] => fail 1
      | context [match _ with _ => _ end] => fail 1
      | _ => destruct b eqn:?
      end
  end.

Ltac run_branches := run_engine; repeat (branch; run_engine).

(** [closePeerConnection] touches neither the session keys, nor the set
    of acknowledged peers, nor the managers. *)
Lemma closePeerConnection_keeps_keys (peerId : string) (e : VoiceEngine) :
  let e' := snd (closePeerConnection peerId e) in
  peerSessionKeys e' = peerSessionKeys e
  /\ secureChannels e' = secureChannels e
  /\ signalingManagers e' = signalingManagers e
  /\ fst (closePeerConnection peerId e) <> OutOfFuel.
Proof.
  unfold closePeerConnection, pc_close, dc_close.
  run_branches; repeat split; try reflexivity; discriminate.
Qed.

(** With its objects in place, [closePeerConnection] closes the
    connection and the channel and forgets both. *)
Lemma closePeerConnection_closes (peerId : string) (e : VoiceEngine)
    (r d : nat) (conn : RTCPeerConnection) (chan : RTCDataChannel) :
  peerConnections e !! peerId = Some r ->
  connections e !! r = Some conn ->
  Map_get peerId (dataChannels e) = Some d ->
  channels e !! d = Some chan ->
  exists e',
    closePeerConnection peerId e = (Ok tt, e')
    /\ peerConnections e' !! peerId = None
    /\ (exists conn', connections e' !! r = Some conn' /\ pc_closeCalled conn' = true)
    /\ dataChannels e' = Map_delete peerId (dataChannels e)
    /\ (exists chan', channels e' !! d = Some chan' /\ readyState chan' <> dc_open).
Proof.
  intros Hr Hconn Hd Hchan.
  unfold closePeerConnection, pc_close, dc_close. run_engine.
  rewrite Hr. run_engine. rewrite Hconn. run_engine.
  rewrite Hd. run_engine. rewrite Hchan. run_engine.
  eexists. split; [reflexivity|]. run_engine.
  split; [apply lookup_delete_eq|]. split; [eexists; split; reflexivity|].
  split; [reflexivity|]. eexists. split; [reflexivity|].
  run_engine. destruct (readyState chan); discriminate.
Qed.

(** C7, on the code. When the engine handles [user-left] for a peer for
    which it stores a session key, the handler completes and the key is
    still stored for that peer identifier afterwards, and still after the
    channel's [close] event has been handled; the peer's manager stays
    too. Neither the handler nor [closePeerConnection] deletes from
    [peerSessionKeys] (the [failed]/[disconnected] branch of
    [onconnectionstatechange] does). *)
Theorem user_left_keeps_session_key (data : UserEvent) (socketId : string)
    (k : SessionKey) (e : VoiceEngine) :
  truthy (ev_socketId data) = Some socketId ->
  peerSessionKeys e !! socketId = Some k ->
  exists e',
    on_user_left data e = (Ok tt, e')
    /\ peerSessionKeys e' !! socketId = Some k
    /\ signalingManagers e' !! socketId = signalingManagers e !! socketId
    /\ (forall dataChannel,
          peerSessionKeys (snd (onclose dataChannel socketId e')) !! socketId = Some k)
    /\ peerSessionKeys (snd (onconnectionstatechange socketId "failed" e)) !! socketId
       = None.
Proof.
  intros Hid Hk. unfold on_user_left. rewrite Hid.
  pose proof (closePeerConnection_keeps_keys socketId e) as Hkeep.
  destruct (closePeerConnection socketId e) as [res e1] eqn:Hrun.
  simpl in Hkeep. destruct Hkeep as (Hkeys & _ & Hmgr & Hfuel).
  run_engine. rewrite Hrun.
  destruct res; [| |congruence]; run_engine;
    (eexists; split; [reflexivity|]); run_engine;
    rewrite ?Hkeys, ?Hmgr;
    (split; [exact Hk|]); (split; [reflexivity|]);
    (split; [intros dataChannel; unfold onclose; run_engine; rewrite ?Hkeys; exact Hk|]);
    unfold onconnectionstatechange; simpl; run_engine; apply lookup_delete_eq.
Qed.

(** C10. A [key] message whose payload [decryptSessionKey] opens, arriving
    on an open channel: whatever the engine holds for the peer (no key, or
    a key set earlier by itself or by a previous [key] message), the
    handler completes, the stored session key of the peer becomes the new
    one, one message is sent on the channel, of type [key-ack] and with
    no other content, and the peer is in [secureChannels]. The keys of
    the other peers are not touched. *)
Theorem key_message_rekeys (dataChannel : nat) (peerId : string) (msg : Message)
    (k : SessionKey) (obj : RTCDataChannel) (e : VoiceEngine) :
  type msg = "key" ->
  decryptSessionKey cryptoService (payload msg) = Ok k ->
  channels e !! dataChannel = Some obj ->
  readyState obj = dc_open ->
  exists e' obj',
    onmessage dataChannel peerId (Some msg) e = (Ok tt, e')
    /\ peerSessionKeys e' !! peerId = Some k
    /\ peerId ∈ secureChannels e'
    /\ channels e' !! dataChannel = Some obj'
    /\ sent obj' = sent obj ++ [{| type := "key-ack"; payload := []; iv := [];
                                   data := [] |}]
    /\ readyState obj' = dc_open
    /\ peerSessionKeys e' = <[peerId := k]> (peerSessionKeys e)
    /\ secureChannels e' = secureChannels e ∪ {[peerId]}.
Proof.
  intros Htype Hdec Hchan Hopen.
  unfold Engine.onmessage, Engine.dc_send, orThrow. run_engine.
  rewrite Htype. cbn [String.eqb Ascii.eqb Bool.eqb]. run_engine.
  rewrite Hdec. run_engine. rewrite Hchan. run_engine.
  rewrite Hopen. rewrite bool_decide_eq_true_2 by reflexivity. run_engine.
  eexists. eexists. split; [reflexivity|]. run_engine.
  split; [reflexivity|]. split; [set_solver|].
  repeat split; try reflexivity; exact Hopen.
Qed.

(** One turn of the broadcast loop leaves [secureChannels] as it is and
    writes at most to the channel of its entry, and to that one only if
    the peer of the entry is in [secureChannels]. *)
Lemma broadcastTo_frame (audioData : bytes) (peerId : string) (dataChannel : nat)
    (e : VoiceEngine) :
  let e' := snd (broadcastTo audioData peerId dataChannel e) in
  secureChannels e' = secureChannels e
  /\ (forall dc, dc <> dataChannel \/ peerId ∉ secureChannels e ->
        channels e' !! dc = channels e !! dc).
Proof.
  unfold Engine.broadcastTo, Engine.dc_send, withRandom. run_engine.
  case_bool_decide as Hsec; run_engine.
  2: { split; [reflexivity|]. intros; reflexivity. }
  destruct (channels e !! dataChannel) as [obj|] eqn:Hchan; run_engine.
  2: { split; [reflexivity|]. intros; reflexivity. }
  destruct (bool_decide (readyState obj = dc_open) && (bufferedAmount obj <? 16384))
    eqn:Hready; run_engine.
  2: { split; [reflexivity|]. intros; reflexivity. }
  destruct (peerSessionKeys e !! peerId) as [sessionKey|] eqn:Hkey; run_engine.
  2: { split; [reflexivity|]. intros; reflexivity. }
  destruct (encryptAudioAES cryptoService audioData sessionKey (random e))
    as [[encryptedBuffer|err|] r'] eqn:Henc; run_engine;
    try (split; [reflexivity|]; intros; reflexivity).
  rewrite Hchan. run_engine.
  destruct (bool_decide (readyState obj = dc_open)); run_engine;
    (split; [reflexivity|]); intros dc [Hdc|Hdc]; try contradiction;
    try reflexivity.
  apply lookup_insert_ne. congruence.
Qed.

Lemma broadcastLoop_frame (audioData : bytes) (dc : nat)
    (entries : list (string * nat)) :
  forall e : VoiceEngine,
    (forall p, In (p, dc) entries -> p ∉ secureChannels e) ->
    channels (snd (broadcastLoop audioData entries e)) !! dc = channels e !! dc.
Proof.
  induction entries as [|[peerId dataChannel] entries IH]; intros e Hgate.
  - reflexivity.
  - cbn [Engine.broadcastLoop]. unfold mbind, JS_bind.
    pose proof (broadcastTo_frame audioData peerId dataChannel e) as Hturn.
    destruct (broadcastTo audioData peerId dataChannel e) as [res e1].
    cbn [snd] in Hturn. destruct Hturn as [Hsec Hchan].
    assert (Hdc : channels e1 !! dc = channels e !! dc).
    { apply Hchan. destruct (decide (dc = dataChannel)) as [->|Hne]; [right|left; exact Hne].
      apply Hgate. left. reflexivity. }
    destruct res; cbn [snd]; try exact Hdc.
    rewrite IH; [exact Hdc|].
    intros p Hin. rewrite Hsec. apply Hgate. right. exact Hin.
Qed.

(** C1, as the code has it.
    - Sending is gated on [secureChannels]: [broadcastEncryptedAudio]
      writes nothing to a channel that is registered only under peers
      that are not in [secureChannels].
    - Receiving is gated on the stored session key: an [audio] message
      for a peer without a stored session key is dropped, the engine is
      left as it was (nothing decrypted, nothing played).
    - Receiving does not read [secureChannels]: for a peer with a stored
      session key the handler does the same whatever [secureChannels]
      holds.
    - So a frame from a peer with a stored session key is decrypted and
      played whether or not the peer is in [secureChannels]: when
      [decryptAudioAES] opens the message under the stored key to a
      non-empty whole number of 4-byte samples and the audio context is
      there (running, or suspended with [resume()] resolving), the
      handler completes and queues exactly the opened frame for
      playback under the peer, with a gain node for the peer; nothing
      else is queued and [secureChannels] stays as it was.
    - The turn of the broadcast loop for a peer that is not in
      [secureChannels] leaves the whole engine as it was: nothing is
      encrypted (the random generator has not moved) and nothing is
      sent. *)
Theorem audio_gating (e : VoiceEngine) :
  (forall audioData dc,
      (forall p, In (p, dc) (dataChannels e) -> p ∉ secureChannels e) ->
      channels (snd (broadcastEncryptedAudio audioData e)) !! dc = channels e !! dc)
  /\ (forall dataChannel peerId msg,
        type msg = "audio" ->
        peerSessionKeys e !! peerId = None ->
        onmessage dataChannel peerId (Some msg) e = (Ok tt, e))
  /\ (forall dataChannel peerId msg acked,
        type msg = "audio" ->
        onmessage dataChannel peerId (Some msg) (upd_secureChannels (fun _ => acked) e)
        = (fst (onmessage dataChannel peerId (Some msg) e),
           upd_secureChannels (fun _ => acked)
             (snd (onmessage dataChannel peerId (Some msg) e))))
  /\ (forall dataChannel peerId msg sessionKey opened,
        type msg = "audio" ->
        peerSessionKeys e !! peerId = Some sessionKey ->
        decryptAudioAES cryptoService (iv msg ++ data msg) sessionKey = Ok opened ->
        byteLength opened mod 4 = 0 ->
        opened <> [] ->
        audioContext e = Some running \/ audioContext e = Some (suspended None) ->
        exists e',
          onmessage dataChannel peerId (Some msg) e = (Ok tt, e')
          /\ playback e' = playback e ++ [(peerId, opened)]
          /\ peerId ∈ audioNodes e'
          /\ audioContext e' = Some running
          /\ secureChannels e' = secureChannels e
          /\ peerSessionKeys e' = peerSessionKeys e)
  /\ (forall audioData peerId dataChannel,
        peerId ∉ secureChannels e ->
        broadcastTo audioData peerId dataChannel e = (Ok tt, e)).
Proof.
  split; [|split; [|split; [|split]]].
  - intros audioData dc Hgate. unfold Engine.broadcastEncryptedAudio. run_engine.
    apply broadcastLoop_frame. exact Hgate.
  - intros dataChannel peerId msg Htype Hkey.
    unfold Engine.onmessage, Engine.handleIncomingAudio, orThrow. run_engine.
    rewrite Htype. cbn [String.eqb Ascii.eqb Bool.eqb]. run_engine.
    rewrite Hkey. reflexivity.
  - intros dataChannel peerId msg acked Htype.
    unfold Engine.onmessage, Engine.handleIncomingAudio, Engine.playAudio, orThrow.
    run_engine.
    rewrite Htype. cbn [String.eqb Ascii.eqb Bool.eqb]. run_engine.
    run_branches; reflexivity.
  - intros dataChannel peerId msg sessionKey opened Htype Hkey Hopen Hsize Hsome Hctx.
    assert (Hlen : (byteLength opened / 4 =? 0) = false).
    { apply Z.eqb_neq. unfold byteLength in *. destruct opened; [contradiction|].
      cbn [length] in *. Z.to_euclidean_division_equations. lia. }
    unfold Engine.onmessage, Engine.handleIncomingAudio, Engine.playAudio, orThrow.
    run_engine.
    rewrite Htype. cbn [String.eqb Ascii.eqb Bool.eqb]. run_engine.
    rewrite Hkey. run_engine. rewrite Hopen. run_engine.
    rewrite Hsize. cbn [Z.eqb]. run_engine.
    destruct (negb _); run_engine;
      destruct Hctx as [Hctx|Hctx]; rewrite Hctx; run_engine;
      rewrite Hlen; run_engine;
      (eexists; split; [reflexivity|]); run_engine;
      (split; [reflexivity|]);
      (split; [apply elem_of_union_r, elem_of_singleton; reflexivity|]);
      repeat split; try reflexivity; exact Hctx.
  - intros audioData peerId dataChannel Hnot.
    unfold Engine.broadcastTo. run_engine.
    rewrite bool_decide_eq_false_2 by exact Hnot. reflexivity.
Qed.

End EngineFacts.

(* ===================================================================== *)
(** * The statements on the small platform *)
(* ===================================================================== *)

Section OnDemo.
Import Demo Engine.
#[local] Existing Instance Demo.backend.
#[local] Existing Instance Demo.transport.

Lemma demo_matching_pair (encNative decNative : bool) :
  MatchingKeyPair encNative decNative "*"%byte "*"%byte.
Proof.
  intros seed m Hm. exists ("*"%byte :: seed :: rev m).
  cbn [rsa_oaep_encrypt rsa_oaep_decrypt backend]. unfold rsa_encrypt, rsa_decrypt.
  unfold MAX_CHUNK_SIZE in Hm.
  destruct (Z.leb_spec (byteLength m) 190); [|lia].
  split; [reflexivity|]. split.
  - unfold byteLength in *. cbn [length]. rewrite length_rev.
    change (2 ^ 32) with 4294967296. lia.
  - cbn [Byte.eqb]. rewrite rev_involutive. reflexivity.
Qed.

Lemma demo_native_key (key : byte) : AesGcmKey service (NativeKey key).
Proof.
  split; [reflexivity|]. intros nonce p _. exists (rev p ++ tag_of key).
  cbn [subtle_aes_gcm_encrypt subtle_aes_gcm_decrypt backend].
  assert (Hlen : length (rev p ++ tag_of key) = (length p + 16)%nat).
  { rewrite length_app, length_rev. reflexivity. }
  split; [reflexivity|]. split; [lia|].
  rewrite Hlen. destruct (Nat.ltb_spec (length p + 16) 16); [lia|].
  replace (length p + 16 - 16)%nat with (length (rev p)) by (rewrite length_rev; lia).
  rewrite take_app_length, drop_app_length. unfold aes_open.
  rewrite bool_decide_eq_true_2 by reflexivity. rewrite rev_involutive. reflexivity.
Qed.

Lemma demo_forge_key (key : byte) : AesGcmKey forgeService (RawKey [key]).
Proof.
  split; [reflexivity|]. intros nonce p _. exists (rev p), (tag_of key).
  cbn [forge_aes_gcm_encrypt forge_aes_gcm_decrypt backend].
  split; [reflexivity|]. split; [reflexivity|]. unfold aes_open.
  rewrite bool_decide_eq_true_2 by reflexivity. rewrite rev_involutive. reflexivity.
Qed.

(** C3 on the small platform: a 200-byte key (two chunks), wrapped by a
    Web Crypto sender for a node-forge receiver. *)
Lemma unwrapKey_wrapKey_roundtrip_witness :
  let k := map (fun n => byte_of_Z (Z.of_nat n)) (seq 0 200) in
  let kp := {| publicKey := "*"%byte; privateKey := "*"%byte |} in
  keyPair forgeService = Some kp
  /\ MatchingKeyPair (useNative service) (useNative forgeService) "*"%byte (privateKey kp)
  /\ exists wrapped r' chunks encryptedChunks,
       encryptAudio service k "*"%byte rng = (Ok wrapped, r')
       /\ decryptAudio forgeService wrapped = Ok k
       /\ concat chunks = k
       /\ Forall (fun c => 0 < byteLength c <= 190) chunks
       /\ Forall2 (fun m e => exists seed,
                     rsa_oaep_encrypt (useNative service) "*"%byte seed m = Some e)
            chunks encryptedChunks
       /\ wrapped = concat (map (fun e => setUint32_le (byteLength e) ++ e)
                              encryptedChunks).
Proof.
  intros k kp. split; [reflexivity|]. split; [apply demo_matching_pair|].
  apply (unwrapKey_wrapKey_roundtrip service forgeService kp "*"%byte k rng);
    [reflexivity | apply demo_matching_pair].
Defined.

(** C4 on the small platform: a prefix that declares 5 bytes before a
    single byte. *)
Lemma unwrapKey_rejects_malformed_witness :
  let payload := ["005"; "000"; "000"; "000"; "001"]%byte in
  let kp := {| publicKey := "*"%byte; privateKey := "*"%byte |} in
  keyPair service = Some kp
  /\ Malformed payload
  /\ (decryptAudio service payload = Throw (Error "Invalid encrypted data format")
      \/ decryptAudio service payload = Throw (Error "Invalid chunk length"))
  /\ Forall (inBounds (byteLength payload))
       (snd (parseChunks (length payload) payload 0 [] [])).
Proof.
  intros payload kp.
  assert (Hbad : Malformed payload).
  { apply Malformed_length. vm_compute. reflexivity. }
  split; [reflexivity|]. split; [exact Hbad|].
  apply (unwrapKey_rejects_malformed service kp payload); [reflexivity | exact Hbad].
Defined.

(** C5 on the small platform, on Web Crypto. *)
Lemma decrypt_encrypt_roundtrip_witness :
  AesGcmKey service (nativeKey "*"%byte)
  /\ exists nonce ciphertext tag r',
       encryptAudioAES service frame (nativeKey "*"%byte) rng
         = (Ok (nonce ++ ciphertext ++ tag), r')
       /\ nonce = map (rnd_byte rng) (seq (rnd_pos rng) 12)
       /\ length nonce = 12%nat
       /\ rnd_pos r' = (rnd_pos rng + 12)%nat
       /\ aeadSeal (nativeKey "*"%byte) nonce frame = Some (ciphertext, tag)
       /\ length tag = 16%nat
       /\ slice (nonce ++ ciphertext ++ tag) 0 12 = nonce
       /\ sliceFrom (nonce ++ ciphertext ++ tag) 12 = ciphertext ++ tag
       /\ decryptAudioAES service (nonce ++ ciphertext ++ tag) (nativeKey "*"%byte)
          = Ok frame.
Proof.
  split; [apply demo_native_key|].
  apply (decrypt_encrypt_roundtrip service (nativeKey "*"%byte) frame rng).
  apply demo_native_key.
Defined.



(** C7 on the small platform: [p2] leaves while the engine holds the
    session key it generated for [p2]. *)
Lemma user_left_keeps_session_key_witness :
  truthy (ev_socketId (userEvent "p2" None)) = Some "p2"
  /\ peerSessionKeys engineAwaitingAck !! "p2" = Some (nativeKey "d"%byte)
  /\ exists e',
       on_user_left (userEvent "p2" None) engineAwaitingAck = (Ok tt, e')
       /\ peerSessionKeys e' !! "p2" = Some (nativeKey "d"%byte)
       /\ signalingManagers e' !! "p2" = signalingManagers engineAwaitingAck !! "p2"
       /\ (forall dataChannel,
             peerSessionKeys (snd (onclose dataChannel "p2" e')) !! "p2"
             = Some (nativeKey "d"%byte))
       /\ peerSessionKeys
            (snd (onconnectionstatechange "p2" "failed" engineAwaitingAck)) !! "p2"
          = None.
Proof.
  assert (Hk : peerSessionKeys engineAwaitingAck !! "p2" = Some (nativeKey "d"%byte))
    by (vm_compute; reflexivity).
  split; [reflexivity|]. split; [exact Hk|].
  apply (user_left_keeps_session_key (userEvent "p2" None) "p2" (nativeKey "d"%byte)
           engineAwaitingAck); [reflexivity | exact Hk].
Defined.



(** C10 on the small platform: a [key] message reaches the initiator,
    which already holds the key it generated. *)
Lemma key_message_rekeys_witness :
  let obj := {| readyState := dc_open; bufferedAmount := 68;
                sent := [keyMessage ["003"; "000"; "000"; "000"; "*"; "e"; "d"]%byte];
                handlers := Some ("p2", true) |} in
  type keyFromPeer = "key"
  /\ decryptSessionKey service (payload keyFromPeer) = Ok (nativeKey "007"%byte)
  /\ channels engineAwaitingAck !! 1%nat = Some obj
  /\ readyState obj = dc_open
  /\ peerSessionKeys engineAwaitingAck !! "p2" = Some (nativeKey "d"%byte)
  /\ exists e' obj',
       onmessage service jsonLength aboveSpeakingThreshold 1 "p2" (Some keyFromPeer)
         engineAwaitingAck = (Ok tt, e')
       /\ peerSessionKeys e' !! "p2" = Some (nativeKey "007"%byte)
       /\ "p2" ∈ secureChannels e'
       /\ channels e' !! 1%nat = Some obj'
       /\ sent obj' = sent obj ++ [{| type := "key-ack"; payload := []; iv := [];
                                      data := [] |}]
       /\ readyState obj' = dc_open
       /\ peerSessionKeys e' = <["p2" := nativeKey "007"%byte]>
                                 (peerSessionKeys engineAwaitingAck)
       /\ secureChannels e' = secureChannels engineAwaitingAck ∪ {["p2"]}.
Proof.
  intros obj.
  assert (Htype : type keyFromPeer = "key") by (vm_compute; reflexivity).
  assert (Hdec : decryptSessionKey service (payload keyFromPeer)
                 = Ok (nativeKey "007"%byte)) by (vm_compute; reflexivity).
  assert (Hchan : channels engineAwaitingAck !! 1%nat = Some obj)
    by (vm_compute; reflexivity).
  split; [exact Htype|]. split; [exact Hdec|]. split; [exact Hchan|].
  split; [reflexivity|]. split; [vm_compute; reflexivity|].
  apply (key_message_rekeys service jsonLength aboveSpeakingThreshold 1 "p2" keyFromPeer
           (nativeKey "007"%byte) obj engineAwaitingAck Htype Hdec Hchan eq_refl).
Defined.

(** The initiator has generated and sent the session key and waits for
    the [key-ack]; an [audio] message under that key arrives first (the
    channel is unordered). The handler finds the stored key, decrypts
    the frame and plays it. *)
Lemma audio_played_before_secureAck :
  ~ drops_audio_before_secureAck service jsonLength aboveSpeakingThreshold
      1 "p2" (audioFrom (nativeKey "d"%byte)) engineAwaitingAck.
Proof.
  intros H.
  assert (Hplay : playback (snd (onmessage service jsonLength aboveSpeakingThreshold
                                   1 "p2" (Some (audioFrom (nativeKey "d"%byte)))
                                   engineAwaitingAck))
                  = playback engineAwaitingAck).
  { apply H; [vm_compute; reflexivity|].
    apply (bool_decide_eq_false_1 _). vm_compute. reflexivity. }
  vm_compute in Hplay. discriminate Hplay.
Qed.

(** C1 on the small platform: while the engine waits for the [key-ack]
    of [p2], a broadcast writes nothing to the channel of [p2]; an
    [audio] message from [p2] under the key the engine has stored is
    decrypted and played, although [p2] is not in [secureChannels]. *)
Lemma audio_gating_witness :
  let msg := audioFrom (nativeKey "d"%byte) in
  (forall p, In (p, 1%nat) (dataChannels engineAwaitingAck) ->
             p ∉ secureChannels engineAwaitingAck)
  /\ channels (snd (broadcastEncryptedAudio service jsonLength frame engineAwaitingAck))
       !! 1%nat
     = channels engineAwaitingAck !! 1%nat
  /\ ("p2" ∉ secureChannels engineAwaitingAck)
  /\ type msg = "audio"
  /\ peerSessionKeys engineAwaitingAck !! "p2" = Some (nativeKey "d"%byte)
  /\ decryptAudioAES service (iv msg ++ data msg) (nativeKey "d"%byte) = Ok frame
  /\ exists e',
       onmessage service jsonLength aboveSpeakingThreshold 1 "p2" (Some msg)
         engineAwaitingAck = (Ok tt, e')
       /\ playback e' = [("p2", frame)]
       /\ ("p2" ∉ secureChannels e').
Proof.
  intros msg.
  assert (Hgate : forall p, In (p, 1%nat) (dataChannels engineAwaitingAck) ->
                            p ∉ secureChannels engineAwaitingAck).
  { intros p Hin. apply (bool_decide_eq_false_1 _).
    vm_compute in Hin. destruct Hin as [[= <-] | []]. vm_compute. reflexivity. }
  assert (Hnot : "p2" ∉ secureChannels engineAwaitingAck)
    by (apply (bool_decide_eq_false_1 _); vm_compute; reflexivity).
  assert (Htype : type msg = "audio") by (vm_compute; reflexivity).
  assert (Hkey : peerSessionKeys engineAwaitingAck !! "p2" = Some (nativeKey "d"%byte))
    by (vm_compute; reflexivity).
  assert (Hopen : decryptAudioAES service (iv msg ++ data msg) (nativeKey "d"%byte)
                  = Ok frame) by (vm_compute; reflexivity).
  assert (Hctx : audioContext engineAwaitingAck = Some running)
    by (vm_compute; reflexivity).
  split; [exact Hgate|]. split.
  { apply (proj1 (audio_gating service jsonLength aboveSpeakingThreshold
                    engineAwaitingAck)).
    exact Hgate. }
  split; [exact Hnot|]. split; [exact Htype|]. split; [exact Hkey|].
  split; [exact Hopen|].
  destruct (proj1 (proj2 (proj2 (proj2 (audio_gating service jsonLength
                                          aboveSpeakingThreshold engineAwaitingAck))))
              1%nat "p2" msg (nativeKey "d"%byte) frame Htype Hkey Hopen eq_refl
              ltac:(discriminate) (or_introl Hctx))
    as (e' & Hrun & Hplay & _ & _ & Hsec & _).
  exists e'. split; [exact Hrun|]. split; [exact Hplay|].
  rewrite Hsec. exact Hnot.
Defined.

(** Once the [key-ack] has been handled the same broadcast sends one
    [audio] message on the channel. *)
Lemma broadcast_after_key_ack :
  let acked := exec (onmessage service jsonLength aboveSpeakingThreshold 1 "p2"
                       (Some keyAckMessage)) engineAwaitingAck in
  (length ∘ sent) <$>
    channels (exec (broadcastEncryptedAudio service jsonLength frame) acked) !! 1%nat
  = Some 2%nat.
Proof. vm_compute. reflexivity. Qed.

(** C2 on the small platform: a polite manager with a local offer
    pending receives an offer. *)
Lemma handleOffer_glare_witness :
  exists s',
    Signaling.handleOffer (sdp_offer, true) (signalingIn have_local_offer true false)
      = (Ok tt, s')
    /\ ignoreOffer (Signaling.this s') = false
    /\ exists rest,
         Signaling.trace (Signaling.world s')
         = Signaling.SetLocalDescription Rollback :: rest.
Proof.
  destruct (handleOffer_glare (T := transport) (sdp_offer, true)
              (signalingIn have_local_offer true false))
    as (s' & Hrun & Hignore & _ & Hrollback & _).
  exists s'. split; [exact Hrun|]. split; [exact Hignore|].
  apply Hrollback; reflexivity.
Defined.

(** On this connection a rollback with nothing to roll back is rejected:
    a polite manager whose own offer is still being made, in the stable
    state, gives up on the remote offer after the rollback. *)
Lemma handleOffer_rollback_at_rest :
  Signaling.trace (Signaling.world
    (snd (Signaling.handleOffer (sdp_offer, true) (signalingIn stable true true))))
  = [Signaling.SetLocalDescription Rollback].
Proof. vm_compute. reflexivity. Qed.

(** C9 on the small platform: the handler runs while a local offer is
    already pending, so [setLocalDescription] rejects. *)
Lemma onnegotiationneeded_releases_makingOffer_witness :
  exists s',
    Signaling.onnegotiationneeded (signalingIn have_local_offer false true) = (Ok tt, s')
    /\ makingOffer (Signaling.this s') = false
    /\ Signaling.trace (Signaling.world s') = [Signaling.SetLocalDescription Implicit].
Proof.
  destruct (onnegotiationneeded_releases_makingOffer (T := transport)
              (signalingIn have_local_offer false true))
    as (s' & Hrun & Hflag & Hreject & _).
  exists s'. split; [exact Hrun|]. split; [exact Hflag|].
  apply (Hreject InvalidStateError). reflexivity.
Defined.

End OnDemo.

(* ===================================================================== *)
(** * More on key wrapping: the parser, sizes, session keys *)
(* ===================================================================== *)

Lemma byte_of_Z_mod (z : Z) (b : byte) : z mod 256 = Z_of_byte b -> byte_of_Z z = b.
Proof.
  intros Hz. unfold byte_of_Z.
  change 255 with (Z.ones 8). rewrite Z.land_ones by lia. change (2 ^ 8) with 256.
  rewrite Hz. unfold Z_of_byte. rewrite N2Z.id, Byte.of_to_N. reflexivity.
Qed.

Lemma setUint32_le_le32 (b0 b1 b2 b3 : byte) :
  setUint32_le (le32 b0 b1 b2 b3) = [b0; b1; b2; b3].
Proof.
  pose proof (le32_range b0 b1 b2 b3) as Hr.
  pose proof (Z_of_byte_range b0). pose proof (Z_of_byte_range b1).
  pose proof (Z_of_byte_range b2). pose proof (Z_of_byte_range b3).
  unfold setUint32_le. rewrite Z.land_ones by lia. rewrite Z.mod_small by lia.
  rewrite !Z.shiftr_div_pow2 by lia.
  change (2 ^ 8) with 256. change (2 ^ 16) with 65536. change (2 ^ 24) with 16777216.
  unfold le32 in *.
  repeat f_equal; apply byte_of_Z_mod; Z.div_mod_to_equations; lia.
Qed.

(** What the loop has accepted from [offset] on is the frames of the
    chunks it added. *)
Lemma parseChunks_accepts_frames (fuel : nat) (data : bytes) :
  forall (offset : Z) (acc : list bytes) (reads : list (Z * Z)) (cs : list bytes),
    0 <= offset ->
    fst (parseChunks fuel data offset acc reads) = Ok cs ->
    exists new,
      cs = acc ++ new
      /\ drop (Z.to_nat offset) data = flattenArrays (lengthPrefixed new)
      /\ Forall (fun c => byteLength c < 2 ^ 32) new.
Proof.
  induction fuel as [|fuel IH]; intros offset acc reads cs Ho; simpl.
  - destruct (Z.ltb_spec offset (byteLength data)); [discriminate|].
    intros [= <-]. exists []. rewrite app_nil_r. split; [reflexivity|].
    split; [|constructor]. apply drop_ge. unfold byteLength in *. lia.
  - destruct (Z.ltb_spec offset (byteLength data)) as [Hlt|Hge].
    2: { intros [= <-]. exists []. rewrite app_nil_r. split; [reflexivity|].
         split; [|constructor]. apply drop_ge. unfold byteLength in *. lia. }
    destruct (Z.ltb_spec (byteLength data) (offset + 4)) as [|Hfour]; [discriminate|].
    assert (Hsplit : data = take (Z.to_nat offset) data ++ drop (Z.to_nat offset) data)
      by (symmetry; apply take_drop).
    assert (Hpre : byteLength (take (Z.to_nat offset) data) = offset).
    { unfold byteLength in *. rewrite length_take. lia. }
    assert (Hrest : (4 <= length (drop (Z.to_nat offset) data))%nat).
    { rewrite length_drop. unfold byteLength in *. lia. }
    destruct (drop (Z.to_nat offset) data) as [|b0 [|b1 [|b2 [|b3 rest]]]] eqn:Hdrop;
      simpl in Hrest; try lia.
    assert (Hget : getUint32_le data offset = Ok (le32 b0 b1 b2 b3)).
    { rewrite Hsplit, <- Hpre at 1. rewrite Hpre. rewrite <- Hpre at 2.
      apply getUint32_le_at. }
    rewrite Hget. pose proof (le32_range b0 b1 b2 b3) as Hn.
    set (n := le32 b0 b1 b2 b3) in *.
    destruct (Z.ltb_spec (byteLength data) (offset + 4 + n)) as [|Hchunk];
      [discriminate|].
    intros Hrun. apply IH in Hrun; [|lia].
    destruct Hrun as (new & -> & Hnew & Hall).
    assert (Hlenrest : byteLength rest = byteLength data - offset - 4).
    { assert (length (drop (Z.to_nat offset) data) = S (S (S (S (length rest)))))
        by (rewrite Hdrop; reflexivity).
      rewrite length_drop in *. unfold byteLength in *. lia. }
    assert (Hslice : slice data (offset + 4) (offset + 4 + n) = take (Z.to_nat n) rest).
    { rewrite slice_in_range by lia.
      replace (Z.to_nat (offset + 4 + n - (offset + 4))) with (Z.to_nat n) by lia.
      replace (Z.to_nat (offset + 4)) with (Z.to_nat offset + 4)%nat by lia.
      rewrite <- drop_drop, Hdrop. reflexivity. }
    assert (Hnext : drop (Z.to_nat (offset + 4 + n)) data = drop (Z.to_nat n) rest).
    { replace (Z.to_nat (offset + 4 + n)) with (Z.to_nat offset + 4 + Z.to_nat n)%nat
        by lia.
      rewrite <- drop_drop, <- drop_drop, Hdrop. reflexivity. }
    exists (slice data (offset + 4) (offset + 4 + n) :: new).
    split; [rewrite <- app_assoc; reflexivity|]. split.
    + rewrite frame_cons, <- Hnew, Hnext, Hslice.
      assert (Hlen : byteLength (take (Z.to_nat n) rest) = n).
      { unfold byteLength in *. rewrite length_take. lia. }
      rewrite Hlen. unfold n at 1. rewrite setUint32_le_le32.
      simpl. rewrite take_drop. reflexivity.
    + constructor; [|exact Hall]. rewrite Hslice.
      unfold byteLength in *. rewrite length_take. lia.
Qed.

(** From any point on, the rest of the stream is malformed or the loop
    accepts it. *)
Lemma parseChunks_cases (fuel : nat) :
  forall (b pre : bytes) (acc : list bytes) (reads : list (Z * Z)),
    (length b <= fuel)%nat ->
    Malformed b
    \/ exists cs, fst (parseChunks fuel (pre ++ b) (byteLength pre) acc reads) = Ok cs.
Proof.
  induction fuel as [|fuel IH]; intros b pre acc reads Hfuel.
  - destruct b; [|simpl in Hfuel; lia]. right. exists acc. simpl.
    rewrite app_nil_r, Z.ltb_irrefl. reflexivity.
  - destruct b as [|b0 [|b1 [|b2 [|b3 rest]]]].
    + right. exists acc. simpl. rewrite app_nil_r, Z.ltb_irrefl. reflexivity.
    + left. apply Malformed_prefix. simpl. lia.
    + left. apply Malformed_prefix. simpl. lia.
    + left. apply Malformed_prefix. simpl. lia.
    + destruct (Z.ltb_spec (byteLength rest) (le32 b0 b1 b2 b3)) as [Hlong|Hfits].
      { left. apply Malformed_length. exact Hlong. }
      pose proof (le32_range b0 b1 b2 b3) as Hn.
      set (n := le32 b0 b1 b2 b3) in *.
      assert (Hrest : rest = take (Z.to_nat n) rest ++ drop (Z.to_nat n) rest)
        by (symmetry; apply take_drop).
      assert (Hlen : byteLength (take (Z.to_nat n) rest) = n).
      { unfold byteLength in *. rewrite length_take. lia. }
      destruct (IH (drop (Z.to_nat n) rest)
                  ((pre ++ [b0; b1; b2; b3]) ++ take (Z.to_nat n) rest)
                  (acc ++ [take (Z.to_nat n) rest])
                  ((reads ++ [(byteLength pre, byteLength pre + 4)])
                   ++ [(byteLength pre + 4,
                        byteLength ((pre ++ [b0; b1; b2; b3])
                                    ++ take (Z.to_nat n) rest))]))
        as [Hbad | (cs & Hrun)].
      { rewrite length_drop. simpl in Hfuel. lia. }
      { left. rewrite Hrest. apply Malformed_later; [symmetry; exact Hlen | exact Hbad]. }
      right. exists cs. cbn [parseChunks].
      assert (Hlenbuf : byteLength (pre ++ b0 :: b1 :: b2 :: b3 :: rest)
                        = byteLength pre + 4 + byteLength rest).
      { unfold byteLength. rewrite length_app. simpl length. lia. }
      rewrite Hlenbuf, getUint32_le_at. fold n.
      destruct (Z.ltb_spec (byteLength pre) (byteLength pre + 4 + byteLength rest));
        [|unfold byteLength in *; lia].
      destruct (Z.ltb_spec (byteLength pre + 4 + byteLength rest) (byteLength pre + 4));
        [unfold byteLength in *; lia|].
      destruct (Z.ltb_spec (byteLength pre + 4 + byteLength rest)
                  (byteLength pre + 4 + n)); [lia|].
      assert (Hbuf : pre ++ b0 :: b1 :: b2 :: b3 :: rest
                     = ((pre ++ [b0; b1; b2; b3]) ++ take (Z.to_nat n) rest)
                       ++ drop (Z.to_nat n) rest).
      { rewrite <- !app_assoc. simpl. rewrite take_drop. reflexivity. }
      assert (Hoff : byteLength pre + 4 + n
                     = byteLength ((pre ++ [b0; b1; b2; b3]) ++ take (Z.to_nat n) rest)).
      { unfold byteLength in *. rewrite !length_app. simpl length. lia. }
      assert (Hslice : slice (pre ++ b0 :: b1 :: b2 :: b3 :: rest)
                         (byteLength pre + 4) (byteLength pre + 4 + n)
                       = take (Z.to_nat n) rest).
      { assert (H4 : byteLength pre + 4 = byteLength (pre ++ [b0; b1; b2; b3])).
        { unfold byteLength. rewrite length_app. simpl. lia. }
        rewrite Hbuf, <- app_assoc, H4.
        replace (byteLength (pre ++ [b0; b1; b2; b3]) + n)
          with (byteLength (pre ++ [b0; b1; b2; b3])
                + byteLength (take (Z.to_nat n) rest)) by (rewrite Hlen; reflexivity).
        apply slice_app_middle. }
      rewrite Hslice, Hoff, Hbuf. exact Hrun.
Qed.

(** X1. A payload is accepted by the chunk loop of [decryptAudio]
    exactly when it is not malformed, and an accepted payload is, byte
    for byte, the chunks the loop returns, each behind its length as 4
    little-endian bytes: nothing is skipped and nothing is read twice. *)
Theorem parseChunks_exact (data : bytes) :
  ((exists cs, fst (parseChunks (length data) data 0 [] []) = Ok cs)
   <-> ~ Malformed data)
  /\ (forall cs,
        fst (parseChunks (length data) data 0 [] []) = Ok cs ->
        data = concat (map (fun c => setUint32_le (byteLength c) ++ c) cs)
        /\ Forall (fun c => byteLength c < 2 ^ 32) cs).
Proof.
  split; [split|].
  - intros (cs & Hok) Hbad.
    pose proof (parseChunks_malformed data Hbad [] (length data) [] []
                  (Nat.le_refl _)) as H.
    change ([] ++ data) with data in H. change (byteLength []) with 0 in H.
    destruct H as [H|H]; congruence.
  - intros Hgood.
    destruct (parseChunks_cases (length data) data [] [] [] (Nat.le_refl _))
      as [Hbad | Hok]; [contradiction | exact Hok].
  - intros cs Hok.
    apply parseChunks_accepts_frames in Hok; [|lia].
    destruct Hok as (new & -> & Hdata & Hall).
    change (drop (Z.to_nat 0) data) with data in Hdata. cbn [app].
    rewrite <- frame_concat_map. split; [exact Hdata | exact Hall].
Qed.

Section WrappedKeys.
Context `{CB : CryptoBackend}.

Lemma splitChunks_sizes (fuel : nat) (a : bytes) :
  forall (i : Z) (acc : list bytes),
    0 <= i -> byteLength a - i <= Z.of_nat fuel ->
    exists cs, splitChunks fuel a i acc = Ok (acc ++ cs)
               /\ Z.of_nat (length cs) = (Z.max 0 (byteLength a - i) + 189) / 190
               /\ Forall (fun c => 0 < byteLength c <= MAX_CHUNK_SIZE) cs.
Proof.
  induction fuel as [|fuel IH]; intros i acc Hi Hfuel.
  - exists []. simpl. destruct (Z.ltb_spec i (byteLength a)); [lia|].
    rewrite app_nil_r. split; [reflexivity|]. split; [|constructor].
    simpl. Z.div_mod_to_equations. lia.
  - simpl. destruct (Z.ltb_spec i (byteLength a)) as [Hlt|Hge].
    + destruct (slice_chunk a i) as [Hcat Hlen]; [lia|].
      destruct (IH (i + MAX_CHUNK_SIZE) (acc ++ [slice a i (i + MAX_CHUNK_SIZE)]))
        as (cs & Hrun & Hcount & Hall); [unfold MAX_CHUNK_SIZE; lia..|].
      exists (slice a i (i + MAX_CHUNK_SIZE) :: cs).
      rewrite Hrun, <- app_assoc. split; [reflexivity|]. split.
      * cbn [length]. rewrite Nat2Z.inj_succ, Hcount.
        unfold MAX_CHUNK_SIZE. Z.div_mod_to_equations. lia.
      * constructor; assumption.
    + exists []. rewrite app_nil_r. split; [reflexivity|]. split; [|constructor].
      simpl. Z.div_mod_to_equations. lia.
Qed.

Lemma encryptChunks_sized (native : bool) (pub : JsonWebKey) (L : Z)
    (chunks : list bytes) :
  (forall seed m, 0 < byteLength m <= MAX_CHUNK_SIZE ->
     exists c, rsa_oaep_encrypt native pub seed m = Some c /\ byteLength c = L) ->
  Forall (fun c => 0 < byteLength c <= MAX_CHUNK_SIZE) chunks ->
  forall r, exists es,
    encryptChunks native pub chunks r = (Ok es, advance (length chunks) r)
    /\ length es = length chunks
    /\ Forall (fun e => byteLength e = L) es.
Proof.
  intros Hkey Hall. induction Hall as [|m chunks Hm _ IH]; intros r.
  - exists []. cbn [encryptChunks length]. split; [|split; [reflexivity|constructor]].
    destruct r. unfold advance. cbn. rewrite Nat.add_0_r. reflexivity.
  - destruct (Hkey (rnd_seed r (rnd_pos r)) m Hm) as (c & Henc & Hlen).
    destruct (IH (advance 1 r)) as (es & Hrun & Hcount & Hes).
    exists (c :: es). cbn [encryptChunks drawSeed]. rewrite Henc, Hrun.
    split; [|split; [cbn; lia | constructor; assumption]].
    cbn. f_equal. unfold advance. cbn. f_equal. lia.
Qed.

Lemma frame_size (L : Z) (es : list bytes) :
  Forall (fun e => byteLength e = L) es ->
  byteLength (flattenArrays (lengthPrefixed es)) = Z.of_nat (length es) * (4 + L).
Proof.
  induction 1 as [|e es He _ IH]; [reflexivity|].
  rewrite frame_cons. unfold byteLength in *. rewrite !length_app.
  cbn [length setUint32_le]. lia.
Qed.

(** X2. With a public key under which every chunk encrypts to a
    ciphertext of [L] bytes (the length of the modulus), [encryptAudio]
    returns a payload of [ceil(n / 190) * (4 + L)] bytes for an input of
    [n] bytes, and has drawn one seed per chunk. In particular an input
    of at most 190 bytes is wrapped as a single chunk, and the empty
    input as the empty payload. *)
Theorem encryptAudio_size (this : CryptoService) (pub : JsonWebKey) (L : Z)
    (audioData : bytes) (r : Csprng) :
  (forall seed m, 0 < byteLength m <= MAX_CHUNK_SIZE ->
     exists c, rsa_oaep_encrypt (useNative this) pub seed m = Some c
               /\ byteLength c = L) ->
  exists wrapped r',
    encryptAudio this audioData pub r = (Ok wrapped, r')
    /\ byteLength wrapped = (byteLength audioData + 189) / 190 * (4 + L)
    /\ Z.of_nat (rnd_pos r') = Z.of_nat (rnd_pos r) + (byteLength audioData + 189) / 190.
Proof.
  intros Hkey.
  destruct (splitChunks_sizes (length audioData) audioData 0 [])
    as (chunks & Hsplit & Hcount & Hall); [lia | unfold byteLength; lia |].
  cbn [app] in Hsplit.
  replace (Z.max 0 (byteLength audioData - 0)) with (byteLength audioData) in Hcount
    by (unfold byteLength; lia).
  destruct (encryptChunks_sized (useNative this) pub L chunks Hkey Hall r)
    as (es & Hrun & Hlen & Hes).
  exists (flattenArrays (lengthPrefixed es)), (advance (length chunks) r).
  split; [|split].
  - unfold encryptAudio. rewrite Hsplit.
    destruct (useNative this); rewrite Hrun; reflexivity.
  - rewrite (frame_size L es Hes), Hlen, Hcount. reflexivity.
  - cbn [advance rnd_pos]. rewrite <- Hcount. lia.
Qed.

Lemma decryptAudio_encryptAudio (tx rx : CryptoService) (kp : KeyPair)
    (pub : JsonWebKey) (k : bytes) (r : Csprng) :
  keyPair rx = Some kp ->
  MatchingKeyPair (useNative tx) (useNative rx) pub (privateKey kp) ->
  exists wrapped r',
    encryptAudio tx k pub r = (Ok wrapped, r') /\ decryptAudio rx wrapped = Ok k.
Proof.
  intros Hkp Hpair.
  destruct (splitChunks_spec (length k) k 0 []) as (chunks & Hsplit & Hcat & Hsz);
    [lia | unfold byteLength; lia |].
  simpl in Hsplit, Hcat.
  destruct (encryptChunks_matching _ _ _ _ chunks Hpair Hsz r)
    as (es & r' & Henc & Hes).
  exists (flattenArrays (lengthPrefixed es)), r'. split.
  - unfold encryptAudio. rewrite Hsplit.
    destruct (useNative tx); rewrite Henc; reflexivity.
  - assert (Hparse : fst (parseChunks (length (flattenArrays (lengthPrefixed es)))
                            (flattenArrays (lengthPrefixed es)) 0 [] []) = Ok es).
    { apply (parseChunks_frames es [] _ [] []).
      - eapply Forall2_Forall_r; [exact Hes|].
        apply Forall_forall. intros m _ e (_ & Hlen & _). exact Hlen.
      - apply frame_length. }
    assert (Hdec : decryptChunks (useNative rx) (privateKey kp) es = Ok chunks).
    { apply decryptChunks_inverse.
      eapply Forall2_impl; [exact Hes|]. intros m e (_ & _ & Hd). exact Hd. }
    unfold decryptAudio. rewrite Hkp, Hparse. cbn [mbind outcome_bind].
    destruct (useNative rx); rewrite Hdec; cbn; unfold flattenArrays;
      rewrite Hcat; reflexivity.
Qed.

(** X3. The session-key exchange is a round trip through export and
    import: for a session key whose raw bytes the sender exports, and a
    matching RSA pair, [encryptSessionKey] returns a payload and
    [decryptSessionKey] of that payload is [importSessionKey] of the
    same raw bytes. On node-forge the receiver's key is the raw bytes
    themselves; on Web Crypto it is what [importKey] makes of them, and
    the import failing is the only way the exchange fails. *)
Theorem decryptSessionKey_encryptSessionKey (tx rx : CryptoService) (kp : KeyPair)
    (pub : JsonWebKey) (key : SessionKey) (raw : bytes) (r : Csprng) :
  keyPair rx = Some kp ->
  MatchingKeyPair (useNative tx) (useNative rx) pub (privateKey kp) ->
  exportSessionKey tx key = Ok raw ->
  exists wrapped r',
    encryptSessionKey tx key pub r = (Ok wrapped, r')
    /\ decryptSessionKey rx wrapped = importSessionKey rx raw
    /\ (useNative rx = false -> decryptSessionKey rx wrapped = Ok (RawKey raw))
    /\ (useNative rx = true ->
        decryptSessionKey rx wrapped
        = match subtle_importKey raw with
          | Some k => Ok (NativeKey k)
          | None => Throw DataError
          end).
Proof.
  intros Hkp Hpair Hexport.
  destruct (decryptAudio_encryptAudio tx rx kp pub raw r Hkp Hpair)
    as (wrapped & r' & Hwrap & Hunwrap).
  exists wrapped, r'. unfold encryptSessionKey, decryptSessionKey.
  rewrite Hexport, Hunwrap. split; [exact Hwrap|]. split; [reflexivity|].
  unfold importSessionKey. split; intros ->; cbn; [reflexivity|].
  destruct (subtle_importKey raw); reflexivity.
Qed.

Lemma decryptChunks_fails (native : bool) (priv : PrivateKey) (cs : list bytes) :
  Exists (fun c => rsa_oaep_decrypt native priv c = None) cs ->
  decryptChunks native priv cs = Throw OperationError.
Proof.
  induction 1 as [c cs Hc | c cs _ IH]; cbn [decryptChunks].
  - rewrite Hc. reflexivity.
  - destruct (rsa_oaep_decrypt native priv c); [|reflexivity].
    cbn. rewrite IH. reflexivity.
Qed.

(** X4. [decryptAudio] returns all of the plaintext or none of it: on a
    well-framed payload in which some chunk does not decrypt under the
    private key (wrong key, corruption), the call throws, whatever the
    other chunks decrypt to; no partial plaintext is returned. *)
Theorem decryptAudio_all_or_nothing (rx : CryptoService) (kp : KeyPair)
    (encryptedChunks : list bytes) :
  keyPair rx = Some kp ->
  Forall (fun c => byteLength c < 2 ^ 32) encryptedChunks ->
  Exists (fun c => rsa_oaep_decrypt (useNative rx) (privateKey kp) c = None)
    encryptedChunks ->
  exists err,
    decryptAudio rx (flattenArrays (lengthPrefixed encryptedChunks)) = Throw err.
Proof.
  intros Hkp Hlen Hbad. exists OperationError. unfold decryptAudio. rewrite Hkp.
  pose proof (parseChunks_frames encryptedChunks [] _ [] [] Hlen
                (frame_length encryptedChunks)) as Hparse.
  change ([] ++ flattenArrays (lengthPrefixed encryptedChunks))
    with (flattenArrays (lengthPrefixed encryptedChunks)) in Hparse.
  change (byteLength []) with 0 in Hparse. rewrite Hparse. cbn [mbind outcome_bind app].
  destruct (useNative rx); rewrite (decryptChunks_fails _ _ _ Hbad); reflexivity.
Qed.

End WrappedKeys.

(* ===================================================================== *)
(** * More on negotiation: answers and candidates *)
(* ===================================================================== *)

Section AnswersAndCandidates.
Context `{T : Transport}.
Import Signaling.

Ltac run_manager :=
  repeat first
    [ progress cbn beta iota zeta delta
        [fst snd this world pcState socketState trace makingOffer ignoreOffer polite
         peerId roomId userId username isSettingRemoteAnswerPending pc negb andb orb] in *
    | progress unfold mbind, mret, JS_bind, JS_ret, try_catch_finally, try_finally,
        try_catch, gets, modify, skip,
        set_makingOffer, set_ignoreOffer, set_isSettingRemoteAnswerPending,
        setLocalDescription, setRemoteDescription, addIceCandidate, callPc, emit,
        localDescriptionPayload, id in * ].

(** X5. [handleAnswer] always completes and leaves
    [isSettingRemoteAnswerPending] false, also when it was true on entry
    (the answer is then dropped, and the guard of the invocation that
    set it is released with it). It calls nothing when the guard is set
    or the connection is stable; otherwise it makes exactly one call,
    [setRemoteDescription(answer)], whose rejection is swallowed. The
    other fields of the manager and the socket are not touched. *)
Theorem handleAnswer_guarded (answer : Description) (s : State) :
  exists s',
    handleAnswer answer s = (Ok tt, s')
    /\ isSettingRemoteAnswerPending (this s') = false
    /\ (isSettingRemoteAnswerPending (this s) = true
        \/ signalingState (pcState (world s)) = stable ->
        world s' = world s)
    /\ (isSettingRemoteAnswerPending (this s) = false ->
        signalingState (pcState (world s)) <> stable ->
        trace (world s') = trace (world s) ++ [SetRemoteDescription answer]
        /\ pcState (world s')
           = match pc_setRemoteDescription answer (pcState (world s)) with
             | inr pc' => pc'
             | inl _ => pcState (world s)
             end)
    /\ socketState (world s') = socketState (world s)
    /\ makingOffer (this s') = makingOffer (this s)
    /\ ignoreOffer (this s') = ignoreOffer (this s)
    /\ polite (this s') = polite (this s).
Proof.
  destruct s as [m w]. unfold handleAnswer. run_manager.
  destruct (isSettingRemoteAnswerPending m) eqn:Hpending; run_manager.
  { eexists. split; [reflexivity|]. run_manager.
    repeat split; try reflexivity; intros; try congruence;
      try (destruct w; reflexivity). }
  case_bool_decide as Hstable; run_manager.
  { eexists. split; [reflexivity|]. run_manager.
    repeat split; try reflexivity; intros; try congruence;
      try (destruct w; reflexivity). }
  destruct (pc_setRemoteDescription answer (pcState w)) as [e|pc'] eqn:Hrem;
    run_manager; (eexists; split; [reflexivity|]); run_manager;
    repeat split; try reflexivity; intros;
    repeat match goal with H : _ \/ _ |- _ => destruct H end; congruence.
Qed.

(** X6. Candidates in both directions. [handleIceCandidate] always
    completes: it makes one call, [addIceCandidate(candidate)], keeps
    the connection as it was if the call rejects, and changes neither
    the manager nor the socket. [onicecandidate] sends nothing for the
    end-of-candidates event ([candidate] null); for a candidate it
    emits one [ice-candidate] message addressed to the manager's peer,
    and completes unless [emit] throws. *)
Theorem candidates_relayed (candidate : Candidate) (s : State) :
  (exists s',
     handleIceCandidate candidate s = (Ok tt, s')
     /\ this s' = this s
     /\ trace (world s') = trace (world s) ++ [AddIceCandidate candidate]
     /\ socketState (world s') = socketState (world s)
     /\ pcState (world s')
        = match pc_addIceCandidate candidate (pcState (world s)) with
          | inr pc' => pc'
          | inl _ => pcState (world s)
          end)
  /\ onicecandidate None s = (Ok tt, s)
  /\ (exists s',
        onicecandidate (Some candidate) s
        = (match socket_emit "ice-candidate"
                   (CandidatePayload (roomId (this s)) (peerId (this s)) candidate)
                   (socketState (world s)) with
           | inr _ => Ok tt
           | inl e => Throw e
           end, s')
        /\ this s' = this s
        /\ pcState (world s') = pcState (world s)
        /\ trace (world s')
           = trace (world s)
             ++ [Emit "ice-candidate"
                   (CandidatePayload (roomId (this s)) (peerId (this s)) candidate)]).
Proof.
  destruct s as [m w]. split; [|split].
  - unfold handleIceCandidate. run_manager.
    destruct (pc_addIceCandidate candidate (pcState w)) as [e|pc'] eqn:Hadd;
      run_manager; (eexists; split; [reflexivity|]); run_manager;
      repeat split; reflexivity.
  - reflexivity.
  - unfold onicecandidate. run_manager.
    destruct (socket_emit "ice-candidate" _ (socketState w)) as [e|sock'];
      run_manager; (eexists; split; [reflexivity|]); run_manager;
      repeat split; reflexivity.
Qed.

End AnswersAndCandidates.

(* ===================================================================== *)
(** * More on the voice engine: channels, handshake, audio, teardown *)
(* ===================================================================== *)

Section MoreEngineFacts.
Context `{CB : CryptoBackend}.
Variable cryptoService : CryptoService.
Variable jsonLength : bytes -> bytes -> bytes -> Z.
Variable aboveSpeakingThreshold : bytes -> bool.
Import Engine.

#[local] Abbreviation onmessage :=
  (Engine.onmessage cryptoService jsonLength aboveSpeakingThreshold).
#[local] Abbreviation onopen := (Engine.onopen cryptoService jsonLength).
#[local] Abbreviation broadcastEncryptedAudio :=
  (Engine.broadcastEncryptedAudio cryptoService jsonLength).
#[local] Abbreviation broadcastLoop := (Engine.broadcastLoop cryptoService jsonLength).
#[local] Abbreviation broadcastTo := (Engine.broadcastTo cryptoService jsonLength).

Ltac run_engine :=
  repeat first
    [ progress cbn beta iota zeta delta
        [fst snd peerConnections dataChannels signalingManagers peerSessionKeys
         secureChannels audioNodes peerSpeakingState peerMuteState currentRoom
         engineUserId engineUsername audioContext connections channels nextRef
         random uiEvents playback
         upd_peerConnections upd_dataChannels upd_signalingManagers
         upd_peerSessionKeys upd_secureChannels upd_audioNodes
         upd_peerSpeakingState upd_peerMuteState upd_audioContext
         upd_connections upd_channels upd_nextRef upd_random upd_uiEvents
         upd_playback
         pc_publicKey pc_closeCalled pc_ondatachannel
         readyState bufferedAmount sent handlers
         type payload iv data keyMessage keyAckMessage audioMessage] in *
    | progress unfold mbind, mret, JS_bind, JS_ret, try_catch_finally, try_finally,
        try_catch, gets, modify, skip, throw, lift, notify, emitSecurityEvent,
        withConnection, withChannel, withRandom, id in *
    | rewrite lookup_insert_eq in * ].

Ltac branch :=
  match goal with
  | |- context [match ?x with _ => _ end] =>
      match x with
      | context [match _ with _ => _ end] => fail 1
      | _ => destruct x eqn:?
      end
  | |- context [if ?b then _ else _] =>
      match b with
      | context [if _ then _ else _] => fail 1
      | context [match _ with _ => _ end] => fail 1
      | _ => destruct b eqn:?
      end
  end.

Ltac run_branches := run_engine; repeat (branch; run_engine).

Lemma decryptSessionKey_terminates (wrapped : bytes) :
  decryptSessionKey cryptoService wrapped <> OutOfFuel.
Proof.
  unfold decryptSessionKey, importSessionKey.
  destruct (decryptAudio_terminates cryptoService wrapped) as [Hfuel _].
  destruct (decryptAudio cryptoService wrapped) as [raw|err|]; cbn; [|discriminate|congruence].
  destruct (useNative cryptoService); [|discriminate].
  destruct (subtle_importKey raw); cbn; discriminate.
Qed.

Lemma encryptSessionKey_terminates (key : SessionKey) (pub : JsonWebKey) (r : Csprng) :
  fst (encryptSessionKey cryptoService key pub r) <> OutOfFuel.
Proof.
  unfold encryptSessionKey.
  destruct (exportSessionKey cryptoService key) as [raw|err|] eqn:Hexp.
  - apply encryptAudio_terminates.
  - discriminate.
  - unfold exportSessionKey, orThrow in Hexp.
    destruct (useNative cryptoService), key as [k|k]; try discriminate.
    destruct (subtle_exportKey k); discriminate.
Qed.

Lemma decryptAudioAES_terminates (sealed : bytes) (key : SessionKey) :
  decryptAudioAES cryptoService sealed key <> OutOfFuel.
Proof.
  unfold decryptAudioAES, orThrow. cbv zeta.
  destruct (useNative cryptoService), key as [k|k]; try discriminate.
  - destruct (subtle_aes_gcm_decrypt _ _ _); discriminate.
  - destruct (forge_aes_gcm_decrypt _ _ _ _) as [[pt|]|]; cbn; discriminate.
Qed.

Lemma encryptAudioAES_terminates (frame : bytes) (key : SessionKey) (r : Csprng) :
  fst (encryptAudioAES cryptoService frame key r) <> OutOfFuel.
Proof.
  unfold encryptAudioAES, orThrow. cbn [getRandomValues].
  destruct (useNative cryptoService), key as [k|k]; cbn [fst]; try discriminate.
  - destruct (subtle_aes_gcm_encrypt _ _ _); cbn; discriminate.
  - destruct (forge_aes_gcm_encrypt _ _ _) as [[c t]|]; cbn; discriminate.
Qed.

(** X7. [onopen] always completes without an exception and never
    touches [secureChannels]. It starts a key exchange only on the
    initiating side, only when a public key is attached to the peer's
    connection, and only when no session key is stored for the peer: in
    every other case the engine is left exactly as it was, so a stored
    key is never replaced when a channel opens. When it does start the
    exchange, the generated key is stored for the peer, and it stays
    stored even if wrapping the key or sending the [key] message
    fails. *)
Theorem onopen_exchange (dataChannel : nat) (peerId : string) (isInitiator : bool)
    (e : VoiceEngine) :
  let e' := snd (onopen dataChannel peerId isInitiator e) in
  fst (onopen dataChannel peerId isInitiator e) = Ok tt
  /\ secureChannels e' = secureChannels e
  /\ (isInitiator = false
      \/ is_Some (peerSessionKeys e !! peerId)
      \/ publicKeyOf e peerId = None ->
      e' = e)
  /\ (isInitiator = true ->
      peerSessionKeys e !! peerId = None ->
      is_Some (publicKeyOf e peerId) ->
      peerSessionKeys e' =
        <[peerId := fst (generateSessionKey cryptoService (random e))]>
          (peerSessionKeys e)).
Proof.
  unfold Engine.onopen, publicKeyOf, Engine.dc_send.
  destruct isInitiator.
  2: { cbn zeta. repeat split; try reflexivity. intros [=]. }
  run_engine.
  match goal with
  | |- context [match ?x with _ => _ end] => destruct x as [pub|] eqn:Hpub
  end.
  2: { repeat split; try reflexivity. intros _ _ [x [=]]. }
  destruct (peerSessionKeys e !! peerId) as [k|] eqn:Hk.
  { repeat split; try reflexivity. intros _ [=]. }
  run_engine.
  destruct (generateSessionKey cryptoService (random e)) as [key r1] eqn:Hgen.
  run_engine.
  pose proof (encryptSessionKey_terminates key pub r1) as Hfuel.
  destruct (encryptSessionKey cryptoService key pub r1) as [[wrapped|err|] r2];
    cbn [fst] in Hfuel; [| |congruence]; run_engine.
  - destruct (channels e !! dataChannel) as [obj|]; run_engine.
    + destruct (bool_decide (readyState obj = dc_open)); run_engine;
        repeat split; try reflexivity;
        intros [Hf | [[k' Hk'] | Hn]]; discriminate.
    + repeat split; try reflexivity;
        intros [Hf | [[k' Hk'] | Hn]]; discriminate.
  - repeat split; try reflexivity;
      intros [Hf | [[k' Hk'] | Hn]]; discriminate.
Qed.

(** X10. Whatever arrives on a data channel, [onmessage] completes
    without an exception: text that is not JSON, an unknown message
    type, a [key] payload that cannot be unwrapped, an [audio] frame
    that does not authenticate. A message that is not JSON or whose
    type is none of [key], [key-ack], [audio] leaves the engine exactly
    as it was. *)
Theorem onmessage_never_throws (dataChannel : nat) (peerId : string)
    (event : option Message) (e : VoiceEngine) :
  fst (onmessage dataChannel peerId event e) = Ok tt
  /\ (match event with
      | None => True
      | Some msg => type msg <> "key" /\ type msg <> "key-ack" /\ type msg <> "audio"
      end ->
      snd (onmessage dataChannel peerId event e) = e).
Proof.
  unfold Engine.onmessage, Engine.handleIncomingAudio, Engine.playAudio,
    Engine.dc_send, orThrow.
  destruct event as [msg|]; run_engine; [|split; reflexivity].
  destruct (String.eqb_spec (type msg) "key") as [Hkey|Hkey].
  { split; [|intros (H & _); contradiction]. run_engine.
    pose proof (decryptSessionKey_terminates (payload msg)) as Hfuel.
    destruct (decryptSessionKey cryptoService (payload msg)) as [k|err|];
      [| |congruence]; run_engine; [|reflexivity].
    destruct (channels e !! dataChannel) as [obj|]; run_engine; [|reflexivity].
    destruct (bool_decide (readyState obj = dc_open)); run_engine; reflexivity. }
  destruct (String.eqb_spec (type msg) "key-ack") as [Hack|Hack].
  { split; [reflexivity|intros (_ & H & _); contradiction]. }
  destruct (String.eqb_spec (type msg) "audio") as [Haudio|Haudio].
  2: { split; reflexivity. }
  split; [|intros (_ & _ & H); contradiction]. run_engine.
  destruct (peerSessionKeys e !! peerId) as [k|]; run_engine; [|reflexivity].
  pose proof (decryptAudioAES_terminates (iv msg ++ data msg) k) as Hfuel.
  destruct (decryptAudioAES cryptoService (iv msg ++ data msg) k) as [pt|err|];
    [| |congruence]; run_engine; [|reflexivity].
  destruct (byteLength pt mod 4 =? 0); run_engine; [|reflexivity].
  destruct (negb _); run_engine;
    destruct (audioContext e) as [[[rejection|]|]|]; run_engine; try reflexivity;
    destruct (byteLength pt / 4 =? 0); run_engine; reflexivity.
Qed.

(** X11. An [audio] message that cannot be played is dropped without a
    trace: when the stored session key does not open the frame
    ([decryptAudioAES] throws: a forged or corrupted frame, a frame
    sealed under another key), or when the opened bytes are not a whole
    number of 4-byte samples, the handler completes and the engine is
    exactly as it was: nothing is queued for playback, the speaking
    state is not touched, the interface is not told. *)
Theorem audio_message_dropped (dataChannel : nat) (peerId : string) (msg : Message)
    (k : SessionKey) (e : VoiceEngine) :
  type msg = "audio" ->
  peerSessionKeys e !! peerId = Some k ->
  (exists err, decryptAudioAES cryptoService (iv msg ++ data msg) k = Throw err)
  \/ (exists opened, decryptAudioAES cryptoService (iv msg ++ data msg) k = Ok opened
                     /\ byteLength opened mod 4 <> 0) ->
  onmessage dataChannel peerId (Some msg) e = (Ok tt, e).
Proof.
  intros Htype Hk Hbad.
  unfold Engine.onmessage, Engine.handleIncomingAudio, orThrow. run_engine.
  rewrite Htype. cbn [String.eqb Ascii.eqb Bool.eqb]. run_engine.
  rewrite Hk. run_engine.
  destruct Hbad as [[err ->] | (opened & -> & Hsize)]; run_engine; [reflexivity|].
  destruct (Z.eqb_spec (byteLength opened mod 4) 0) as [H0|_]; [contradiction|].
  reflexivity.
Qed.

(** X12. A [key] message that fails. If the payload cannot be unwrapped
    with the engine's private key, the handler completes and the engine
    is exactly as it was: no key stored, no [key-ack] sent, the peer not
    acknowledged. If the payload unwraps but the channel is not open
    when the [key-ack] is to be sent, the new key has already been
    stored and stays stored, while [secureChannels], the channel and
    the interface events are as before. *)
Theorem key_message_failures (dataChannel : nat) (peerId : string) (msg : Message)
    (e : VoiceEngine) :
  type msg = "key" ->
  (forall err, decryptSessionKey cryptoService (payload msg) = Throw err ->
     onmessage dataChannel peerId (Some msg) e = (Ok tt, e))
  /\ (forall k obj,
        decryptSessionKey cryptoService (payload msg) = Ok k ->
        channels e !! dataChannel = Some obj ->
        readyState obj <> dc_open ->
        onmessage dataChannel peerId (Some msg) e
        = (Ok tt, upd_peerSessionKeys (insert peerId k) e)).
Proof.
  intros Htype. split.
  - intros err Hdec.
    unfold Engine.onmessage, orThrow. run_engine.
    rewrite Htype. cbn [String.eqb Ascii.eqb Bool.eqb]. run_engine.
    rewrite Hdec. reflexivity.
  - intros k obj Hdec Hchan Hclosed.
    unfold Engine.onmessage, Engine.dc_send, orThrow. run_engine.
    rewrite Htype. cbn [String.eqb Ascii.eqb Bool.eqb]. run_engine.
    rewrite Hdec. run_engine. rewrite Hchan.
    rewrite bool_decide_eq_false_2 by exact Hclosed. reflexivity.
Qed.

(** X22. A frame that opens but cannot be played. When the stored key
    opens an [audio] message to a whole number of samples, and the
    frame is empty ([createBuffer] throws for a length of zero), or
    there is no audio context, or the context is suspended and
    [resume()] rejects, the handler completes without an exception and
    nothing is queued for playback and no gain node is made; the
    peer's speaking state has been brought up to date all the same,
    and the keys and [secureChannels] are as before. *)
Theorem unplayable_frame_not_played (dataChannel : nat) (peerId : string)
    (msg : Message) (k : SessionKey) (opened : bytes) (e : VoiceEngine) :
  type msg = "audio" ->
  peerSessionKeys e !! peerId = Some k ->
  decryptAudioAES cryptoService (iv msg ++ data msg) k = Ok opened ->
  byteLength opened mod 4 = 0 ->
  opened = []
  \/ audioContext e = None
  \/ (exists rejection, audioContext e = Some (suspended (Some rejection))) ->
  exists e',
    onmessage dataChannel peerId (Some msg) e = (Ok tt, e')
    /\ playback e' = playback e
    /\ audioNodes e' = audioNodes e
    /\ default false (peerSpeakingState e' !! peerId) = aboveSpeakingThreshold opened
    /\ peerSessionKeys e' = peerSessionKeys e
    /\ secureChannels e' = secureChannels e.
Proof.
  intros Htype Hk Hopen Hsize Hcase.
  unfold Engine.onmessage, Engine.handleIncomingAudio, Engine.playAudio, orThrow.
  run_engine.
  rewrite Htype. cbn [String.eqb Ascii.eqb Bool.eqb]. run_engine.
  rewrite Hk. run_engine. rewrite Hopen. run_engine.
  rewrite Hsize. cbn [Z.eqb]. run_engine.
  match goal with
  | |- context [negb (eqb ?speaks ?spoke)] => destruct (eqb speaks spoke) eqn:Hflip
  end; cbn [negb]; run_engine;
    try apply eqb_prop in Hflip;
    destruct Hcase as [Hcase | [Hctx | [rejection Hctx]]];
    try rewrite Hctx; try rewrite Hcase in *; run_engine;
    try (destruct (audioContext e) as [[[rejection|]|]|]; run_engine);
    (eexists; split; [reflexivity|]); run_engine;
    repeat split; try reflexivity; symmetry; exact Hflip.
Qed.

Lemma onlyAudioAdded_refl (obj : RTCDataChannel) : onlyAudioAdded obj obj.
Proof.
  repeat split; try reflexivity. exists []. rewrite app_nil_r. split; [reflexivity|constructor].
Qed.

Lemma onlyAudioAdded_trans (a b c : RTCDataChannel) :
  onlyAudioAdded a b -> onlyAudioAdded b c -> onlyAudioAdded a c.
Proof.
  intros (Hs1 & Hh1 & (m1 & Hm1 & Ha1) & Hq1) (Hs2 & Hh2 & (m2 & Hm2 & Ha2) & Hq2).
  split; [congruence|]. split; [congruence|]. split.
  - exists (m1 ++ m2). rewrite Hm2, Hm1, app_assoc. split; [reflexivity|].
    apply Forall_app; split; assumption.
  - intros Hquiet. pose proof (Hq1 Hquiet) as ->. apply Hq2. exact Hquiet.
Qed.

Lemma broadcastTo_step (audioData : bytes) (peerId : string) (dataChannel : nat)
    (e : VoiceEngine) :
  (peerId ∈ secureChannels e -> is_Some (channels e !! dataChannel)) ->
  exists e',
    broadcastTo audioData peerId dataChannel e = (Ok tt, e')
    /\ sameLinks e e'
    /\ (forall d obj, channels e !! d = Some obj ->
          exists obj', channels e' !! d = Some obj' /\ onlyAudioAdded obj obj').
Proof.
  intros Hheap.
  assert (Hsame : forall e0 : VoiceEngine, sameLinks e0 e0)
    by (intros e0; repeat split; reflexivity).
  assert (Hkeep : forall d obj, channels e !! d = Some obj ->
            exists obj', channels e !! d = Some obj' /\ onlyAudioAdded obj obj')
    by (intros d obj Hd; exists obj; split; [exact Hd | apply onlyAudioAdded_refl]).
  unfold Engine.broadcastTo, Engine.dc_send. run_engine.
  case_bool_decide as Hsec; run_engine.
  2: { eexists. split; [reflexivity|]. split; [apply Hsame | exact Hkeep]. }
  destruct (Hheap Hsec) as [obj Hchan]. rewrite Hchan.
  destruct (bool_decide (readyState obj = dc_open)) eqn:Hopen; cbn [andb].
  2: { eexists. split; [reflexivity|]. split; [apply Hsame | exact Hkeep]. }
  apply bool_decide_eq_true_1 in Hopen.
  destruct (Z.ltb_spec (bufferedAmount obj) 16384) as [Hroom|Hfull].
  2: { eexists. split; [reflexivity|]. split; [apply Hsame | exact Hkeep]. }
  destruct (peerSessionKeys e !! peerId) as [sessionKey|] eqn:Hkey.
  2: { eexists. split; [reflexivity|]. split; [apply Hsame | exact Hkeep]. }
  run_engine.
  pose proof (encryptAudioAES_terminates audioData sessionKey (random e)) as Hfuel.
  destruct (encryptAudioAES cryptoService audioData sessionKey (random e))
    as [[sealed|err|] r'] eqn:Henc; cbn [fst] in Hfuel; [| |congruence]; run_engine.
  2: { eexists. split; [reflexivity|]. split; [repeat split; reflexivity | exact Hkeep]. }
  rewrite Hchan. run_engine. rewrite bool_decide_eq_true_2 by exact Hopen. run_engine.
  eexists. split; [reflexivity|]. split; [repeat split; reflexivity|].
  run_engine. intros d obj0 Hd.
  destruct (decide (d = dataChannel)) as [->|Hne].
  - rewrite lookup_insert_eq. eexists. split; [reflexivity|].
    rewrite Hchan in Hd. injection Hd as <-.
    split; [reflexivity|]. split; [reflexivity|]. split.
    + eexists. split; [reflexivity|]. repeat constructor.
    + intros [Hno|Hno]; [contradiction | cbn in Hno; lia].
  - rewrite lookup_insert_ne by congruence. exists obj0.
    split; [exact Hd | apply onlyAudioAdded_refl].
Qed.

Lemma broadcastLoop_steps (audioData : bytes) (entries : list (string * nat)) :
  forall e : VoiceEngine,
    (forall p dc, In (p, dc) entries -> p ∈ secureChannels e ->
       is_Some (channels e !! dc)) ->
    exists e',
      broadcastLoop audioData entries e = (Ok tt, e')
      /\ sameLinks e e'
      /\ (forall d obj, channels e !! d = Some obj ->
            exists obj', channels e' !! d = Some obj' /\ onlyAudioAdded obj obj').
Proof.
  induction entries as [|[peerId dataChannel] entries IH]; intros e Hheap.
  - exists e. split; [reflexivity|]. split; [repeat split; reflexivity|].
    intros d obj Hd. exists obj. split; [exact Hd | apply onlyAudioAdded_refl].
  - cbn [Engine.broadcastLoop]. unfold mbind, JS_bind.
    destruct (broadcastTo_step audioData peerId dataChannel e) as (e1 & Hrun & Hsame & Hch).
    { apply Hheap. left. reflexivity. }
    rewrite Hrun.
    destruct (IH e1) as (e2 & Hrun2 & Hsame2 & Hch2).
    { intros p dc Hin Hsec.
      destruct Hsame as (_ & _ & _ & _ & Hs & _). rewrite Hs in Hsec.
      destruct (Hheap p dc (or_intror Hin) Hsec) as [obj Hobj].
      destruct (Hch dc obj Hobj) as (obj' & Hobj' & _). eexists. exact Hobj'. }
    exists e2. split; [exact Hrun2|]. split.
    + destruct Hsame as (H1 & H2 & H3 & H4 & H5 & H6 & H7 & H8).
      destruct Hsame2 as (G1 & G2 & G3 & G4 & G5 & G6 & G7 & G8).
      repeat split; congruence.
    + intros d obj Hd. destruct (Hch d obj Hd) as (obj1 & Hd1 & Hadd1).
      destruct (Hch2 d obj1 Hd1) as (obj2 & Hd2 & Hadd2).
      exists obj2. split; [exact Hd2 | exact (onlyAudioAdded_trans _ _ _ Hadd1 Hadd2)].
Qed.

(** X13. Broadcasting a frame is safe for everything but the channels'
    out-queues. With every registered channel of an acknowledged peer
    present, [broadcastEncryptedAudio] completes without an exception
    (failures to seal or to send are swallowed per peer and the loop
    goes on), and afterwards the links, session keys, acknowledged
    peers, interface events and playback queue are as before; every
    channel object is still there in the same state, has gained nothing
    but [audio] messages, and has gained nothing at all if it was not
    open or was congested (16384 bytes or more buffered). *)
Theorem broadcast_only_adds_audio (audioData : bytes) (e : VoiceEngine) :
  (forall p dc, In (p, dc) (dataChannels e) -> p ∈ secureChannels e ->
     is_Some (channels e !! dc)) ->
  exists e',
    broadcastEncryptedAudio audioData e = (Ok tt, e')
    /\ sameLinks e e'
    /\ (forall d obj, channels e !! d = Some obj ->
          exists obj', channels e' !! d = Some obj' /\ onlyAudioAdded obj obj').
Proof.
  intros Hheap. unfold Engine.broadcastEncryptedAudio. run_engine.
  apply broadcastLoop_steps. exact Hheap.
Qed.

Lemma Map_get_delete_ne {V} (k k' : string) (m : list (string * V)) :
  k' <> k -> Map_get k' (Map_delete k m) = Map_get k' m.
Proof.
  intros Hne. induction m as [|[k0 v0] m IH]; simpl; [reflexivity|].
  destruct (String.eqb_spec k k0) as [->|Hk]; simpl.
  - destruct (String.eqb_spec k' k0); [contradiction | reflexivity].
  - destruct (String.eqb_spec k' k0); [reflexivity | exact IH].
Qed.

(** X14. [user-left] for a linked peer, with the link's objects in
    place: the handler completes; the peer's connection has been closed
    and its entry removed; its channel is no longer open, has sent
    nothing more, and its entry is removed; the peer's speaking and mute
    states and audio node are gone; the interface is told once, last.
    Nothing of any other peer is touched: the other entries of the
    maps, the other connections and the other channels are as before. *)
Theorem user_left_tears_down_one_link (data : UserEvent) (socketId : string)
    (e : VoiceEngine) (r d : nat) (conn : RTCPeerConnection) (chan : RTCDataChannel) :
  truthy (ev_socketId data) = Some socketId ->
  peerConnections e !! socketId = Some r ->
  connections e !! r = Some conn ->
  Map_get socketId (dataChannels e) = Some d ->
  channels e !! d = Some chan ->
  exists e' conn' chan',
    on_user_left data e = (Ok tt, e')
    /\ peerConnections e' !! socketId = None
    /\ connections e' !! r = Some conn' /\ pc_closeCalled conn' = true
    /\ dataChannels e' = Map_delete socketId (dataChannels e)
    /\ channels e' !! d = Some chan'
    /\ readyState chan' <> dc_open /\ sent chan' = sent chan
    /\ peerSpeakingState e' !! socketId = None
    /\ peerMuteState e' !! socketId = None
    /\ (socketId ∉ audioNodes e')
    /\ uiEvents e' =
         uiEvents e
         ++ [ParticipantLeft (ev_userId data) (orUnknown (ev_username data)) socketId]
    /\ (forall q, q <> socketId ->
          peerConnections e' !! q = peerConnections e !! q
          /\ Map_get q (dataChannels e') = Map_get q (dataChannels e)
          /\ peerSpeakingState e' !! q = peerSpeakingState e !! q
          /\ peerMuteState e' !! q = peerMuteState e !! q)
    /\ (forall r', r' <> r -> connections e' !! r' = connections e !! r')
    /\ (forall d', d' <> d -> channels e' !! d' = channels e !! d').
Proof.
  intros Hid Hr Hconn Hd Hchan.
  unfold on_user_left, closePeerConnection, pc_close, dc_close. rewrite Hid.
  run_engine. rewrite Hr. run_engine. rewrite Hconn. run_engine.
  rewrite Hd. run_engine. rewrite Hchan. run_engine.
  eexists. eexists. eexists. split; [reflexivity|]. run_engine.
  split; [apply lookup_delete_eq|].
  split; [reflexivity|]. split; [reflexivity|]. split; [reflexivity|].
  split; [reflexivity|]. split; [cbn; destruct (readyState chan); discriminate|].
  split; [reflexivity|].
  split; [rewrite lookup_delete_eq; reflexivity|].
  split; [apply lookup_delete_eq|].
  split.
  { intros Hin. apply elem_of_difference in Hin. destruct Hin as [_ Hnot].
    apply Hnot, elem_of_singleton. reflexivity. }
  split; [reflexivity|].
  split.
  { intros q Hq. rewrite !lookup_delete_ne by congruence.
    rewrite Map_get_delete_ne by exact Hq. repeat split; reflexivity. }
  split.
  - intros r' Hr'. apply lookup_insert_ne. congruence.
  - intros d' Hd'. apply lookup_insert_ne. congruence.
Qed.

End MoreEngineFacts.

Section Handshake.
Context `{CB : CryptoBackend}.
Variables initiatorService receiverService : CryptoService.
Variable jsonLength : bytes -> bytes -> bytes -> Z.
Variable aboveSpeakingThreshold : bytes -> bool.
Import Engine.

Ltac run_engine :=
  repeat first
    [ progress cbn beta iota zeta delta
        [fst snd peerConnections dataChannels signalingManagers peerSessionKeys
         secureChannels audioNodes peerSpeakingState peerMuteState currentRoom
         engineUserId engineUsername audioContext connections channels nextRef
         random uiEvents playback
         upd_peerConnections upd_dataChannels upd_signalingManagers
         upd_peerSessionKeys upd_secureChannels upd_audioNodes
         upd_peerSpeakingState upd_peerMuteState upd_audioContext
         upd_connections upd_channels upd_nextRef upd_random upd_uiEvents
         upd_playback
         pc_publicKey pc_closeCalled pc_ondatachannel
         readyState bufferedAmount sent handlers
         type payload iv data keyMessage keyAckMessage audioMessage] in *
    | progress unfold mbind, mret, JS_bind, JS_ret, try_catch_finally, try_finally,
        try_catch, gets, modify, skip, throw, lift, notify, emitSecurityEvent,
        withConnection, withChannel, withRandom, id in *
    | rewrite lookup_insert_eq in * ].

(** X8. The key handshake, end to end. The initiator holds the peer's
    public key and no session key, the receiver holds the matching
    private key, both channels are open, and the generated key exports
    to bytes the receiver can import. Then: the initiator's [onopen]
    stores the generated key and sends one [key] message, without
    marking the peer secure; the receiver's handler of that message
    stores the imported key, marks the initiator secure and sends one
    [key-ack]; the initiator's handler of the [key-ack] marks the peer
    secure and keeps its key. Both ends then hold the same raw key. *)
Theorem key_handshake (eA eB : VoiceEngine) (pA pB : string) (dA dB : nat)
    (objA objB : RTCDataChannel) (pub : JsonWebKey) (kp : KeyPair)
    (raw : bytes) (keyB : SessionKey) :
  let key := fst (generateSessionKey initiatorService (random eA)) in
  publicKeyOf eA pB = Some pub ->
  peerSessionKeys eA !! pB = None ->
  channels eA !! dA = Some objA -> readyState objA = dc_open ->
  channels eB !! dB = Some objB -> readyState objB = dc_open ->
  keyPair receiverService = Some kp ->
  MatchingKeyPair (useNative initiatorService) (useNative receiverService) pub
    (privateKey kp) ->
  exportSessionKey initiatorService key = Ok raw ->
  importSessionKey receiverService raw = Ok keyB ->
  exists wrapped eA1 eB1 eA2 objA1 objB1,
    Engine.onopen initiatorService jsonLength dA pB true eA = (Ok tt, eA1)
    /\ peerSessionKeys eA1 !! pB = Some key
    /\ secureChannels eA1 = secureChannels eA
    /\ channels eA1 !! dA = Some objA1
    /\ sent objA1 = sent objA ++ [keyMessage wrapped]
    /\ Engine.onmessage receiverService jsonLength aboveSpeakingThreshold dB pA
         (Some (keyMessage wrapped)) eB = (Ok tt, eB1)
    /\ peerSessionKeys eB1 !! pA = Some keyB
    /\ pA ∈ secureChannels eB1
    /\ channels eB1 !! dB = Some objB1
    /\ sent objB1 = sent objB ++ [keyAckMessage]
    /\ Engine.onmessage initiatorService jsonLength aboveSpeakingThreshold dA pB
         (Some keyAckMessage) eA1 = (Ok tt, eA2)
    /\ pB ∈ secureChannels eA2
    /\ peerSessionKeys eA2 !! pB = Some key.
Proof.
  intros key Hpub Hnokey HchanA HopenA HchanB HopenB Hkp Hpair Hexport Himport.
  destruct (generateSessionKey initiatorService (random eA)) as [key' r1] eqn:Hgen.
  subst key. cbn [fst] in *.
  destruct (decryptAudio_encryptAudio initiatorService receiverService kp pub raw r1
              Hkp Hpair) as (wrapped & r2 & Hwrap & Hunwrap).
  assert (Henc : encryptSessionKey initiatorService key' pub r1 = (Ok wrapped, r2)).
  { unfold encryptSessionKey. rewrite Hexport. exact Hwrap. }
  assert (Hdec : decryptSessionKey receiverService wrapped = Ok keyB).
  { unfold decryptSessionKey. rewrite Hunwrap. exact Himport. }
  exists wrapped.
  (* the initiator's onopen *)
  assert (HA1 : exists eA1 objA1,
             Engine.onopen initiatorService jsonLength dA pB true eA = (Ok tt, eA1)
             /\ peerSessionKeys eA1 !! pB = Some key'
             /\ secureChannels eA1 = secureChannels eA
             /\ channels eA1 !! dA = Some objA1
             /\ sent objA1 = sent objA ++ [keyMessage wrapped]).
  { unfold Engine.onopen, publicKeyOf, Engine.dc_send in *. run_engine.
    rewrite Hpub, Hnokey. run_engine. rewrite Hgen. run_engine.
    rewrite Henc. run_engine. rewrite HchanA. run_engine.
    rewrite HopenA, bool_decide_eq_true_2 by reflexivity. run_engine.
    eexists. eexists. split; [reflexivity|]. run_engine.
    repeat split; reflexivity. }
  destruct HA1 as (eA1 & objA1 & HrunA & HkeyA & HsecA & HchanA1 & HsentA).
  exists eA1.
  (* the receiver's key message *)
  assert (HB1 : exists eB1 objB1,
             Engine.onmessage receiverService jsonLength aboveSpeakingThreshold dB pA
               (Some (keyMessage wrapped)) eB = (Ok tt, eB1)
             /\ peerSessionKeys eB1 !! pA = Some keyB
             /\ pA ∈ secureChannels eB1
             /\ channels eB1 !! dB = Some objB1
             /\ sent objB1 = sent objB ++ [keyAckMessage]).
  { unfold Engine.onmessage, Engine.dc_send, orThrow. run_engine.
    cbn [String.eqb Ascii.eqb Bool.eqb]. run_engine.
    rewrite Hdec. run_engine. rewrite HchanB. run_engine.
    rewrite HopenB, bool_decide_eq_true_2 by reflexivity. run_engine.
    eexists. eexists. split; [reflexivity|]. run_engine.
    split; [reflexivity|]. split; [apply elem_of_union_r, elem_of_singleton; reflexivity|]. split; reflexivity. }
  destruct HB1 as (eB1 & objB1 & HrunB & HkeyB & HsecB & HchanB1 & HsentB).
  exists eB1.
  (* the initiator's key-ack *)
  assert (HA2 : exists eA2,
             Engine.onmessage initiatorService jsonLength aboveSpeakingThreshold dA pB
               (Some keyAckMessage) eA1 = (Ok tt, eA2)
             /\ pB ∈ secureChannels eA2
             /\ peerSessionKeys eA2 !! pB = Some key').
  { unfold Engine.onmessage, orThrow. run_engine.
    cbn [String.eqb Ascii.eqb Bool.eqb]. run_engine.
    eexists. split; [reflexivity|]. run_engine. split; [apply elem_of_union_r, elem_of_singleton; reflexivity | exact HkeyA]. }
  destruct HA2 as (eA2 & HrunA2 & HsecA2 & HkeyA2).
  exists eA2, objA1, objB1. repeat split; assumption.
Qed.

End Handshake.

Lemma slice_sliceFrom (a : bytes) (n : Z) :
  0 <= n -> slice a 0 n ++ sliceFrom a n = a.
Proof.
  intros Hn. unfold sliceFrom, slice, relativeIndex, byteLength.
  change (0 <? 0) with false. cbv iota.
  destruct (Z.ltb_spec n 0) as [Hlt|_]; [lia|].
  destruct (Z.ltb_spec (Z.of_nat (length a)) 0) as [Hlt|_]; [lia|].
  set (k := Z.to_nat (Z.min n (Z.of_nat (length a)))).
  replace (Z.to_nat (Z.min 0 (Z.of_nat (length a)))) with 0%nat by lia.
  replace (Z.to_nat (Z.min n (Z.of_nat (length a)) - Z.min 0 (Z.of_nat (length a))))
    with k by lia.
  replace (Z.to_nat (Z.min (Z.of_nat (length a)) (Z.of_nat (length a))
                     - Z.min n (Z.of_nat (length a))))
    with (length a - k)%nat by lia.
  cbn [drop].
  rewrite (take_ge (drop k a)) by (rewrite length_drop; lia).
  apply take_drop.
Qed.

Section AudioPath.
Context `{CB : CryptoBackend}.
Variables senderService receiverService : CryptoService.
Variable jsonLength : bytes -> bytes -> bytes -> Z.
Variable aboveSpeakingThreshold : bytes -> bool.
Import Engine.

Ltac run_engine :=
  repeat first
    [ progress cbn beta iota zeta delta
        [fst snd peerConnections dataChannels signalingManagers peerSessionKeys
         secureChannels audioNodes peerSpeakingState peerMuteState currentRoom
         engineUserId engineUsername audioContext connections channels nextRef
         random uiEvents playback
         upd_peerConnections upd_dataChannels upd_signalingManagers
         upd_peerSessionKeys upd_secureChannels upd_audioNodes
         upd_peerSpeakingState upd_peerMuteState upd_audioContext
         upd_connections upd_channels upd_nextRef upd_random upd_uiEvents
         upd_playback
         pc_publicKey pc_closeCalled pc_ondatachannel
         readyState bufferedAmount sent handlers
         type payload iv data keyMessage keyAckMessage audioMessage] in *
    | progress unfold mbind, mret, JS_bind, JS_ret, try_catch_finally, try_finally,
        try_catch, gets, modify, skip, throw, lift, notify, emitSecurityEvent,
        withConnection, withChannel, withRandom, id in *
    | rewrite lookup_insert_eq in * ].

(** X9. One audio frame from microphone to loudspeaker. The sender has
    the peer acknowledged, a session key for it and an open, uncongested
    channel, and [encryptAudioAES] seals the frame; the receiver holds a
    key under which [decryptAudioAES] opens that buffer, the frame is a
    non-empty whole number of 4-byte samples, and the receiver's audio
    context is running or resumes. Then the sender's turn of the
    broadcast loop sends exactly one message, of type [audio], carrying
    the first 12 bytes of the sealed buffer as [iv] and the rest as
    [data]; the receiver's handler of that message reassembles the
    sealed buffer, queues the frame for playback under the sender's
    identifier with the context running, records whether the peer
    speaks, and tells the interface only when that changed. *)
Theorem audio_frame_delivered (eA eB : VoiceEngine) (pA pB : string) (dA dB : nat)
    (objA : RTCDataChannel) (kA kB : SessionKey) (frame sealed : bytes)
    (r' : Csprng) :
  pB ∈ secureChannels eA ->
  channels eA !! dA = Some objA ->
  readyState objA = dc_open ->
  bufferedAmount objA < 16384 ->
  peerSessionKeys eA !! pB = Some kA ->
  encryptAudioAES senderService frame kA (random eA) = (Ok sealed, r') ->
  peerSessionKeys eB !! pA = Some kB ->
  decryptAudioAES receiverService sealed kB = Ok frame ->
  byteLength frame mod 4 = 0 ->
  frame <> [] ->
  audioContext eB = Some running \/ audioContext eB = Some (suspended None) ->
  let message :=
    {| type := "audio"; payload := []; iv := slice sealed 0 12;
       data := sliceFrom sealed 12 |} in
  let speaks := aboveSpeakingThreshold frame in
  let spoke := default false (peerSpeakingState eB !! pA) in
  exists eA1 objA1 eB1,
    Engine.broadcastTo senderService jsonLength frame pB dA eA = (Ok tt, eA1)
    /\ channels eA1 !! dA = Some objA1
    /\ sent objA1 = sent objA ++ [message]
    /\ random eA1 = r'
    /\ iv message ++ data message = sealed
    /\ Engine.onmessage receiverService jsonLength aboveSpeakingThreshold dB pA
         (Some message) eB = (Ok tt, eB1)
    /\ playback eB1 = playback eB ++ [(pA, frame)]
    /\ audioContext eB1 = Some running
    /\ pA ∈ audioNodes eB1
    /\ default false (peerSpeakingState eB1 !! pA) = speaks
    /\ uiEvents eB1 =
         uiEvents eB ++ (if eqb speaks spoke then [] else [PeerSpeakingChange pA speaks])
    /\ peerSessionKeys eB1 = peerSessionKeys eB
    /\ secureChannels eB1 = secureChannels eB.
Proof.
  intros Hsec HchanA Hopen Hbuf HkA Hseal HkB Hopens Hsize Hsome Hctx message speaks spoke.
  assert (Hwhole : slice sealed 0 12 ++ sliceFrom sealed 12 = sealed)
    by (apply slice_sliceFrom; lia).
  assert (Hlen : (byteLength frame / 4 =? 0) = false).
  { apply Z.eqb_neq. unfold byteLength in *. destruct frame; [contradiction|].
    cbn [length] in *. Z.to_euclidean_division_equations. lia. }
  assert (HA : exists eA1 objA1,
             Engine.broadcastTo senderService jsonLength frame pB dA eA = (Ok tt, eA1)
             /\ channels eA1 !! dA = Some objA1
             /\ sent objA1 = sent objA ++ [message]
             /\ random eA1 = r').
  { unfold Engine.broadcastTo, Engine.dc_send. run_engine.
    rewrite bool_decide_eq_true_2 by exact Hsec. rewrite HchanA.
    rewrite Hopen, bool_decide_eq_true_2 by reflexivity.
    replace (bufferedAmount objA <? 16384) with true by (symmetry; apply Z.ltb_lt; exact Hbuf).
    cbn [andb]. rewrite HkA. run_engine. rewrite Hseal. run_engine.
    rewrite HchanA. run_engine. rewrite Hopen, bool_decide_eq_true_2 by reflexivity.
    run_engine. eexists. eexists. split; [reflexivity|]. run_engine.
    repeat split; reflexivity. }
  destruct HA as (eA1 & objA1 & HrunA & HchanA1 & HsentA & Hrnd).
  exists eA1, objA1.
  assert (HB : exists eB1,
             Engine.onmessage receiverService jsonLength aboveSpeakingThreshold dB pA
               (Some message) eB = (Ok tt, eB1)
             /\ playback eB1 = playback eB ++ [(pA, frame)]
             /\ audioContext eB1 = Some running
             /\ pA ∈ audioNodes eB1
             /\ default false (peerSpeakingState eB1 !! pA) = speaks
             /\ uiEvents eB1 =
                  uiEvents eB
                  ++ (if eqb speaks spoke then [] else [PeerSpeakingChange pA speaks])
             /\ peerSessionKeys eB1 = peerSessionKeys eB
             /\ secureChannels eB1 = secureChannels eB).
  { unfold Engine.onmessage, Engine.handleIncomingAudio, Engine.playAudio, orThrow.
    subst message. run_engine. cbn [String.eqb Ascii.eqb Bool.eqb]. run_engine.
    rewrite HkB. run_engine. rewrite Hwhole, Hopens. run_engine.
    rewrite Hsize. cbn [Z.eqb]. run_engine. fold speaks. fold spoke.
    destruct (eqb speaks spoke) eqn:Hflip; cbn [negb]; run_engine;
      destruct Hctx as [Hctx|Hctx]; rewrite Hctx; run_engine;
      rewrite Hlen; run_engine;
      (eexists; split; [reflexivity|]); run_engine;
      rewrite ?app_nil_r;
      repeat split; try reflexivity;
      try (apply elem_of_union_r, elem_of_singleton; reflexivity);
      try (symmetry; apply eqb_prop; exact Hflip);
      exact Hctx. }
  destruct HB as (eB1 & HrunB & Hplay & Hctx1 & Hnode & Hspeak & Hui & Hkeys & Hsecs).
  exists eB1. repeat split; assumption.
Qed.

End AudioPath.

(* ===================================================================== *)
(** * The participants list and relay routing *)
(* ===================================================================== *)

Section RoomFacts.
Context `{CB : CryptoBackend}.
Import Engine.

Ltac run_engine :=
  repeat first
    [ progress cbn beta iota zeta delta
        [fst snd peerConnections dataChannels signalingManagers peerSessionKeys
         secureChannels audioNodes peerSpeakingState peerMuteState currentRoom
         engineUserId engineUsername audioContext connections channels nextRef
         random uiEvents playback
         upd_peerConnections upd_dataChannels upd_signalingManagers
         upd_peerSessionKeys upd_secureChannels upd_audioNodes
         upd_peerSpeakingState upd_peerMuteState upd_audioContext
         upd_connections upd_channels upd_nextRef upd_random upd_uiEvents
         upd_playback
         pc_publicKey pc_closeCalled pc_ondatachannel
         readyState bufferedAmount sent handlers] in *
    | progress unfold mbind, mret, JS_bind, JS_ret, try_catch_finally, try_finally,
        try_catch, gets, modify, skip, throw, lift, notify, emitSecurityEvent,
        withConnection, withChannel, id in *
    | rewrite lookup_insert_eq in * ].

(** [createPeerConnection] does not touch the identity of the engine. *)
Lemma createPeerConnection_identity (peerId : string) (odileId username : option string)
    (publicKey : option JsonWebKey) (isInitiator : bool) (e : VoiceEngine) :
  let e' := snd (createPeerConnection peerId odileId username publicKey isInitiator e) in
  currentRoom e' = currentRoom e
  /\ engineUserId e' = engineUserId e
  /\ engineUsername e' = engineUsername e.
Proof.
  unfold createPeerConnection, newRTCPeerConnection, setupDataChannel,
    createDataChannel.
  destruct isInitiator; run_engine; repeat split; reflexivity.
Qed.

Lemma createLinks_spec (ownSocketId : option string) (participants : list Room.Participant) :
  forall e : VoiceEngine,
    exists e',
      Room.createLinks ownSocketId participants e = (Ok tt, e')
      /\ nextRef e' =
           (nextRef e + 2 * length (remoteSocketIds ownSocketId participants))%nat
      /\ currentRoom e' = currentRoom e
      /\ engineUserId e' = engineUserId e
      /\ engineUsername e' = engineUsername e
      /\ peerSessionKeys e' = peerSessionKeys e
      /\ secureChannels e' = secureChannels e
      /\ (forall s, s ∈ remoteSocketIds ownSocketId participants -> initiatorLink e' s)
      /\ (forall q, q ∉ remoteSocketIds ownSocketId participants ->
            peerConnections e' !! q = peerConnections e !! q
            /\ signalingManagers e' !! q = signalingManagers e !! q
            /\ Map_get q (dataChannels e') = Map_get q (dataChannels e))
      /\ (forall r, (r < nextRef e)%nat ->
            connections e' !! r = connections e !! r
            /\ channels e' !! r = channels e !! r).
Proof.
  induction participants as [|participant rest IH]; intros e.
  - exists e. split; [reflexivity|]. cbn. rewrite Nat.add_0_r.
    repeat split; try reflexivity. intros s Hs. apply elem_of_nil in Hs. contradiction.
  - cbn [Room.createLinks]. unfold remoteSocketIds in *. cbn [omap list_omap].
    destruct (Room.isRemote ownSocketId participant) as [socketId|] eqn:Hremote.
    2: { unfold mbind at 1, JS_bind, skip, mret, JS_ret. apply IH. }
    destruct (createPeerConnection_spec socketId (Room.part_id participant)
                (Some (orUnknown (Room.part_username participant)))
                (Room.part_publicKey participant) true e)
      as (e1 & Hrun & Hpcs & Hmgr & Hconn & Hdcs & Hchan & Hnext & Hkeys & Hsec).
    pose proof (createPeerConnection_identity socketId (Room.part_id participant)
                  (Some (orUnknown (Room.part_username participant)))
                  (Room.part_publicKey participant) true e) as Hids.
    rewrite Hrun in Hids. cbn [snd] in Hids.
    destruct Hids as (Hroom & Huser & Hname).
    destruct (IH e1)
      as (e2 & Hrun2 & Hnext2 & Hroom2 & Huser2 & Hname2 & Hkeys2 & Hsec2 & Hlinks
          & Hframe & Hheap).
    exists e2. split.
    { unfold mbind, JS_bind, skip, mret, JS_ret. rewrite Hrun. cbn. exact Hrun2. }
    split; [rewrite Hnext2, Hnext; cbn [length]; lia|].
    split; [congruence|]. split; [congruence|]. split; [congruence|].
    split; [congruence|]. split; [congruence|]. split; [|split].
    + intros s Hs.
      destruct (decide (s ∈ omap (Room.isRemote ownSocketId) rest)) as [Hin|Hout];
        [apply Hlinks; exact Hin|].
      apply elem_of_cons in Hs. destruct Hs as [->|Hs]; [|contradiction].
      destruct (Hframe socketId Hout) as (Hp & Hm & Hd).
      destruct (Hheap (nextRef e)) as [Hc0 _]; [rewrite Hnext; lia|].
      destruct (Hheap (S (nextRef e))) as [_ Hc1]; [rewrite Hnext; lia|].
      exists (nextRef e), (S (nextRef e)). eexists. eexists.
      rewrite Hp, Hm, Hd, Hc0, Hc1, Hpcs, Hmgr, Hconn, Hdcs, Hchan, Hroom2, Huser2, Hname2.
      rewrite !lookup_insert_eq, Map_get_set, String.eqb_refl.
      rewrite Hroom, Huser, Hname.
      repeat split; try reflexivity; rewrite Hnext2, Hnext; lia.
    + intros q Hq. apply not_elem_of_cons in Hq. destruct Hq as [Hne Hq].
      destruct (Hframe q Hq) as (Hp & Hm & Hd).
      rewrite Hp, Hm, Hd, Hpcs, Hmgr, Hdcs.
      rewrite !lookup_insert_ne by congruence. rewrite Map_get_set.
      destruct (String.eqb_spec q socketId); [contradiction|].
      repeat split; reflexivity.
    + intros r Hr. destruct (Hheap r) as [Hc Hd]; [rewrite Hnext; lia|].
      rewrite Hc, Hd, Hconn, Hchan.
      rewrite !lookup_insert_ne by lia. split; reflexivity.
Qed.

(** X15. [room-participants], received by the engine that has just
    joined. The handler completes; every listed participant with a
    socket id other than the engine's own gets a link the engine
    initiates: a new connection, a manager in the impolite role (the
    counterpart of the polite manager [user-joined] gives the members
    already there), and a data channel of the engine's making. The
    engine's own entry and entries without a socket id are skipped, and
    the links of peers that are not listed stay as they were. Two
    objects are allocated per link; no session key is made yet. A
    payload without a participants array leaves the engine as it
    was. *)
Theorem room_participants_links (ownSocketId : option string)
    (participants : list Room.Participant) (e : VoiceEngine) :
  Room.on_room_participants ownSocketId None e = (Ok tt, e)
  /\ exists e',
      Room.on_room_participants ownSocketId (Some participants) e = (Ok tt, e')
      /\ (forall s, s ∈ remoteSocketIds ownSocketId participants -> initiatorLink e' s)
      /\ (forall s, s ∈ remoteSocketIds ownSocketId participants ->
            s <> "" /\ Some s <> ownSocketId)
      /\ (forall q, q ∉ remoteSocketIds ownSocketId participants ->
            peerConnections e' !! q = peerConnections e !! q
            /\ signalingManagers e' !! q = signalingManagers e !! q
            /\ Map_get q (dataChannels e') = Map_get q (dataChannels e))
      /\ nextRef e' =
           (nextRef e + 2 * length (remoteSocketIds ownSocketId participants))%nat
      /\ peerSessionKeys e' = peerSessionKeys e
      /\ secureChannels e' = secureChannels e.
Proof.
  split; [reflexivity|].
  destruct (createLinks_spec ownSocketId participants e)
    as (e' & Hrun & Hnext & _ & _ & _ & Hkeys & Hsec & Hlinks & Hframe & _).
  exists e'. split.
  { unfold Room.on_room_participants, try_catch. rewrite Hrun. reflexivity. }
  split; [exact Hlinks|]. split.
  { intros s Hs. unfold remoteSocketIds in Hs. apply list_elem_of_omap in Hs.
    destruct Hs as (participant & _ & Hremote). revert Hremote.
    unfold Room.isRemote, truthy.
    destruct (Room.part_socketId participant) as [k|]; [|discriminate].
    destruct (String.eqb_spec k "") as [Hk|Hk]; [discriminate|].
    case_bool_decide as Hown; [discriminate|].
    intros [= <-]. split; assumption. }
  split; [exact Hframe|]. split; [exact Hnext|]. split; assumption.
Qed.

End RoomFacts.

Section NodeFacts.
Context `{CB : CryptoBackend} `{T : Transport}.
Variable newConnectionState : PeerConnection.
Import Engine.

Ltac run_manager :=
  repeat first
    [ progress cbn beta iota zeta delta
        [fst snd Signaling.this Signaling.world Signaling.pcState Signaling.socketState
         Signaling.trace makingOffer ignoreOffer polite
         peerId roomId userId username isSettingRemoteAnswerPending pc negb andb orb] in *
    | progress unfold mbind, mret, JS_bind, JS_ret, try_catch_finally, try_finally,
        try_catch, gets, modify, skip,
        Signaling.set_makingOffer, Signaling.set_ignoreOffer,
        Signaling.set_isSettingRemoteAnswerPending,
        Signaling.setLocalDescription, Signaling.setRemoteDescription,
        Signaling.addIceCandidate, Signaling.callPc, Signaling.emit,
        Signaling.localDescriptionPayload, id in * ].

Ltac branch :=
  match goal with
  | |- context [match ?x with _ => _ end] =>
      match x with
      | context [match _ with _ => _ end] => fail 1
      | _ => destruct x eqn:?
      end
  | |- context [if ?b then _ else _] =>
      match b with
      | context [if _ then _ else _] => fail 1
      | context [match _ with _ => _ end] => fail 1
      | _ => destruct b eqn:?
      end
  end.

Lemma handleOffer_keepsRole (offer : Description) :
  keepsRole (Signaling.handleOffer offer).
Proof.
  intros [m w]. unfold Signaling.handleOffer. run_manager.
  repeat (branch; run_manager); (eexists; split; [reflexivity|]); run_manager;
    repeat split; reflexivity.
Qed.

Lemma handleAnswer_keepsRole (answer : Description) :
  keepsRole (Signaling.handleAnswer answer).
Proof.
  intros [m w]. unfold Signaling.handleAnswer. run_manager.
  repeat (branch; run_manager); (eexists; split; [reflexivity|]); run_manager;
    repeat split; reflexivity.
Qed.

Lemma handleIceCandidate_keepsRole (candidate : Candidate) :
  keepsRole (Signaling.handleIceCandidate candidate).
Proof.
  intros [m w]. unfold Signaling.handleIceCandidate. run_manager.
  repeat (branch; run_manager); (eexists; split; [reflexivity|]); run_manager;
    repeat split; reflexivity.
Qed.

Lemma callManager_keepsRole (from : string) (m : SignalingManager)
    (method : JS Signaling.State unit) (n : Node.Node) :
  keepsRole method ->
  exists n',
    try_catch (Node.callManager from m method) (fun error => skip) n = (Ok tt, n')
    /\ (n' = n \/ managerUpdated from m n n').
Proof.
  intros Hkeeps. unfold try_catch, Node.callManager, skip, mret, JS_ret.
  destruct (Node.transports n !! pc m) as [st|].
  2: { exists n. split; [reflexivity | left; reflexivity]. }
  match goal with
  | |- context [method ?s0] => destruct (Hkeeps s0) as (s' & Hrun & Hpc & Hpol & Hpeer)
  end.
  rewrite Hrun. eexists. split; [reflexivity|]. right.
  exists (Signaling.this s'). cbn in *. repeat split; assumption.
Qed.

(** X16. Relay signalling never makes or drops a link for a peer the
    engine already has a manager for, and never acts for a peer it has
    none for (an offer apart). An [answer] or [ice-candidate] whose
    sender is missing or unknown, and an [offer] without a description
    or a sender, leave the node exactly as it was. For a known sender,
    [offer], [answer] and [ice-candidate] all complete (a rejected call
    or a missing connection is swallowed), and the engine afterwards is
    the engine before, except at most for the fields of that sender's
    manager, which keeps its connection, its peer and its role: no
    connection or channel is created, closed or replaced. *)
Theorem signalling_keeps_links (offer answer : Description) (candidate : Candidate)
    (fromUser : option Node.FromUser) (from : string) (n : Node.Node) :
  Node.on_answer answer None n = (Ok tt, n)
  /\ Node.on_ice_candidate candidate None n = (Ok tt, n)
  /\ Node.on_offer newConnectionState None (Some from) fromUser n = (Ok tt, n)
  /\ Node.on_offer newConnectionState (Some offer) None fromUser n = (Ok tt, n)
  /\ Node.on_offer newConnectionState (Some offer) (Some "") fromUser n = (Ok tt, n)
  /\ (signalingManagers (Node.engine n) !! from = None ->
      Node.on_answer answer (Some from) n = (Ok tt, n)
      /\ Node.on_ice_candidate candidate (Some from) n = (Ok tt, n))
  /\ (forall m, signalingManagers (Node.engine n) !! from = Some m ->
      (exists n', Node.on_answer answer (Some from) n = (Ok tt, n')
                  /\ (n' = n \/ managerUpdated from m n n'))
      /\ (exists n', Node.on_ice_candidate candidate (Some from) n = (Ok tt, n')
                     /\ (n' = n \/ managerUpdated from m n n'))
      /\ (from <> "" ->
          exists n', Node.on_offer newConnectionState (Some offer) (Some from) fromUser n
                     = (Ok tt, n')
                     /\ (n' = n \/ managerUpdated from m n n'))).
Proof.
  split; [reflexivity|]. split; [reflexivity|]. split; [reflexivity|].
  split; [reflexivity|]. split; [reflexivity|]. split.
  { intros Hnone. unfold Node.on_answer, Node.on_ice_candidate, try_catch, gets, id,
      mbind, JS_bind, option_bind, skip, mret, JS_ret.
    cbn. rewrite Hnone. split; reflexivity. }
  intros m Hm. split; [|split].
  - pose proof (callManager_keepsRole from m _ n (handleAnswer_keepsRole answer)) as H.
    unfold Node.on_answer, try_catch, gets, id, mbind, JS_bind, option_bind in *.
    cbn. rewrite Hm. exact H.
  - pose proof (callManager_keepsRole from m _ n (handleIceCandidate_keepsRole candidate))
      as H.
    unfold Node.on_ice_candidate, try_catch, gets, id, mbind, JS_bind, option_bind in *.
    cbn. rewrite Hm. exact H.
  - intros Hfrom.
    pose proof (callManager_keepsRole from m _ n (handleOffer_keepsRole offer)) as H.
    unfold Node.on_offer, truthy.
    destruct (String.eqb_spec from "") as [|_]; [contradiction|].
    unfold try_catch, gets, id, mbind, JS_bind, mret, JS_ret in *.
    cbn. rewrite Hm. exact H.
Qed.

(** X17. An [offer] from a peer the engine has no manager for, with a
    new connection starting out [stable]. The handler completes. It
    first creates the link on the answering side: a new connection
    carrying the sender's public key and waiting for the sender's data
    channel, no data channel of its own, and a manager in the polite
    role. That manager then handles the offer: the offer is not ignored
    and nothing is rolled back, the first call is
    [setRemoteDescription(offer)], and when the platform accepts the
    offer and the answer, the calls are exactly
    [setRemoteDescription(offer)], [setLocalDescription()] and one
    [answer] sent to the sender with the answer the connection now
    holds. *)
Theorem offer_from_unknown_peer (offer : Description) (from : string)
    (fromUser : option Node.FromUser) (n : Node.Node) :
  from <> "" ->
  signalingManagers (Node.engine n) !! from = None ->
  signalingState newConnectionState = stable ->
  let e := Node.engine n in
  let r := nextRef e in
  exists n' m,
    Node.on_offer newConnectionState (Some offer) (Some from) fromUser n = (Ok tt, n')
    /\ peerConnections (Node.engine n') !! from = Some r
    /\ signalingManagers (Node.engine n') !! from = Some m
    /\ pc m = r /\ polite m = true /\ ignoreOffer m = false /\ peerId m = from
    /\ connections (Node.engine n') !! r =
         Some {| pc_publicKey := fromUser ≫= Node.from_publicKey;
                 pc_closeCalled := false; pc_ondatachannel := true |}
    /\ dataChannels (Node.engine n') = dataChannels e
    /\ channels (Node.engine n') = channels e
    /\ nextRef (Node.engine n') = S r
    /\ (exists rest,
          Node.calls n' = Node.calls n ++ (from, Signaling.SetRemoteDescription offer) :: rest)
    /\ (forall st1 st2 sock',
          pc_setRemoteDescription offer newConnectionState = inr st1 ->
          pc_setLocalDescription Implicit st1 = inr st2 ->
          let payload :=
            DescriptionPayload (currentRoom e) from (localDescription st2)
              (engineUserId e) (engineUsername e) in
          socket_emit "answer" payload (Node.relay n) = inr sock' ->
          Node.transports n' !! r = Some st2
          /\ Node.relay n' = sock'
          /\ Node.calls n' =
               Node.calls n
               ++ [(from, Signaling.SetRemoteDescription offer);
                   (from, Signaling.SetLocalDescription Implicit);
                   (from, Signaling.Emit "answer" payload)]).
Proof.
  intros Hfrom Hnone Hstable. cbv zeta.
  unfold Node.on_offer.
  set (odileId := fromUser ≫= Node.from_id).
  set (name := fromUser ≫= Node.from_username).
  set (publicKey := fromUser ≫= Node.from_publicKey).
  destruct (createPeerConnection_spec from odileId name publicKey false (Node.engine n))
    as (e1 & Hrun & Hpcs & Hmgr & Hconn & Hdcs & Hchan & Hnext & _).
  pose proof (createPeerConnection_identity from odileId name publicKey false
                (Node.engine n)) as Hids.
  rewrite Hrun in Hids. cbn [snd] in Hids. destruct Hids as (Hroom & Huser & Hname).
  cbn [negb] in *.
  unfold truthy.
  destruct (String.eqb_spec from "") as [|_]; [contradiction|].
  unfold Node.createPeerConnection, Node.onEngine, Node.callManager,
    Signaling.handleOffer.
  unfold try_catch, gets, modify, id, mbind, JS_bind, mret, JS_ret, skip.
  cbn [Node.engine Node.transports Node.relay Node.calls fst snd].
  rewrite Hnone. rewrite Hrun.
  cbn [Node.engine Node.transports Node.relay Node.calls fst snd].
  rewrite Hmgr, lookup_insert_eq.
  cbn [pc newSignalingManager Node.engine Node.transports Node.relay Node.calls].
  rewrite lookup_insert_eq. unfold newSignalingManager.
  run_manager. rewrite Hstable.
  rewrite bool_decide_eq_false_2 by (intros Hne; apply Hne; reflexivity).
  run_manager.
  destruct (pc_setRemoteDescription offer newConnectionState) as [err1|st1] eqn:Hsrd;
    run_manager.
  { eexists. eexists. split; [reflexivity|].
    cbn [Node.engine Node.transports Node.relay Node.calls upd_signalingManagers
         peerConnections signalingManagers connections dataChannels channels nextRef].
    rewrite Hpcs, Hconn, Hdcs, Hchan, Hnext, !lookup_insert_eq.
    do 11 (split; [first [reflexivity | eexists; reflexivity]|]).
    intros st1' st2' sock' [=]. }
  destruct (pc_setLocalDescription Implicit st1) as [err2|st2] eqn:Hsld; run_manager.
  { eexists. eexists. split; [reflexivity|].
    cbn [Node.engine Node.transports Node.relay Node.calls upd_signalingManagers
         peerConnections signalingManagers connections dataChannels channels nextRef].
    rewrite Hpcs, Hconn, Hdcs, Hchan, Hnext, !lookup_insert_eq.
    do 11 (split; [first [reflexivity | eexists; reflexivity]|]).
    intros st1' st2' sock' [= <-]. rewrite Hsld. intros [=]. }
  rewrite ?Hroom, ?Huser, ?Hname.
  match goal with
  | |- context [socket_emit ?ev ?pl ?sock] =>
      destruct (socket_emit ev pl sock) as [err3|sock3] eqn:Hemit
  end; run_manager;
    (eexists; eexists; split; [reflexivity|]);
    cbn [Node.engine Node.transports Node.relay Node.calls upd_signalingManagers
         peerConnections signalingManagers connections dataChannels channels nextRef];
    rewrite Hpcs, Hconn, Hdcs, Hchan, Hnext, !lookup_insert_eq;
    do 11 (split; [first [reflexivity | eexists; reflexivity]|]);
    intros st1' st2' sock' [= <-]; rewrite Hsld; intros [= <-];
    rewrite Hemit; intros [= <-]; repeat split; reflexivity.
Qed.

End NodeFacts.

(* ===================================================================== *)
(** * Speaking detection and the capture worklet *)
(* ===================================================================== *)

Section SpeakingFacts.
Import Speaking.

Lemma detectSpeaking_run (loud : bool) (d : Detector) :
  analyser d = true -> isConnected d = true ->
  (length (speakingHistory d) <= 5)%nat ->
  let all := speakingHistory d ++ [loud] in
  let history := drop (length all - 5) all in
  let state := bool_decide (3 <= loudCount history)%nat in
  detectSpeaking loud d =
    ({| analyser := true; isConnected := true; speakingHistory := history;
        isSpeaking := state;
        notified := notified d ++ (if eqb state (isSpeaking d) then [] else [state]) |},
     true).
Proof.
  intros Han Hco Hlen all history state.
  unfold detectSpeaking. rewrite Han, Hco. cbn [negb orb].
  fold all.
  assert (Hall : length all = S (length (speakingHistory d)))
    by (unfold all; rewrite length_app; cbn; lia).
  assert (Hhist : (if SPEAKING_HISTORY_SIZE <? Z.of_nat (length all) then shift all else all)
                  = history).
  { unfold history, SPEAKING_HISTORY_SIZE, shift.
    destruct (Z.ltb_spec 5 (Z.of_nat (length all))) as [Hgt|Hle].
    - replace (length all - 5)%nat with 1%nat by lia.
      destruct all; reflexivity.
    - replace (length all - 5)%nat with 0%nat by lia. reflexivity. }
  rewrite Hhist.
  assert (Hstate : (SPEAKING_HISTORY_SIZE
                    <=? 2 * Z.of_nat (length (filter (fun b => b = true) history)))
                   = state).
  { unfold state, loudCount, SPEAKING_HISTORY_SIZE.
    destruct (Z.leb_spec 5 (2 * Z.of_nat (length (filter (fun b => b = true) history))));
      [rewrite bool_decide_eq_true_2 by lia | rewrite bool_decide_eq_false_2 by lia];
      reflexivity. }
  rewrite Hstate.
  destruct (eqb state (isSpeaking d)) eqn:Hflip; cbn [negb].
  - apply eqb_prop in Hflip. rewrite <- Hflip, app_nil_r. reflexivity.
  - reflexivity.
Qed.

Lemma window_slides {A} (h rest : list A) :
  drop (length (drop (length h - 5) h ++ rest) - 5) (drop (length h - 5) h ++ rest)
  = drop (length (h ++ rest) - 5) (h ++ rest).
Proof.
  destruct (Nat.le_gt_cases (length h) 5) as [Hle|Hgt].
  - replace (length h - 5)%nat with 0%nat by lia. reflexivity.
  - set (k := (length h - 5)%nat).
    assert (Hk : length (drop k h) = 5%nat) by (rewrite length_drop; lia).
    rewrite !length_app, Hk.
    replace (5 + length rest - 5)%nat with (length rest) by lia.
    replace (length h + length rest - 5)%nat with (k + length rest)%nat by lia.
    rewrite <- drop_drop. f_equal.
    rewrite drop_app_le by lia. reflexivity.
Qed.

(** X18. The speaking detector, running. After any number of readings
    (at least one) the history is the last five readings, older ones
    included while fewer than five have been taken, and [isSpeaking]
    says whether at least three of them were loud (the code's
    [speakingCount >= SPEAKING_HISTORY_SIZE / 2], that is 2.5). The
    loop keeps running: the detector stays as it needs to be for the
    next reading. *)
Theorem speaking_is_majority_of_window (louds : list bool) (d : Detector) :
  analyser d = true -> isConnected d = true ->
  (length (speakingHistory d) <= 5)%nat ->
  louds <> [] ->
  let d' := detectLoop louds d in
  let all := speakingHistory d ++ louds in
  speakingHistory d' = drop (length all - 5) all
  /\ (length (speakingHistory d') <= 5)%nat
  /\ isSpeaking d' = bool_decide (3 <= loudCount (speakingHistory d'))%nat
  /\ analyser d' = true /\ isConnected d' = true.
Proof.
  revert d. induction louds as [|loud rest IH]; intros d Han Hco Hlen Hne;
    [contradiction|].
  cbv zeta. cbn [detectLoop].
  rewrite (detectSpeaking_run loud d Han Hco Hlen). cbv zeta.
  set (h1 := drop (length (speakingHistory d ++ [loud]) - 5) (speakingHistory d ++ [loud])).
  set (d1 := {| analyser := true; isConnected := true; speakingHistory := h1;
                isSpeaking := bool_decide (3 <= loudCount h1)%nat;
                notified := _ |}).
  assert (Hlen1 : (length h1 <= 5)%nat).
  { unfold h1. rewrite length_drop, length_app. cbn. lia. }
  destruct rest as [|loud' rest'].
  - cbn [detectLoop]. cbn [speakingHistory isSpeaking analyser isConnected d1].
    repeat split; try reflexivity. exact Hlen1.
  - destruct (IH d1) as (Hh & Hl & Hs & Ha & Hc);
      [reflexivity | reflexivity | exact Hlen1 | discriminate |].
    cbv zeta in Hh. cbn [speakingHistory d1] in Hh.
    split; [|repeat split; assumption].
    rewrite Hh. unfold h1. rewrite window_slides.
    rewrite <- app_assoc. reflexivity.
Qed.

Lemma default_last_cons {A} (x y b : A) (l : list A) :
  default x (last (b :: l)) = default y (last (b :: l)).
Proof.
  revert b. induction l as [|c l IH]; intros b; [reflexivity|].
  change (last (b :: c :: l)) with (last (c :: l)). apply IH.
Qed.

Lemma detectLoop_notified (louds : list bool) :
  forall d : Detector,
    analyser d = true -> isConnected d = true ->
    (length (speakingHistory d) <= 5)%nat ->
    exists added,
      notified (detectLoop louds d) = notified d ++ added
      /\ flips (isSpeaking d) added
      /\ isSpeaking (detectLoop louds d) = default (isSpeaking d) (last added).
Proof.
  induction louds as [|loud rest IH]; intros d Han Hco Hlen.
  - exists []. cbn. rewrite app_nil_r. repeat split; reflexivity.
  - cbn [detectLoop]. rewrite (detectSpeaking_run loud d Han Hco Hlen). cbv zeta.
    set (h1 := drop (length (speakingHistory d ++ [loud]) - 5) (speakingHistory d ++ [loud])).
    set (state := bool_decide (3 <= loudCount h1)%nat).
    match goal with
    | |- context [detectLoop rest ?x] => set (d1 := x)
    end.
    destruct (IH d1) as (added & Hn & Hf & Hs);
      [reflexivity | reflexivity
       | unfold d1, h1; cbn [speakingHistory]; rewrite length_drop, length_app; cbn; lia |].
    cbn [notified isSpeaking d1] in Hn, Hf, Hs.
    destruct (eqb state (isSpeaking d)) eqn:Hflip.
    + apply eqb_prop in Hflip. exists added.
      rewrite Hn, app_nil_r, <- Hflip. repeat split; assumption.
    + exists (state :: added). rewrite Hn, <- app_assoc. split; [reflexivity|].
      split.
      * cbn [flips]. split; [|exact Hf].
        destruct state, (isSpeaking d); try reflexivity; discriminate.
      * rewrite Hs. destruct added as [|b added]; [reflexivity|].
        change (last (state :: b :: added)) with (last (b :: added)).
        apply default_last_cons.
Qed.

(** X19. What the interface hears from the detector. Over any run of
    readings, [onSpeakingChange] is called only with changes: each
    value notified is the opposite of the one before it, the first the
    opposite of [isSpeaking] at the start, and the last one notified is
    [isSpeaking] at the end (which is unchanged if nothing was
    notified). Without an analyser, or while the engine is not
    connected, a run does nothing and does not ask for another one, so
    no later reading is taken. *)
Theorem speaking_notifications_are_changes (louds : list bool) (d : Detector) :
  (length (speakingHistory d) <= 5)%nat ->
  (exists added,
     notified (detectLoop louds d) = notified d ++ added
     /\ flips (isSpeaking d) added
     /\ isSpeaking (detectLoop louds d) = default (isSpeaking d) (last added))
  /\ (analyser d = false \/ isConnected d = false ->
      detectLoop louds d = d
      /\ forall loud, detectSpeaking loud d = (d, false)).
Proof.
  intros Hlen. split.
  - destruct (analyser d) eqn:Han; [destruct (isConnected d) eqn:Hco|].
    + apply detectLoop_notified; assumption.
    + exists []. rewrite app_nil_r. cbn [flips last default].
      destruct louds as [|loud rest]; [repeat split; reflexivity|].
      cbn [detectLoop]. unfold detectSpeaking. rewrite Han, Hco. cbn.
      repeat split; reflexivity.
    + exists []. rewrite app_nil_r. cbn [flips last default].
      destruct louds as [|loud rest]; [repeat split; reflexivity|].
      cbn [detectLoop]. unfold detectSpeaking. rewrite Han. cbn.
      repeat split; reflexivity.
  - intros Hoff.
    assert (Hrun : forall loud, detectSpeaking loud d = (d, false)).
    { intros loud. unfold detectSpeaking.
      destruct Hoff as [-> | ->]; [reflexivity|].
      destruct (analyser d); reflexivity. }
    split; [|exact Hrun].
    destruct louds as [|loud rest]; [reflexivity|].
    cbn [detectLoop]. rewrite Hrun. reflexivity.
Qed.

End SpeakingFacts.

Section WorkletFacts.
Variable Sample : Type.
Variable zero : Sample.

#[local] Abbreviation process := (Worklet.process Sample).
#[local] Abbreviation processAll := (Worklet.processAll Sample).
#[local] Abbreviation posted := (Worklet.posted Sample).
#[local] Abbreviation bytesWritten := (Worklet.bytesWritten Sample).
#[local] Abbreviation buffer := (Worklet.buffer Sample).
#[local] Abbreviation bufferSize := (Worklet.bufferSize Sample).
#[local] Abbreviation frameCount := (Worklet.frameCount Sample).

Lemma constructor_wellFormed : wellFormed Sample (Worklet.constructor Sample zero).
Proof.
  unfold wellFormed, Worklet.constructor.
  cbn [Worklet.bufferSize Worklet.buffer Worklet.bytesWritten].
  rewrite length_replicate. repeat split; lia.
Qed.

(** One render quantum that fits the buffer. *)
Lemma process_quantum (quantum : list Sample) (this : Worklet.AudioProcessor Sample) :
  wellFormed Sample this ->
  (length quantum <= 2048)%nat ->
  exists this' frames,
    process [[quantum]] this = (Ok true, this')
    /\ wellFormed Sample this'
    /\ frameCount this' = frameCount this + 1
    /\ posted this' = posted this ++ frames
    /\ concat frames ++ pending Sample this' = pending Sample this ++ quantum
    /\ (frames = []
        /\ (quantum = [] \/ bytesWritten this + Z.of_nat (length quantum) < 2048)
        /\ bytesWritten this' = bytesWritten this + Z.of_nat (length quantum)
        \/ frames = [pending Sample this]
           /\ 2048 <= bytesWritten this + Z.of_nat (length quantum)
           /\ bytesWritten this' = Z.of_nat (length quantum)).
Proof.
  intros (Hsize & Hbuf & Hbw) Hfits.
  destruct this as [size buf bw count out].
  unfold wellFormed, pending in *.
  cbn [Worklet.bufferSize Worklet.buffer Worklet.bytesWritten Worklet.frameCount
       Worklet.posted] in *.
  subst size. unfold Worklet.process.
  cbn [Worklet.bufferSize Worklet.buffer Worklet.bytesWritten Worklet.frameCount
       Worklet.posted].
  destruct (Z.ltb_spec 0 (Z.of_nat (length quantum))) as [Hsome|Hnone].
  2: { destruct quantum; [|cbn in Hnone; lia].
       eexists. exists []. split; [reflexivity|].
       cbn [Worklet.bufferSize Worklet.buffer Worklet.bytesWritten Worklet.frameCount
            Worklet.posted concat app length].
       rewrite !app_nil_r. repeat split; try reflexivity; try lia.
       left. split; [reflexivity|]. split; [left; reflexivity | cbn; lia]. }
  destruct (Z.leb_spec 2048 (bw + Z.of_nat (length quantum))) as [Hflush|Hroom];
    cbn [Worklet.bufferSize Worklet.buffer Worklet.bytesWritten Worklet.frameCount
         Worklet.posted];
    unfold Worklet.typedArraySet.
  - replace ((0 <? 0) || (Z.of_nat (length buf) <? 0 + Z.of_nat (length quantum)))
      with false
      by (symmetry; apply orb_false_iff; split;
          [reflexivity | apply Z.ltb_ge; lia]).
    eexists. exists [take (Z.to_nat bw) buf]. split; [reflexivity|].
    cbn [Worklet.bufferSize Worklet.buffer Worklet.bytesWritten Worklet.frameCount
         Worklet.posted].
    split.
    { split; [reflexivity|]. split; [|lia].
      rewrite !length_app, length_take, length_drop. lia. }
    split; [reflexivity|]. split; [reflexivity|]. split.
    { cbn [concat]. rewrite app_nil_r. f_equal.
      change (Z.to_nat 0) with 0%nat. rewrite take_0. cbn [app Nat.add].
      rewrite Z.add_0_l, Nat2Z.id. apply take_app_length. }
    right. split; [reflexivity|]. split; [exact Hflush | lia].
  - replace ((bw <? 0) || (Z.of_nat (length buf) <? bw + Z.of_nat (length quantum)))
      with false
      by (symmetry; apply orb_false_iff; split; apply Z.ltb_ge; lia).
    eexists. exists []. split; [reflexivity|].
    cbn [Worklet.bufferSize Worklet.buffer Worklet.bytesWritten Worklet.frameCount
         Worklet.posted].
    split.
    { split; [reflexivity|]. split; [|lia].
      rewrite !length_app, length_take, length_drop. lia. }
    split; [reflexivity|]. split; [rewrite app_nil_r; reflexivity|]. split.
    { cbn [concat app].
      replace (Z.to_nat (bw + Z.of_nat (length quantum)))
        with (length (take (Z.to_nat bw) buf ++ quantum))
        by (rewrite length_app, length_take; lia).
      rewrite app_assoc. apply take_app_length. }
    left. split; [reflexivity|]. split; [right; exact Hroom | reflexivity].
Qed.

(** X20. The capture worklet loses nothing. Starting from a processor
    as the constructor leaves it (or as earlier calls left it), for any
    sequence of render quanta of at most 2048 samples each, every call
    of [process] returns [true], and the frames posted so far followed
    by the samples still in the buffer are exactly the frames posted
    before, the samples buffered before and the quanta, in order:
    nothing is dropped, repeated or reordered. [frameCount] counts the
    calls. *)
Theorem worklet_preserves_stream (quanta : list (list Sample))
    (this : Worklet.AudioProcessor Sample) :
  wellFormed Sample this ->
  Forall (fun quantum => (length quantum <= 2048)%nat) quanta ->
  exists this',
    processAll quanta this = (Ok true, this')
    /\ wellFormed Sample this'
    /\ concat (posted this') ++ pending Sample this'
       = concat (posted this) ++ pending Sample this ++ concat quanta
    /\ frameCount this' = frameCount this + Z.of_nat (length quanta).
Proof.
  revert this. induction quanta as [|quantum rest IH]; intros this Hwf Hfit.
  - exists this. cbn [Worklet.processAll concat length]. rewrite !app_nil_r, Z.add_0_r.
    split; [reflexivity|]. split; [exact Hwf|]. split; reflexivity.
  - apply Forall_cons in Hfit. destruct Hfit as [Hq Hrest].
    destruct (process_quantum quantum this Hwf Hq)
      as (this1 & frames & Hrun & Hwf1 & Hcount & Hposted & Hstream & _).
    destruct (IH this1 Hwf1 Hrest) as (this2 & Hrun2 & Hwf2 & Hstream2 & Hcount2).
    exists this2. cbn [Worklet.processAll]. rewrite Hrun.
    split; [exact Hrun2|]. split; [exact Hwf2|]. split.
    + rewrite Hstream2, Hposted, concat_app. cbn [concat].
      rewrite <- !app_assoc. f_equal. rewrite !app_assoc. f_equal. exact Hstream.
    + rewrite Hcount2, Hcount. cbn [length]. lia.
Qed.

(** X21. With the render quantum of the Web Audio API, 128 samples, the
    2048-sample buffer is never filled: from a processor as the
    constructor leaves it (or with any whole number of quanta, at most
    fifteen, in the buffer), every frame posted has exactly 1920
    samples, that is fifteen quanta; afterwards the buffer again holds
    a whole number of quanta, at most fifteen and at least one once a
    quantum has been processed; and counted in quanta, what is in the
    buffer plus fifteen per frame posted is what was there plus what
    came in. *)
Theorem worklet_frames_of_1920 (quanta : list (list Sample))
    (this : Worklet.AudioProcessor Sample) :
  wellFormed Sample this ->
  bytesWritten this mod 128 = 0 -> bytesWritten this <= 1920 ->
  Forall (fun quantum => length quantum = 128%nat) quanta ->
  exists this' frames,
    processAll quanta this = (Ok true, this')
    /\ posted this' = posted this ++ frames
    /\ Forall (fun frame => length frame = 1920%nat) frames
    /\ bytesWritten this' mod 128 = 0
    /\ bytesWritten this' <= 1920
    /\ (quanta <> [] -> 128 <= bytesWritten this')
    /\ bytesWritten this' / 128 + 15 * Z.of_nat (length frames)
       = bytesWritten this / 128 + Z.of_nat (length quanta).
Proof.
  revert this. induction quanta as [|quantum rest IH]; intros this Hwf Hmod Hmax Hq.
  - exists this, []. cbn [Worklet.processAll length]. rewrite app_nil_r.
    split; [reflexivity|]. split; [reflexivity|]. split; [constructor|].
    split; [exact Hmod|]. split; [exact Hmax|]. split; [intros H; contradiction|].
    lia.
  - apply Forall_cons in Hq. destruct Hq as [Hlen Hrest].
    destruct (process_quantum quantum this Hwf) as
      (this1 & frames1 & Hrun & Hwf1 & _ & Hposted & _ & Hcase); [lia|].
    assert (Hbuf : length (buffer this) = 2048%nat) by (destruct Hwf as (_ & H & _); exact H).
    assert (Hbw0 : 0 <= bytesWritten this) by (destruct Hwf as (_ & _ & H); lia).
    assert (Hstep : Forall (fun frame => length frame = 1920%nat) frames1
                    /\ bytesWritten this1 mod 128 = 0
                    /\ 128 <= bytesWritten this1 <= 1920
                    /\ bytesWritten this1 / 128 + 15 * Z.of_nat (length frames1)
                       = bytesWritten this / 128 + 1).
    { rewrite Hlen in Hcase.
      destruct Hcase as [(-> & Hroom & Hbw) | (-> & Hflush & Hbw)].
      - destruct Hroom as [-> | Hroom]; [discriminate Hlen|].
        rewrite Hbw. split; [constructor|]. cbn [length].
        revert Hmod Hroom Hmax Hbw0. generalize (bytesWritten this). intros z.
        intros. Z.to_euclidean_division_equations. lia.
      - assert (Hfull : bytesWritten this = 1920) by lia.
        rewrite Hbw. split.
        { constructor; [|constructor]. unfold pending.
          rewrite length_take, Hbuf, Hfull. reflexivity. }
        rewrite Hfull. cbn [length]. repeat split; reflexivity || lia. }
    destruct Hstep as (Hframes1 & Hmod1 & [Hmin1 Hmax1] & Hunits1).
    destruct (IH this1 Hwf1 Hmod1 Hmax1 Hrest)
      as (this2 & frames2 & Hrun2 & Hposted2 & Hframes2 & Hmod2 & Hmax2 & Hmin2 & Hunits2).
    exists this2, (frames1 ++ frames2). cbn [Worklet.processAll]. rewrite Hrun.
    split; [exact Hrun2|]. split; [rewrite Hposted2, Hposted, app_assoc; reflexivity|].
    split; [apply Forall_app; split; assumption|].
    split; [exact Hmod2|]. split; [exact Hmax2|]. split.
    + intros _. destruct rest as [|q rest'].
      * cbn [Worklet.processAll] in Hrun2. injection Hrun2 as <-. exact Hmin1.
      * apply Hmin2. discriminate.
    + rewrite length_app. cbn [length]. lia.
Qed.

End WorkletFacts.

(* ===================================================================== *)
(** * The further statements on the small platform *)
(* ===================================================================== *)

Section MoreOnDemo.
Import Demo DemoMore Engine.
#[local] Existing Instance Demo.backend.
#[local] Existing Instance Demo.transport.

(** X2 on a back end with 256-byte ciphertexts: 200 bytes are wrapped
    as two chunks, 520 bytes. *)
Lemma encryptAudio_size_witness :
  (forall seed m, 0 < byteLength m <= MAX_CHUNK_SIZE ->
     exists c, rsa_encrypt_padded true "*"%byte seed m = Some c /\ byteLength c = 256)
  /\ exists wrapped r',
       encryptAudio (CB := paddedBackend) paddedService twoChunks "*"%byte paddedRng
         = (Ok wrapped, r')
       /\ byteLength wrapped = 520
       /\ rnd_pos r' = 2%nat.
Proof.
  assert (Hlen : forall seed m, 0 < byteLength m <= MAX_CHUNK_SIZE ->
            exists c, rsa_encrypt_padded true "*"%byte seed m = Some c
                      /\ byteLength c = 256).
  { intros seed m [Hpos Hle]. unfold MAX_CHUNK_SIZE in Hle. unfold rsa_encrypt_padded.
    destruct (Z.leb_spec (byteLength m) 190) as [_|Hgt]; [|lia].
    eexists. split; [reflexivity|].
    unfold byteLength in *. cbn [length].
    rewrite length_app, length_rev, length_replicate. lia. }
  split; [exact Hlen|].
  destruct (encryptAudio_size (CB := paddedBackend) paddedService "*"%byte 256 twoChunks
              paddedRng Hlen) as (wrapped & r' & Hrun & Hsize & Hpos).
  exists wrapped, r'. split; [exact Hrun|]. split.
  - rewrite Hsize. reflexivity.
  - change (Z.of_nat (rnd_pos paddedRng)
            + (byteLength twoChunks + 189) / 190) with 2 in Hpos. lia.
Defined.

(** X3 on the small platform: a Web Crypto sender wraps its key [0x07]
    for a node-forge receiver, which ends up with the raw key. *)
Lemma decryptSessionKey_encryptSessionKey_witness :
  let kp := {| publicKey := "*"%byte; privateKey := "*"%byte |} in
  keyPair forgeService = Some kp
  /\ MatchingKeyPair (useNative service) (useNative forgeService) "*"%byte (privateKey kp)
  /\ exportSessionKey service (nativeKey "007"%byte) = Ok ["007"%byte]
  /\ exists wrapped r',
       encryptSessionKey service (nativeKey "007"%byte) "*"%byte rng = (Ok wrapped, r')
       /\ decryptSessionKey forgeService wrapped = Ok (RawKey ["007"%byte]).
Proof.
  intros kp. split; [reflexivity|]. split; [apply demo_matching_pair|].
  split; [reflexivity|].
  destruct (decryptSessionKey_encryptSessionKey service forgeService kp "*"%byte
              (nativeKey "007"%byte) ["007"%byte] rng eq_refl
              (demo_matching_pair true false) eq_refl)
    as (wrapped & r' & Hrun & _ & Hforge & _).
  exists wrapped, r'. split; [exact Hrun | apply Hforge; reflexivity].
Defined.

(** X4 on the small platform: the second of two chunks was encrypted
    for another key. *)
Lemma decryptAudio_all_or_nothing_witness :
  let kp := {| publicKey := "*"%byte; privateKey := "*"%byte |} in
  let chunks := [["*"; "000"; "001"]; ["+"; "000"; "002"]]%byte in
  keyPair service = Some kp
  /\ Forall (fun c => byteLength c < 2 ^ 32) chunks
  /\ Exists (fun c => rsa_oaep_decrypt (useNative service) (privateKey kp) c = None) chunks
  /\ exists err,
       decryptAudio service (flattenArrays (lengthPrefixed chunks)) = Throw err.
Proof.
  intros kp chunks.
  assert (Hlen : Forall (fun c => byteLength c < 2 ^ 32) chunks)
    by (repeat constructor).
  assert (Hbad : Exists (fun c => rsa_oaep_decrypt (useNative service) (privateKey kp) c
                                  = None) chunks)
    by (right; left; reflexivity).
  split; [reflexivity|]. split; [exact Hlen|]. split; [exact Hbad|].
  apply (decryptAudio_all_or_nothing service kp chunks eq_refl Hlen Hbad).
Defined.

(** X8 on the small platform: a Web Crypto initiator and a node-forge
    receiver; both end with the key [0x64], as a [CryptoKey] and as raw
    bytes. *)
Lemma key_handshake_witness :
  let objA := {| readyState := dc_open; bufferedAmount := 0; sent := [];
                 handlers := Some ("p2", true) |} in
  let objB := {| readyState := dc_open; bufferedAmount := 0; sent := [];
                 handlers := Some ("p1", false) |} in
  publicKeyOf engineOpen "p2" = Some "*"%byte
  /\ peerSessionKeys engineOpen !! "p2" = None
  /\ channels engineOpen !! 1%nat = Some objA
  /\ channels engineAnswering !! 1%nat = Some objB
  /\ fst (generateSessionKey service (random engineOpen)) = nativeKey "d"%byte
  /\ exists wrapped eA1 eB1 eA2,
       onopen service jsonLength 1 "p2" true engineOpen = (Ok tt, eA1)
       /\ onmessage forgeService jsonLength aboveSpeakingThreshold 1 "p1"
            (Some (keyMessage wrapped)) engineAnswering = (Ok tt, eB1)
       /\ onmessage service jsonLength aboveSpeakingThreshold 1 "p2"
            (Some keyAckMessage) eA1 = (Ok tt, eA2)
       /\ peerSessionKeys eA2 !! "p2" = Some (nativeKey "d"%byte)
       /\ peerSessionKeys eB1 !! "p1" = Some (RawKey ["d"%byte])
       /\ "p2" ∈ secureChannels eA2
       /\ "p1" ∈ secureChannels eB1.
Proof.
  intros objA objB.
  assert (Hpub : publicKeyOf engineOpen "p2" = Some "*"%byte) by (vm_compute; reflexivity).
  assert (Hnone : peerSessionKeys engineOpen !! "p2" = None) by (vm_compute; reflexivity).
  assert (HchanA : channels engineOpen !! 1%nat = Some objA) by (vm_compute; reflexivity).
  assert (HchanB : channels engineAnswering !! 1%nat = Some objB)
    by (vm_compute; reflexivity).
  split; [exact Hpub|]. split; [exact Hnone|]. split; [exact HchanA|].
  split; [exact HchanB|]. split; [reflexivity|].
  destruct (key_handshake (CB := backend) service forgeService jsonLength aboveSpeakingThreshold
              engineOpen engineAnswering "p1" "p2" 1 1 objA objB
              ("*"%byte : @JsonWebKey backend)
              (@Build_KeyPair backend "*"%byte "*"%byte)
              ["d"%byte] (RawKey ["d"%byte])
              Hpub Hnone HchanA eq_refl HchanB eq_refl eq_refl
              (demo_matching_pair true false) eq_refl eq_refl)
    as (wrapped & eA1 & eB1 & eA2 & objA1 & objB1 & HrunA & _ & _ & _ & _ & HrunB
        & HkeyB & HsecB & _ & _ & HrunA2 & HsecA & HkeyA).
  exists wrapped, eA1, eB1, eA2. repeat split; assumption.
Defined.

(** X9 on the small platform: the secure initiator sends the frame, the
    answering end holding the same key plays it. *)
Lemma audio_frame_delivered_witness :
  let objA := {| readyState := dc_open; bufferedAmount := 68;
                 sent := [keyMessage ["003"; "000"; "000"; "000"; "*"; "e"; "d"]%byte];
                 handlers := Some ("p2", true) |} in
  "p2" ∈ secureChannels engineSecure
  /\ channels engineSecure !! 1%nat = Some objA
  /\ peerSessionKeys engineSecure !! "p2" = Some (nativeKey "d"%byte)
  /\ fst (encryptAudioAES service frame (nativeKey "d"%byte) (random engineSecure))
     = Ok sealedFrame
  /\ peerSessionKeys engineKeyed !! "p1" = Some (nativeKey "d"%byte)
  /\ decryptAudioAES service sealedFrame (nativeKey "d"%byte) = Ok frame
  /\ byteLength frame mod 4 = 0
  /\ frame <> []
  /\ audioContext engineKeyed = Some running
  /\ exists eA1 objA1 eB1,
       broadcastTo service jsonLength frame "p2" 1 engineSecure = (Ok tt, eA1)
       /\ channels eA1 !! 1%nat = Some objA1
       /\ sent objA1
          = sent objA ++ [{| type := "audio"; payload := []; iv := slice sealedFrame 0 12;
                             data := sliceFrom sealedFrame 12 |}]
       /\ onmessage service jsonLength aboveSpeakingThreshold 1 "p1"
            (Some {| type := "audio"; payload := []; iv := slice sealedFrame 0 12;
                     data := sliceFrom sealedFrame 12 |})
            engineKeyed = (Ok tt, eB1)
       /\ playback eB1 = [("p1", frame)]
       /\ uiEvents eB1 = uiEvents engineKeyed ++ [PeerSpeakingChange "p1" true].
Proof.
  intros objA.
  assert (Hsec : "p2" ∈ secureChannels engineSecure)
    by (apply (bool_decide_eq_true_1 _); vm_compute; reflexivity).
  assert (Hchan : channels engineSecure !! 1%nat = Some objA) by (vm_compute; reflexivity).
  assert (HkA : peerSessionKeys engineSecure !! "p2" = Some (nativeKey "d"%byte))
    by (vm_compute; reflexivity).
  assert (Hseal : encryptAudioAES service frame (nativeKey "d"%byte) (random engineSecure)
                  = (Ok sealedFrame,
                     snd (encryptAudioAES service frame (nativeKey "d"%byte)
                            (random engineSecure))))
    by (vm_compute; reflexivity).
  assert (HkB : peerSessionKeys engineKeyed !! "p1" = Some (nativeKey "d"%byte))
    by (vm_compute; reflexivity).
  assert (Hopen : decryptAudioAES service sealedFrame (nativeKey "d"%byte) = Ok frame)
    by (vm_compute; reflexivity).
  split; [exact Hsec|]. split; [exact Hchan|]. split; [exact HkA|].
  assert (Hsome : frame <> []) by discriminate.
  assert (Hctx : audioContext engineKeyed = Some running) by (vm_compute; reflexivity).
  split; [rewrite Hseal; reflexivity|]. split; [exact HkB|]. split; [exact Hopen|].
  split; [reflexivity|]. split; [exact Hsome|]. split; [exact Hctx|].
  destruct (audio_frame_delivered (CB := backend) service service jsonLength
              aboveSpeakingThreshold
              engineSecure engineKeyed "p1" "p2" 1 1 objA
              (nativeKey "d"%byte) (nativeKey "d"%byte) frame sealedFrame _
              Hsec Hchan eq_refl eq_refl HkA Hseal HkB Hopen eq_refl Hsome
              (or_introl Hctx))
    as (eA1 & objA1 & eB1 & HrunA & HchanA1 & Hsent & _ & _ & HrunB & Hplay & _ & _ & _
        & Hui & _).
  exists eA1, objA1, eB1. repeat split; assumption.
Defined.

(** X11 on the small platform: a forged frame, too short to carry a
    tag, is dropped. *)
Lemma audio_message_dropped_witness :
  type forgedAudio = "audio"
  /\ peerSessionKeys engineKeyed !! "p1" = Some (nativeKey "d"%byte)
  /\ decryptAudioAES service (iv forgedAudio ++ data forgedAudio) (nativeKey "d"%byte)
     = Throw OperationError
  /\ onmessage service jsonLength aboveSpeakingThreshold 1 "p1" (Some forgedAudio)
       engineKeyed = (Ok tt, engineKeyed).
Proof.
  assert (Hk : peerSessionKeys engineKeyed !! "p1" = Some (nativeKey "d"%byte))
    by (vm_compute; reflexivity).
  assert (Hbad : decryptAudioAES service (iv forgedAudio ++ data forgedAudio)
                   (nativeKey "d"%byte) = Throw OperationError)
    by (vm_compute; reflexivity).
  split; [reflexivity|]. split; [exact Hk|]. split; [exact Hbad|].
  apply (audio_message_dropped (CB := backend) service jsonLength aboveSpeakingThreshold 1 "p1"
           forgedAudio (nativeKey "d"%byte) engineKeyed eq_refl Hk).
  left. exists OperationError. exact Hbad.
Defined.

(** X12 on the small platform: an empty [key] payload unwraps to no
    bytes, which [importKey] rejects. *)
Lemma key_message_failures_witness :
  type (keyMessage []) = "key"
  /\ decryptSessionKey service (payload (keyMessage [])) = Throw DataError
  /\ onmessage service jsonLength aboveSpeakingThreshold 1 "p1" (Some (keyMessage []))
       engineAnswering = (Ok tt, engineAnswering).
Proof.
  assert (Hdec : decryptSessionKey service (payload (keyMessage [])) = Throw DataError)
    by (vm_compute; reflexivity).
  split; [reflexivity|]. split; [exact Hdec|].
  apply (proj1 (key_message_failures (CB := backend) service jsonLength aboveSpeakingThreshold 1 "p1"
                  (keyMessage []) engineAnswering eq_refl) DataError Hdec).
Defined.

(** X13 on the small platform: the secure initiator broadcasts a
    frame. *)
Lemma broadcast_only_adds_audio_witness :
  (forall p dc, In (p, dc) (dataChannels engineSecure) ->
     p ∈ secureChannels engineSecure -> is_Some (channels engineSecure !! dc))
  /\ exists e',
       broadcastEncryptedAudio service jsonLength frame engineSecure = (Ok tt, e')
       /\ sameLinks engineSecure e'.
Proof.
  assert (Hheap : forall p dc, In (p, dc) (dataChannels engineSecure) ->
            p ∈ secureChannels engineSecure -> is_Some (channels engineSecure !! dc)).
  { intros p dc Hin _. vm_compute in Hin. destruct Hin as [[= <- <-] | []].
    vm_compute. eexists. reflexivity. }
  split; [exact Hheap|].
  destruct (broadcast_only_adds_audio (CB := backend) service jsonLength frame engineSecure Hheap)
    as (e' & Hrun & Hsame & _).
  exists e'. split; assumption.
Defined.

(** X14 on the small platform: [p2] leaves the engine that had linked
    to it. *)
Lemma user_left_tears_down_one_link_witness :
  let conn := {| pc_publicKey := Some "*"%byte; pc_closeCalled := false;
                 pc_ondatachannel := false |} in
  let chan := {| readyState := dc_connecting; bufferedAmount := 0; sent := [];
                 handlers := Some ("p2", true) |} in
  truthy (ev_socketId (userEvent "p2" None)) = Some "p2"
  /\ peerConnections engineLinked !! "p2" = Some 0%nat
  /\ connections engineLinked !! 0%nat = Some conn
  /\ Map_get "p2" (dataChannels engineLinked) = Some 1%nat
  /\ channels engineLinked !! 1%nat = Some chan
  /\ exists e' conn' chan',
       on_user_left (userEvent "p2" None) engineLinked = (Ok tt, e')
       /\ peerConnections e' !! "p2" = None
       /\ connections e' !! 0%nat = Some conn' /\ pc_closeCalled conn' = true
       /\ dataChannels e' = []
       /\ channels e' !! 1%nat = Some chan' /\ readyState chan' <> dc_open.
Proof.
  intros conn chan.
  assert (H1 : peerConnections engineLinked !! "p2" = Some 0%nat)
    by (vm_compute; reflexivity).
  assert (H2 : connections engineLinked !! 0%nat = Some conn) by (vm_compute; reflexivity).
  assert (H3 : Map_get "p2" (dataChannels engineLinked) = Some 1%nat)
    by (vm_compute; reflexivity).
  assert (H4 : channels engineLinked !! 1%nat = Some chan) by (vm_compute; reflexivity).
  split; [reflexivity|]. split; [exact H1|]. split; [exact H2|]. split; [exact H3|].
  split; [exact H4|].
  destruct (user_left_tears_down_one_link (CB := backend) (userEvent "p2" None) "p2" engineLinked
              0 1 conn chan eq_refl H1 H2 H3 H4)
    as (e' & conn' & chan' & Hrun & Hpc & Hconn & Hclosed & Hdcs & Hchan & Hstate & _).
  exists e', conn', chan'.
  split; [exact Hrun|]. split; [exact Hpc|]. split; [exact Hconn|].
  split; [exact Hclosed|]. split; [rewrite Hdcs; vm_compute; reflexivity|].
  split; [exact Hchan | exact Hstate].
Defined.

(** X17 on the small platform: an offer from [p1] reaches a node that
    knows no peer; the platform accepts it and the answer goes out. *)
Lemma offer_from_unknown_peer_witness :
  "p1" <> ""
  /\ signalingManagers (Node.engine node0) !! "p1" = None
  /\ signalingState newPc = stable
  /\ exists n' m,
       Node.on_offer newPc (Some (sdp_offer, true)) (Some "p1") None node0 = (Ok tt, n')
       /\ signalingManagers (Node.engine n') !! "p1" = Some m
       /\ polite m = true
       /\ dataChannels (Node.engine n') = []
       /\ map fst (Node.calls n') = ["p1"; "p1"; "p1"]
       /\ Node.relay n' = ["answer"].
Proof.
  assert (Hfrom : "p1" <> "") by discriminate.
  assert (Hnone : signalingManagers (Node.engine node0) !! "p1" = None)
    by (vm_compute; reflexivity).
  split; [exact Hfrom|]. split; [exact Hnone|]. split; [reflexivity|].
  destruct (offer_from_unknown_peer (CB := backend) (T := transport) newPc (sdp_offer, true) "p1" None
              node0 Hfrom Hnone eq_refl)
    as (n' & m & Hrun & _ & Hm & _ & Hpolite & _ & _ & _ & Hdcs & _ & _ & _ & Hcalls).
  destruct (Hcalls {| pc_signalingState := have_remote_offer;
                      pc_localDescription := (sdp_none, true) |}
                   {| pc_signalingState := stable;
                      pc_localDescription := (sdp_answer, true) |}
                   ["answer"] eq_refl eq_refl eq_refl)
    as (_ & Hrelay & Htrace).
  exists n', m. split; [exact Hrun|]. split; [exact Hm|]. split; [exact Hpolite|].
  split; [rewrite Hdcs; reflexivity|].
  split; [rewrite Htrace; reflexivity | exact Hrelay].
Defined.

(** X18 on an example: seven readings, of which the last five hold two
    loud ones. *)
Lemma speaking_is_majority_of_window_witness :
  Speaking.analyser detector0 = true
  /\ Speaking.isConnected detector0 = true
  /\ (length (Speaking.speakingHistory detector0) <= 5)%nat
  /\ readings <> []
  /\ Speaking.speakingHistory (Speaking.detectLoop readings detector0)
     = [true; true; false; false; false]
  /\ Speaking.isSpeaking (Speaking.detectLoop readings detector0) = false.
Proof.
  assert (Hlen : (length (Speaking.speakingHistory detector0) <= 5)%nat) by (cbn; lia).
  assert (Hne : readings <> []) by discriminate.
  split; [reflexivity|]. split; [reflexivity|]. split; [exact Hlen|]. split; [exact Hne|].
  destruct (speaking_is_majority_of_window readings detector0 eq_refl eq_refl Hlen Hne)
    as (Hhist & _ & Hstate & _).
  split; [rewrite Hhist; reflexivity | rewrite Hstate, Hhist; reflexivity].
Defined.

(** X19 on the same example: the interface hears [true] after the
    third loud reading and [false] once two of five are left. *)
Lemma speaking_notifications_are_changes_witness :
  (length (Speaking.speakingHistory detector0) <= 5)%nat
  /\ exists added,
       Speaking.notified (Speaking.detectLoop readings detector0) = added
       /\ flips false added.
Proof.
  assert (Hlen : (length (Speaking.speakingHistory detector0) <= 5)%nat) by (cbn; lia).
  split; [exact Hlen|].
  destruct (proj1 (speaking_notifications_are_changes readings detector0 Hlen))
    as (added & Hn & Hf & _).
  exists added. split; [exact Hn | exact Hf].
Defined.

(** X20 on an example: two short quanta stay in the buffer. *)
Lemma worklet_preserves_stream_witness :
  let quanta := [[1; 2; 3]; [4; 5]]%nat in
  wellFormed nat (Worklet.constructor nat 0%nat)
  /\ Forall (fun quantum => (length quantum <= 2048)%nat) quanta
  /\ exists this',
       Worklet.processAll nat quanta (Worklet.constructor nat 0%nat) = (Ok true, this')
       /\ concat (Worklet.posted nat this') ++ pending nat this' = [1; 2; 3; 4; 5]%nat
       /\ Worklet.frameCount nat this' = 2.
Proof.
  intros quanta.
  assert (Hfit : Forall (fun quantum => (length quantum <= 2048)%nat) quanta)
    by (repeat (constructor; [apply Nat.leb_le; reflexivity|]); constructor).
  split; [apply constructor_wellFormed|]. split; [exact Hfit|].
  destruct (worklet_preserves_stream nat quanta (Worklet.constructor nat 0%nat)
              (constructor_wellFormed nat 0%nat) Hfit)
    as (this' & Hrun & _ & Hstream & Hcount).
  exists this'. split; [exact Hrun|]. split; [exact Hstream | exact Hcount].
Defined.

(** X21 on an example: sixteen quanta of 128 samples give one frame
    of 1920 samples and leave one quantum in the buffer. *)
Lemma worklet_frames_of_1920_witness :
  let quanta := replicate 16 (replicate 128 7%nat) in
  wellFormed nat (Worklet.constructor nat 0%nat)
  /\ Forall (fun quantum => length quantum = 128%nat) quanta
  /\ exists this' frames,
       Worklet.processAll nat quanta (Worklet.constructor nat 0%nat) = (Ok true, this')
       /\ Worklet.posted nat this' = frames
       /\ Forall (fun frame => length frame = 1920%nat) frames
       /\ Worklet.bytesWritten nat this' / 128 + 15 * Z.of_nat (length frames) = 16.
Proof.
  intros quanta.
  assert (Hq : Forall (fun quantum => length quantum = 128%nat) quanta).
  { apply Forall_forall. intros q Hin. apply elem_of_replicate in Hin.
    destruct Hin as [-> _]. apply length_replicate. }
  split; [apply constructor_wellFormed|]. split; [exact Hq|].
  destruct (worklet_frames_of_1920 nat quanta (Worklet.constructor nat 0%nat)
              (constructor_wellFormed nat 0%nat) eq_refl ltac:(cbn; lia) Hq)
    as (this' & frames & Hrun & Hposted & Hframes & _ & _ & _ & Hunits).
  exists this', frames. split; [exact Hrun|]. split; [exact Hposted|].
  split; [exact Hframes|]. rewrite Hunits. reflexivity.
Defined.

(** X22 on the small platform: a frame of no samples, sealed under the
    stored key, opens and is not played. *)
Lemma unplayable_frame_not_played_witness :
  type emptyAudio = "audio"
  /\ peerSessionKeys engineKeyed !! "p1" = Some (nativeKey "d"%byte)
  /\ decryptAudioAES service (iv emptyAudio ++ data emptyAudio) (nativeKey "d"%byte)
     = Ok []
  /\ exists e',
       onmessage service jsonLength aboveSpeakingThreshold 1 "p1" (Some emptyAudio)
         engineKeyed = (Ok tt, e')
       /\ playback e' = []
       /\ audioNodes e' = audioNodes engineKeyed.
Proof.
  assert (Hk : peerSessionKeys engineKeyed !! "p1" = Some (nativeKey "d"%byte))
    by (vm_compute; reflexivity).
  assert (Hopen : decryptAudioAES service (iv emptyAudio ++ data emptyAudio)
                    (nativeKey "d"%byte) = Ok []) by (vm_compute; reflexivity).
  split; [reflexivity|]. split; [exact Hk|]. split; [exact Hopen|].
  destruct (unplayable_frame_not_played (CB := backend) service jsonLength
              aboveSpeakingThreshold 1 "p1" emptyAudio (nativeKey "d"%byte) []
              engineKeyed eq_refl Hk Hopen eq_refl (or_introl eq_refl))
    as (e' & Hrun & Hplay & Hnodes & _).
  exists e'. split; [exact Hrun|]. split; [exact Hplay | exact Hnodes].
Defined.

End MoreOnDemo.
